(** * SkyForge: a YOLO synthetic-dataset generator

    A shallow embedding of the TypeScript sources
      - [utils/yoloUtils.ts]  (coordinate transform, image resize, label line,
                               aspect-ratio resolution),
      - [services/geminiService.ts] (the two calls to the generative service),
      - [App.tsx]             (the dataset pipeline and the archive export),
    followed by the properties of the specification that were checked
    against it (Parts IV to IX) and by further properties of the code
    (Part X).

    JavaScript numbers are IEEE-754 binary64 values; they are modelled by
    Rocq's primitive floats, whose operations are specified by [SpecFloat].
    Promises are modelled by their outcome ([Resolved], [Rejected], or
    [Pending] when they never settle); what a function writes to the
    console or shows in an alert is returned beside its result; the
    external world (clock, random draws, service replies, image decoder)
    is an explicit environment. *)

From Stdlib Require Import ZArith NArith Floats List String Ascii Bool Lia.
Import ListNotations.

Set Warnings "-inexact-float".
Local Open Scope string_scope.

(* ================================================================== *)
(** * Part I. The model                                                *)
(* ================================================================== *)

(** ** JavaScript built-ins used by the sources *)

Module JS.

Definition number := float.
Bind Scope float_scope with number.

(** Outcome of awaiting a promise. *)
Inductive Settled (A : Type) : Type :=
| Resolved (value : A)
| Rejected (message : string)
| Pending.
Arguments Resolved {A} value.
Arguments Rejected {A} message.
Arguments Pending {A}.

(** What the code makes visible outside the component state:
    [alert(message)] and [console.error(label, error)], the error given
    by its message. *)
Inductive Effect : Type :=
| Alert (message : string)
| ConsoleError (label error : string).

(** Truthiness of a string: only the empty string is falsy. *)
Definition truthy (s : string) : bool := negb (s =? "").

(** [Math.abs], [Math.min], [Math.max] on two arguments (ECMA-262 21.3.2):
    a NaN argument gives NaN, and -0 is smaller than +0. *)
Definition Math_abs (x : number) : number := PrimFloat.abs x.

Definition Math_min (a b : number) : number :=
  if (is_nan a || is_nan b)%bool then nan
  else if (a <? b)%float then a
  else if (b <? a)%float then b
  else if get_sign a then a else b.

Definition Math_max (a b : number) : number :=
  if (is_nan a || is_nan b)%bool then nan
  else if (a <? b)%float then b
  else if (b <? a)%float then a
  else if get_sign a then b else a.

Arguments Math_abs x%_float.
Arguments Math_min (a b)%_float.
Arguments Math_max (a b)%_float.

(** [x || y] on numbers: [x] unless it is falsy (NaN, +0 or -0). *)
Definition number_or (x y : number) : number :=
  if (is_nan x || (x =? 0)%float)%bool then y else x.

Arguments number_or (x y)%_float.

(** The integer that [Math.floor x] denotes, for a finite [x]. *)
Definition floor_SF (x : spec_float) : option Z :=
  match x with
  | S754_zero _ => Some 0%Z
  | S754_finite s m e =>
      let q := if (0 <=? e)%Z then (Zpos m * 2 ^ e)%Z else (Zpos m / 2 ^ (- e))%Z in
      let exact := if (0 <=? e)%Z then true else (Zpos m mod 2 ^ (- e) =? 0)%Z in
      Some (if s then (if exact then - q else - q - 1)%Z else q)
  | S754_infinity _ | S754_nan => None
  end.

Definition Math_floor (x : number) : option Z := floor_SF (Prim2SF x).

(** [arr.length] as a number. *)
Definition length_number {A} (arr : list A) : number :=
  PrimFloat.of_uint63 (Uint63.of_Z (Z.of_nat (List.length arr))).

(** [arr[k]] where the key is the value of [Math.floor]: an element, or
    [undefined] ([None]) when the key is no index of the array. *)
Definition array_get {A} (arr : list A) (k : option Z) : option A :=
  match k with
  | Some i => if (0 <=? i)%Z then nth_error arr (Z.to_nat i) else None
  | None => None
  end.

(** *** Decimal rendering of integers *)

Definition digit (d : N) : ascii := ascii_of_N (48 + d).

(** Characters ['0'] to ['9']. *)
Definition is_digit (c : ascii) : bool :=
  (Nat.leb 48 (nat_of_ascii c) && Nat.leb (nat_of_ascii c) 57)%bool.

Fixpoint dec_digits (fuel : nat) (n : N) : string :=
  match fuel with
  | O => ""
  | S fuel' =>
      if (n <? 10)%N then String (digit n) ""
      else dec_digits fuel' (n / 10) ++ String (digit (n mod 10)) ""
  end.

(** Decimal digits of [n], most significant first; ["0"] for zero. *)
Definition dec (n : N) : string := dec_digits (S (N.to_nat (N.log2 n))) n.

Fixpoint zeros (k : nat) : string :=
  match k with
  | O => ""
  | S k' => String "0" (zeros k')
  end.

Section NumberToString.

(** [Number::toString] (ECMA-262 6.1.6.1.20) prints the shortest digit
    string that reads back as the same number, padded with zeros or with
    an exponent.  For an integer below 2^53 that string is the decimal
    expansion of the integer, since its neighbours are integers too; for
    every other finite value the digit generation is a parameter of the
    model. *)
Variable shortest_repr : number -> string.

Definition integer_value (m : positive) (e : Z) : option Z :=
  if (0 <=? e)%Z then Some (Zpos m * 2 ^ e)%Z
  else if (Zpos m mod 2 ^ (- e) =? 0)%Z then Some (Zpos m / 2 ^ (- e))%Z
  else None.

Definition Number_toString (x : number) : string :=
  match Prim2SF x with
  | S754_nan => "NaN"
  | S754_zero _ => "0"
  | S754_infinity s => if s then "-Infinity" else "Infinity"
  | S754_finite s m e =>
      match integer_value m e with
      | Some n =>
          if (n <? 2 ^ 53)%Z then (if s then "-" else "") ++ dec (Z.to_N n)
          else shortest_repr x
      | None => shortest_repr x
      end
  end.

(** [Number.prototype.toFixed] (ECMA-262 21.1.3.3).  [nearest_scaled m e f]
    is the integer [n] for which [n / 10^f - m * 2^e] is closest to zero,
    the larger one when two are equally close. *)
Definition nearest_scaled (m : positive) (e : Z) (f : nat) : Z :=
  let p := (10 ^ Z.of_nat f)%Z in
  if (0 <=? e)%Z then (Zpos m * 2 ^ e * p)%Z
  else ((2 * Zpos m * p + 2 ^ (- e)) / 2 ^ (1 - e))%Z.

Definition at_least_1e21 (m : positive) (e : Z) : bool :=
  if (0 <=? e)%Z then (10 ^ 21 <=? Zpos m * 2 ^ e)%Z
  else (10 ^ 21 * 2 ^ (- e) <=? Zpos m)%Z.

(** Steps 10.b to 10.e: the digits of [n] with a decimal point before the
    last [f] of them, left-padded with zeros to [f + 1] digits. *)
Definition fixed_digits (n : N) (f : nat) : string :=
  let m := dec n in
  if Nat.eqb f 0 then m
  else
    let k := String.length m in
    let m := if Nat.leb k f then zeros (f + 1 - k) ++ m else m in
    let k := String.length m in
    substring 0 (k - f) m ++ "." ++ substring (k - f) f m.

Definition toFixed (x : number) (fractionDigits : nat) : string :=
  match Prim2SF x with
  | S754_nan => "NaN"
  | S754_infinity s => if s then "-Infinity" else "Infinity"
  | S754_zero _ => fixed_digits 0 fractionDigits
  | S754_finite s m e =>
      (if s then "-" else "") ++
      (if at_least_1e21 m e then Number_toString (Math_abs x)
       else fixed_digits (Z.to_N (nearest_scaled m e fractionDigits)) fractionDigits)
  end.

End NumberToString.

(** *** Decimal literals *)

(** The number nearest to [m * 10^e], ties going to the even mantissa:
    the value of a decimal literal of digits [m] and exponent [e].  It is
    the rounding of an integer when [e] is not negative, and of the
    quotient of [m] by a power of ten when it is. *)
Definition decimal_SF (negative : bool) (m : N) (e : Z) : spec_float :=
  if (0 <=? e)%Z then
    binary_normalize prec emax (cond_Zopp negative (Z.of_N m * 10 ^ e)) 0 negative
  else
    match m with
    | N0 => S754_zero negative
    | Npos p =>
        let '(q, e2, l) := SFdiv_core_binary prec emax (Zpos p) 0 (10 ^ (- e)) 0 in
        binary_round_aux prec emax negative q e2 l
    end.

(** A run of digits: their value appended to [acc], how many they are
    added to [n], and what follows them. *)
Fixpoint digits (s : string) (acc : N) (n : nat) : N * nat * string :=
  match s with
  | String c rest =>
      if is_digit c then digits rest (10 * acc + (N_of_ascii c - 48)) (S n)
      else (acc, n, s)
  | "" => (acc, n, s)
  end.

End JS.

Import JS.

(** ** [types.ts] *)

Module Types.

(** [Object.values] of the three string enums, in declaration order. *)
Definition LightingCondition : list string :=
  [ "Sunny, harsh shadows"; "Overcast, soft lighting"; "Sunset, golden hour";
    "Night, artificial street lighting" ].

Definition WeatherCondition : list string :=
  [ "Clear, high visibility";
    "Foggy, heavy smog, atmospheric haze, low visibility";
    "Dusty, sandstorm, particulate matter in air, yellow tint";
    "Rainy, wet surfaces, puddles, falling droplets";
    "Cloudy, overcast sky" ].

Definition BackgroundType : list string :=
  [ "Urban street, asphalt";
    "Construction site, cranes, raw materials, dirt, unfinished structures";
    "Green grass field"; "Dirt ground, dry earth"; "Concrete pavement";
    "Snowy ground"; "Sandy desert" ].

Definition ALTITUDE_OPTIONS : list string :=
  [ "Low (10m)"; "Medium (30m)"; "High (50m)"; "Very High (100m)" ].

Definition ANGLE_OPTIONS : list string :=
  [ "Top-down (90°)"; "Steep (75°)"; "High Angle (60°)"; "Standard (45°)";
    "Low Angle (30°)"; "Grazing (15°)" ].

(** [Omit<GenerationConfig, 'angle'> & { angle: string }], the [config]
    state of the application. *)
Record GenerationConfig : Type := {
  count : nat;
  cfg_width : number;
  cfg_height : number;
  cfg_lighting : string;
  cfg_background : string;
  cfg_altitude : string;
  cfg_angle : string;
  cfg_weather : string
}.

Record BoundingBox : Type := {
  x_center : number;
  y_center : number;
  width : number;
  height : number
}.

Inductive Status : Type := pending | generating | detecting | completed | failed.

(** The resolved axes of one item.  A field is [None] when the sampled
    array element is [undefined]. *)
Record Metadata : Type := {
  lighting : option string;
  background : option string;
  altitude : option string;
  angle : option string;
  weather : option string
}.

Record GeneratedData : Type := {
  id : string;
  imageUrl : string;
  bbox : option BoundingBox;
  status : Status;
  error : option string;
  metadata : Metadata
}.

Record Box2D : Type := {
  ymin : number;
  xmin : number;
  ymax : number;
  xmax : number
}.

Definition Status_eqb (a b : Status) : bool :=
  match a, b with
  | pending, pending | generating, generating | detecting, detecting
  | completed, completed | failed, failed => true
  | _, _ => false
  end.

End Types.

Import Types.

(** ** [utils/yoloUtils.ts] *)

Module YoloUtils.

(** Converts [ymin, xmin, ymax, xmax] (0-1000 or 0-1 scale) to the YOLO
    centre format, each field clamped to [0, 1]. *)
Definition convertGeminiBoxToYolo (box : Box2D) (imgWidth imgHeight : number)
  : BoundingBox :=
  let scale : number := if (1 <? ymax box)%float then 1000%float else 1%float in
  let ymin := (ymin box / scale)%float in
  let xmin := (xmin box / scale)%float in
  let ymax := (ymax box / scale)%float in
  let xmax := (xmax box / scale)%float in
  let boxWidth := (xmax - xmin)%float in
  let boxHeight := (ymax - ymin)%float in
  let xCenter := (xmin + boxWidth / 2)%float in
  let yCenter := (ymin + boxHeight / 2)%float in
  {| x_center := Math_max 0 (Math_min 1 xCenter);
     y_center := Math_max 0 (Math_min 1 yCenter);
     width := Math_max 0 (Math_min 1 boxWidth);
     height := Math_max 0 (Math_min 1 boxHeight) |}.

(** The browser facilities [resizeImage] relies on: whether the image
    element fires [onload] or [onerror], whether the canvas hands out a 2D
    context, and the data URL the canvas encodes to. *)
Inductive ImageLoad : Type := Loaded | LoadError.

Record Browser : Type := {
  image_load : ImageLoad;
  context2d : bool;
  toDataURL : string
}.

(** Only [img.onload] is installed and only [resolve] is taken from the
    promise executor: when the image fails to load nothing settles the
    promise. *)
Definition resizeImage (env : Browser) (base64Str : string)
    (targetWidth targetHeight : number) : Settled string :=
  match image_load env with
  | Loaded =>
      if context2d env then Resolved (toDataURL env)
      else Resolved base64Str
  | LoadError => Pending
  end.

(** The outcome of the [FileReader]: [onload] with the data URL, or
    [onerror] with the error. *)
Inductive FileRead : Type := ReadDone (result : string) | ReadError (message : string).

Definition fileToBase64 (reader : FileRead) : Settled string :=
  match reader with
  | ReadDone result => Resolved result
  | ReadError message => Rejected message
  end.

Section Formatting.
Variable shortest_repr : number -> string.

(** [<class_id> <x_center> <y_center> <width> <height>] *)
Definition formatYoloLine (classId : number) (bbox : BoundingBox) : string :=
  Number_toString shortest_repr classId ++ " " ++
  toFixed shortest_repr (x_center bbox) 6 ++ " " ++
  toFixed shortest_repr (y_center bbox) 6 ++ " " ++
  toFixed shortest_repr (width bbox) 6 ++ " " ++
  toFixed shortest_repr (height bbox) 6.

End Formatting.

Record Ratio : Type := { key : string; value : number }.

Definition ratios : list Ratio :=
  [ {| key := "1:1"; value := 1.0%float |};
    {| key := "3:4"; value := 0.75%float |};
    {| key := "4:3"; value := 1.333%float |};
    {| key := "9:16"; value := 0.5625%float |};
    {| key := "16:9"; value := 1.777%float |} ].

(** [Array.prototype.reduce] without an initial value: the first element
    seeds the accumulator; an empty array raises a [TypeError] ([None]). *)
Definition reduce {A} (callback : A -> A -> A) (arr : list A) : option A :=
  match arr with
  | [] => None
  | first :: rest => Some (fold_left callback rest first)
  end.

Definition closer (targetRatio : number) (prev curr : Ratio) : Ratio :=
  if (Math_abs (value curr - targetRatio) <? Math_abs (value prev - targetRatio))%float
  then curr else prev.

(** The supported aspect ratio closest to [width / height]. *)
Definition getGeminiAspectRatio (width height : number) : string :=
  let targetRatio := (width / height)%float in
  match reduce (closer targetRatio) ratios with
  | Some r => key r
  | None => ""
  end.

End YoloUtils.

Import YoloUtils.

(** ** [services/geminiService.ts]

    A service returns the outcome of its promise together with what it
    wrote to the console: both log the error that crosses their [try]
    block before they rethrow it. *)

Module GeminiService.

(** [s] without its prefix [p], when it starts with it. *)
Fixpoint strip_prefix (p s : string) : option string :=
  match p, s with
  | "", _ => Some s
  | String a p', String b s' => if Ascii.eqb a b then strip_prefix p' s' else None
  | String _ _, "" => None
  end.

(** The alternatives of the group [(png|jpeg|jpg|webp)], in the order the
    pattern tries them. *)
Definition image_types : list string := ["png"; "jpeg"; "jpg"; "webp"].

Fixpoint replace_prefix (types : list string) (b64 : string) : string :=
  match types with
  | [] => b64
  | t :: others =>
      match strip_prefix ("data:image/" ++ t ++ ";base64,") b64 with
      | Some data => data
      | None => replace_prefix others b64
      end
  end.

(** Helper to strip the [data:image/png;base64,] prefix:
    [b64.replace(/^data:image\/(png|jpeg|jpg|webp);base64,/, ...)] with the
    empty string as replacement.  The pattern is anchored, so it matches
    at most once, at the start. *)
Definition cleanBase64 (b64 : string) : string := replace_prefix image_types b64.

(** What the code reads from a reply of [ai.models.generateContent]. *)
Record Part : Type := {
  part_text : option string;
  inlineData : option string   (* [inlineData.data] *)
}.

(** [catch (error) { console.error(label, error); throw error; }] *)
Definition rethrow {A} (label message : string) : Settled A * list Effect :=
  (Rejected message, [ConsoleError label message]).

Definition first_image (parts : list Part) : option string :=
  match find (fun p => match inlineData p with
                       | Some data => truthy data
                       | None => false
                       end) parts with
  | Some p => inlineData p
  | None => None
  end.

(** Step 1: generate a drone view variation of the input image.  [reply]
    is the outcome of the request, the candidate's parts when it resolves.
    The credential is checked before the [try] block is entered. *)
Definition generateDroneView (apiKey : string) (reply : Settled (list Part))
  : Settled string * list Effect :=
  if negb (truthy apiKey) then (Rejected "API Key is missing", [])
  else
    match reply with
    | Resolved parts =>
        match first_image parts with
        | Some data => (Resolved ("data:image/jpeg;base64," ++ data), [])
        | None => rethrow "Generation failed:" "No image data returned from model."
        end
    | Rejected message => rethrow "Generation failed:" message
    | Pending => (Pending, [])
    end.

(** *** [JSON.parse(text) as Box2D] *)

(** A value [JSON.parse] returns, as far as the caller can tell.  The
    caller reads [ymin], [xmin], [ymax] and [xmax] and uses them as
    numbers: of [null] no field can be read; of any other value the four
    fields are what matters, each converted to a number (NaN when the
    field is absent); the conversion itself throws for an object member
    that cannot be converted (one with a [toString] that is no
    function). *)
Inductive Json : Type :=
| JsonNull
| JsonObject (box : Box2D)
| JsonUnconvertible.

Inductive Parsed : Type :=
| SyntaxError (message : string)
| Value (json : Json).

(** The model reads two shapes of text itself: [null], and an object
    whose members are numbers and whose keys hold no escape sequence,
    with the white space JSON allows.  Numbers follow the JSON grammar
    and denote the nearest binary64 value. *)
Definition is_space (c : ascii) : bool :=
  let n := nat_of_ascii c in
  (Nat.eqb n 32 || Nat.eqb n 9 || Nat.eqb n 10 || Nat.eqb n 13)%bool.

Fixpoint skip_spaces (s : string) : string :=
  match s with
  | String c rest => if is_space c then skip_spaces rest else s
  | "" => ""
  end.

Definition quote : ascii := "034"%char.

(** A JSON number is read in four steps, each returning what follows
    it.  The sign: an optional [-]. *)
Definition json_sign (s : string) : bool * string :=
  match s with
  | String c rest => if Ascii.eqb c "-" then (true, rest) else (false, s)
  | "" => (false, s)
  end.

(** The integer part: [0], or digits that do not start with [0]. *)
Definition json_int (s : string) : option (N * string) :=
  match s with
  | String c rest =>
      if Ascii.eqb c "0" then Some (0%N, rest)
      else if is_digit c then let '(v, _, rest') := digits s 0 0 in Some (v, rest')
      else None
  | "" => None
  end.

(** The fraction: nothing, or a point and at least one digit; its digits
    are appended to those of the integer part. *)
Definition json_frac (int : N) (s : string) : option (N * nat * string) :=
  match s with
  | String c rest =>
      if Ascii.eqb c "." then
        let '(v, n, rest') := digits rest int 0 in
        if Nat.eqb n 0 then None else Some (v, n, rest')
      else Some (int, 0, s)
  | "" => Some (int, 0, s)
  end.

(** The exponent: nothing, or [e] or [E], an optional sign and at least
    one digit. *)
Definition json_exp (s : string) : option (Z * string) :=
  match s with
  | String c rest =>
      if (Ascii.eqb c "e" || Ascii.eqb c "E")%bool then
        let '(minus, rest) :=
          match rest with
          | String c' r =>
              if Ascii.eqb c' "-" then (true, r)
              else if Ascii.eqb c' "+" then (false, r)
              else (false, rest)
          | "" => (false, rest)
          end in
        let '(v, n, rest') := digits rest 0 0 in
        if Nat.eqb n 0 then None
        else Some (if minus then (- Z.of_N v)%Z else Z.of_N v, rest')
      else Some (0%Z, s)
  | "" => Some (0%Z, s)
  end.

(** A literal of more than twenty digits is left to the engine, which
    may round it in two ways. *)
Definition json_number (s : string) : option (number * string) :=
  let '(negative, s) := json_sign s in
  match json_int s with
  | Some (int, s) =>
      match json_frac int s with
      | Some (m, decimals, s) =>
          match json_exp s with
          | Some (e, s) =>
              if (m <? 10 ^ 20)%N
              then Some (SF2Prim (decimal_SF negative m (e - Z.of_nat decimals)), s)
              else None
          | None => None
          end
      | None => None
      end
  | None => None
  end.

(** The characters of a key up to its closing quote. *)
Fixpoint json_key (s : string) : option (string * string) :=
  match s with
  | String c rest =>
      if Ascii.eqb c quote then Some ("", rest)
      else if (Ascii.eqb c "\" || Nat.ltb (nat_of_ascii c) 32)%bool then None
      else match json_key rest with
           | Some (k, rest') => Some (String c k, rest')
           | None => None
           end
  | "" => None
  end.

(** The members that follow an opening brace, the last one first. *)
Fixpoint json_members (fuel : nat) (s : string) (seen : list (string * number))
  : option (list (string * number) * string) :=
  match fuel with
  | O => None
  | S fuel' =>
      match skip_spaces s with
      | String c rest =>
          if Ascii.eqb c quote then
            match json_key rest with
            | Some (k, rest) =>
                match skip_spaces rest with
                | String ":" rest =>
                    match json_number (skip_spaces rest) with
                    | Some (v, rest) =>
                        match skip_spaces rest with
                        | String "," rest => json_members fuel' rest ((k, v) :: seen)
                        | String "}" rest => Some ((k, v) :: seen, rest)
                        | _ => None
                        end
                    | None => None
                    end
                | _ => None
                end
            | None => None
            end
          else None
      | "" => None
      end
  end.

(** The field [k] of an object: of members with the same key the last
    one counts, and a field that is absent reads as NaN. *)
Definition member (members : list (string * number)) (k : string) : number :=
  match find (fun kv => fst kv =? k) members with
  | Some kv => snd kv
  | None => nan
  end.

Definition flat_json (text : string) : option Json :=
  match skip_spaces text with
  | String "{" rest =>
      let body :=
        match skip_spaces rest with
        | String "}" rest' => Some ([], rest')
        | _ => json_members (String.length rest) rest []
        end in
      match body with
      | Some (members, rest') =>
          match skip_spaces rest' with
          | "" => Some (JsonObject {| ymin := member members "ymin";
                                      xmin := member members "xmin";
                                      ymax := member members "ymax";
                                      xmax := member members "xmax" |})
          | _ => None
          end
      | None => None
      end
  | s =>
      match strip_prefix "null" s with
      | Some rest => match skip_spaces rest with
                     | "" => Some JsonNull
                     | _ => None
                     end
      | None => None
      end
  end.

(** [JSON.parse].  What it makes of any other text, a [SyntaxError] for
    a text that is not JSON or a value for JSON of another shape, is a
    parameter of the model. *)
Definition JSON_parse (JSON_other : string -> Parsed) (text : string) : Parsed :=
  match flat_json text with
  | Some json => Value json
  | None => JSON_other text
  end.

(** What the code reads from the reply of the detection request:
    [response.text]. *)
Record DetectionResponse : Type := {
  text : option string
}.

(** Step 2: detect the bounding box of the object in the generated image.
    The value parsed from the reply is passed on as it is; reading its
    fields is left to the caller. *)
Definition detectObjectBBox (JSON_other : string -> Parsed) (apiKey : string)
    (reply : Settled DetectionResponse) : Settled Json * list Effect :=
  if negb (truthy apiKey) then (Rejected "API Key is missing", [])
  else
    match reply with
    | Resolved response =>
        match text response with
        | Some t =>
            if truthy t then
              match JSON_parse JSON_other t with
              | Value result => (Resolved result, [])
              | SyntaxError message => rethrow "Detection failed:" message
              end
            else rethrow "Detection failed:" "No text response for detection"
        | None => rethrow "Detection failed:" "No text response for detection"
        end
    | Rejected message => rethrow "Detection failed:" message
    | Pending => (Pending, [])
    end.

End GeminiService.

Import GeminiService.

(** ** [App.tsx] *)

Module App.

(** The state hooks of the component. *)
Record State : Type := {
  apiKey : string;
  referenceImg : option string;
  objectLabel : string;
  classId : number;
  isProcessing : bool;
  generatedItems : list GeneratedData;
  progress : option (nat * nat);   (* [{ current, total }] or [null] *)
  selectedAngles : list string;
  config : GenerationConfig
}.

Definition setIsProcessing (b : bool) (st : State) : State :=
  {| apiKey := apiKey st; referenceImg := referenceImg st;
     objectLabel := objectLabel st; classId := classId st;
     isProcessing := b; generatedItems := generatedItems st;
     progress := progress st; selectedAngles := selectedAngles st;
     config := config st |}.

(** [setGeneratedItems(prev => update(prev))] *)
Definition setGeneratedItems (update : list GeneratedData -> list GeneratedData)
    (st : State) : State :=
  {| apiKey := apiKey st; referenceImg := referenceImg st;
     objectLabel := objectLabel st; classId := classId st;
     isProcessing := isProcessing st;
     generatedItems := update (generatedItems st);
     progress := progress st; selectedAngles := selectedAngles st;
     config := config st |}.

Definition setProgress (p : option (nat * nat)) (st : State) : State :=
  {| apiKey := apiKey st; referenceImg := referenceImg st;
     objectLabel := objectLabel st; classId := classId st;
     isProcessing := isProcessing st; generatedItems := generatedItems st;
     progress := p; selectedAngles := selectedAngles st;
     config := config st |}.

Definition setSelectedAngles (update : list string -> list string)
    (st : State) : State :=
  {| apiKey := apiKey st; referenceImg := referenceImg st;
     objectLabel := objectLabel st; classId := classId st;
     isProcessing := isProcessing st; generatedItems := generatedItems st;
     progress := progress st; selectedAngles := update (selectedAngles st);
     config := config st |}.

Definition setReferenceImg (img : option string) (st : State) : State :=
  {| apiKey := apiKey st; referenceImg := img;
     objectLabel := objectLabel st; classId := classId st;
     isProcessing := isProcessing st; generatedItems := generatedItems st;
     progress := progress st; selectedAngles := selectedAngles st;
     config := config st |}.

Definition setClassId (c : number) (st : State) : State :=
  {| apiKey := apiKey st; referenceImg := referenceImg st;
     objectLabel := objectLabel st; classId := c;
     isProcessing := isProcessing st; generatedItems := generatedItems st;
     progress := progress st; selectedAngles := selectedAngles st;
     config := config st |}.

(** The component as first rendered. *)
Definition initialState (API_KEY : string) : State :=
  {| apiKey := API_KEY; referenceImg := None; objectLabel := "car";
     classId := 0%float; isProcessing := false; generatedItems := [];
     progress := None; selectedAngles := ["Standard (45°)"];
     config := {| count := 3; cfg_width := 640%float; cfg_height := 640%float;
                  cfg_lighting := "Random"; cfg_background := "Random";
                  cfg_altitude := "Random"; cfg_angle := "Random";
                  cfg_weather := "Random" |} |}.

(** [arr[Math.floor(Math.random() * arr.length)]], [random] being the value
    [Math.random()] returned. *)
Definition sample {T} (arr : list T) (random : number) : option T :=
  array_get arr (Math_floor (random * length_number arr)%float).

Definition includes (arr : list string) (x : string) : bool :=
  existsb (String.eqb x) arr.

Definition toggleAngle (angle : string) (st : State) : State :=
  setSelectedAngles
    (fun prev =>
       if includes prev angle then filter (fun a => negb (a =? angle)) prev
       else (prev ++ [angle])%list)
    st.

(** What the world supplies while one item is processed: the clock, the
    random draws, the outcomes of the service and browser calls, and what
    the engine's [JSON.parse] makes of a text the model does not read
    itself. *)
Record ItemEnv : Type := {
  now : N;                               (* [Date.now()] *)
  random_lighting : number;
  random_background : number;
  random_altitude : number;
  random_weather : number;
  random_angle : number;
  synthesis : Settled (list Part);
  browser : Browser;
  detection : Settled DetectionResponse;
  JSON_other : string -> Parsed
}.

Definition updateItem (id' : string) (change : GeneratedData -> GeneratedData)
    (prev : list GeneratedData) : list GeneratedData :=
  map (fun item => if id item =? id' then change item else item) prev.

Definition withImage (url : string) (item : GeneratedData) : GeneratedData :=
  {| id := id item; imageUrl := url; bbox := bbox item; status := detecting;
     error := error item; metadata := metadata item |}.

Definition withBBox (b : BoundingBox) (item : GeneratedData) : GeneratedData :=
  {| id := id item; imageUrl := imageUrl item; bbox := Some b;
     status := completed; error := error item; metadata := metadata item |}.

Definition withError (message : string) (item : GeneratedData) : GeneratedData :=
  {| id := id item; imageUrl := imageUrl item; bbox := bbox item;
     status := failed; error := Some message; metadata := metadata item |}.

(** Result of one pass through the loop body: the loop goes on, or the
    function is suspended for ever on a promise that never settles. *)
Inductive Step : Type :=
| Continue (st : State) (log : list Effect)
| Suspended (st : State) (log : list Effect).

Definition resolveAxis (configured : string) (values : list string)
    (random : number) : option string :=
  if configured =? "Random" then sample values random else Some configured.

(** The [catch] block followed by the progress update. *)
Definition catchError (i : nat) (id' message : string) (st : State)
    (log : list Effect) : Step :=
  let log :=
    (log ++ [ConsoleError ("Failed to generate item " ++ dec (N.of_nat i)) message])%list in
  let st := setGeneratedItems (updateItem id' (withError message)) st in
  Continue (setProgress (Some (i + 1, count (config st))) st) log.

(** The body of the [for] loop of [generateDataset] for index [i].  The
    request sent to the service (prompt, reference image, aspect ratio)
    does not influence the control flow; the reply is in [env].  A value
    of the detection whose fields cannot be read makes
    [convertGeminiBoxToYolo] throw a [TypeError], caught like the errors
    of the services. *)
Definition processItem (i : nat) (env : ItemEnv) (st : State)
    (log : list Effect) : Step :=
  let id' := "img_" ++ dec (now env) ++ "_" ++ dec (N.of_nat i) in
  let cfg := config st in
  let newItem :=
    {| id := id'; imageUrl := ""; bbox := None; status := generating;
       error := None;
       metadata :=
         {| lighting := resolveAxis (cfg_lighting cfg) LightingCondition (random_lighting env);
            background := resolveAxis (cfg_background cfg) BackgroundType (random_background env);
            altitude := resolveAxis (cfg_altitude cfg) ALTITUDE_OPTIONS (random_altitude env);
            angle := sample (selectedAngles st) (random_angle env);
            weather := resolveAxis (cfg_weather cfg) WeatherCondition (random_weather env) |} |} in
  let st := setGeneratedItems (fun prev => (prev ++ [newItem])%list) st in
  let '(rawDroneImage, lines) := generateDroneView (apiKey st) (synthesis env) in
  let log := (log ++ lines)%list in
  match rawDroneImage with
  | Pending => Suspended st log
  | Rejected message => catchError i id' message st log
  | Resolved rawDroneImage =>
      match resizeImage (browser env) rawDroneImage (cfg_width cfg) (cfg_height cfg) with
      | Pending => Suspended st log
      | Rejected message => catchError i id' message st log
      | Resolved resizedImage =>
          let st := setGeneratedItems (updateItem id' (withImage resizedImage)) st in
          let '(box2d, lines) :=
            detectObjectBBox (JSON_other env) (apiKey st) (detection env) in
          let log := (log ++ lines)%list in
          match box2d with
          | Pending => Suspended st log
          | Rejected message => catchError i id' message st log
          | Resolved JsonNull =>
              catchError i id' "Cannot read properties of null (reading 'ymax')" st log
          | Resolved JsonUnconvertible =>
              catchError i id' "Cannot convert object to primitive value" st log
          | Resolved (JsonObject box2d) =>
              let yoloBBox :=
                convertGeminiBoxToYolo box2d (cfg_width cfg) (cfg_height cfg) in
              let st := setGeneratedItems (updateItem id' (withBBox yoloBBox)) st in
              Continue (setProgress (Some (i + 1, count cfg)) st) log
          end
      end
  end.

Inductive Run : Type :=
| Finished (st : State) (log : list Effect)
| Stalled (st : State) (log : list Effect).

(** [for (let i = 0; i < config.count; i++)], with [remaining = count - i]. *)
Fixpoint itemLoop (envs : nat -> ItemEnv) (remaining i : nat) (st : State)
    (log : list Effect) : Run :=
  match remaining with
  | O => Finished (setIsProcessing false st) log
  | S remaining' =>
      match processItem i (envs i) st log with
      | Continue st' log' => itemLoop envs remaining' (S i) st' log'
      | Suspended st' log' => Stalled st' log'
      end
  end.

Definition falsy_image (img : option string) : bool :=
  match img with
  | Some s => negb (truthy s)
  | None => true
  end.

Definition generateDataset (envs : nat -> ItemEnv) (st : State) : Run :=
  if (falsy_image (referenceImg st) || negb (truthy (apiKey st)))%bool
  then Finished st []
  else if Nat.eqb (List.length (selectedAngles st)) 0
  then Finished st [Alert "Please select at least one camera angle."]
  else
    let st := setIsProcessing true st in
    let st := setGeneratedItems (fun _ => []) st in
    let st := setProgress (Some (0, count (config st))) st in
    itemLoop envs (count (config st)) 0 st [].

(** *** Export *)

Inductive ZipEntry : Type :=
| Folder (path : string)
| File (path : string) (content : option string) (base64 : bool).

Record Download : Type := {
  filename : string;
  entries : list ZipEntry
}.

(** [s.split(sep)] for a one-character separator. *)
Fixpoint split (sep : ascii) (s : string) : list string :=
  match s with
  | "" => [""]
  | String c rest =>
      if Ascii.eqb c sep then "" :: split sep rest
      else match split sep rest with
           | first :: others => String c first :: others
           | [] => [String c ""]
           end
  end.

Definition exportable (i : GeneratedData) : bool :=
  (Status_eqb (status i) completed &&
   match bbox i with Some _ => true | None => false end)%bool.

Section Archive.
Variable shortest_repr : number -> string.

Definition dataYaml (st : State) : string :=
  "
train: ../train/images
val: ../valid/images

nc: " ++ Number_toString shortest_repr (classId st + 1)%float ++ "
names: {" ++ Number_toString shortest_repr (classId st) ++ ": '" ++ objectLabel st ++ "'}
    ".

Definition itemEntries (st : State) (item : GeneratedData) : list ZipEntry :=
  let imgData := nth_error (split "," (imageUrl item)) 1 in
  File ("images/" ++ id item ++ ".jpg") imgData true ::
  match bbox item with
  | Some b =>
      [File ("labels/" ++ id item ++ ".txt")
            (Some (formatYoloLine shortest_repr (classId st) b)) false]
  | None => []
  end.

(** [None]: the handler returned before anything was written or saved. *)
Definition handleDownloadZip (st : State) : option Download :=
  let completedItems := filter exportable (generatedItems st) in
  if Nat.eqb (List.length completedItems) 0 then None
  else
    Some {| filename := "yolo_drone_dataset.zip";
            entries :=
              Folder "images/" :: Folder "labels/" ::
              File "data.yaml" (Some (dataYaml st)) false ::
              flat_map (itemEntries st) completedItems |}.

End Archive.

(** [handleImageUpload].  [files] is [e.target.files], [None] when it is
    [null]; a file is given by what its reader will report.  The handler
    returns the new state and what it wrote to the console. *)
Definition handleImageUpload (files : option (list FileRead)) (st : State)
  : State * list Effect :=
  match files with
  | Some (file :: _) =>
      match fileToBase64 file with
      | Resolved base64 => (setReferenceImg (Some base64) st, [])
      | Rejected err => (st, [ConsoleError "Upload failed" err])
      | Pending => (st, [])
      end
  | _ => (st, [])
  end.

(** The [onChange] handler of the class id field,
    [setClassId(Math.max(0, parseInt(e.target.value) || 0))]; [parsed] is
    the number [parseInt] returned. *)
Definition onClassIdChange (parsed : number) (st : State) : State :=
  setClassId (Math_max 0 (number_or parsed 0)) st.

(** The [disabled] attribute of the Start button:
    [isProcessing || !referenceImg || selectedAngles.length === 0]. *)
Definition startDisabled (st : State) : bool :=
  (isProcessing st || falsy_image (referenceImg st) ||
   Nat.eqb (List.length (selectedAngles st)) 0)%bool.

(** The [disabled] attribute of the Download button:
    [generatedItems.filter(i => i.status === 'completed').length === 0]. *)
Definition downloadDisabled (st : State) : bool :=
  Nat.eqb (List.length (filter (fun i => Status_eqb (status i) completed)
                               (generatedItems st))) 0.

End App.

Import App.

(* ================================================================== *)
(** * Part II. Vocabulary of the properties                            *)
(* ================================================================== *)

(** The notions in which the properties of Parts III to IX are stated,
    and the concrete inputs on which they are exercised. *)

(** ** Binary64 values *)

Module Binary64.

Local Open Scope Z_scope.

(** The decision taken by [binary_round_aux], spelled out. *)
Definition round_result (sx : bool) (m2 e2 : Z) : spec_float :=
  match m2 with
  | Z0 => S754_zero sx
  | Zpos p => if e2 <=? emax - prec then S754_finite sx p e2 else S754_infinity sx
  | Zneg _ => S754_nan
  end.

(** Zeros and finite numbers, as opposed to infinities and NaN. *)
Definition SF_is_finite (x : spec_float) : bool :=
  match x with
  | S754_zero _ | S754_finite _ _ _ => true
  | _ => false
  end.

(** The NaN test on spec floats. *)
Definition SF_is_nan (x : spec_float) : bool :=
  match x with
  | S754_nan => true
  | _ => false
  end.

(** The number 1 in canonical form: mantissa [2^52], exponent [-52]. *)
Definition SF_one : spec_float := S754_finite false 4503599627370496 (-52).

(** Ordering of spec floats through a lexicographic key. *)
Definition SF_key (x : spec_float) : Z * Z * Z :=
  match x with
  | S754_infinity true => (-2, 0, 0)
  | S754_finite true m e => (-1, - e, - Zpos m)
  | S754_zero _ | S754_nan => (0, 0, 0)
  | S754_finite false m e => (1, e, Zpos m)
  | S754_infinity false => (2, 0, 0)
  end.

(** The strict lexicographic order on keys, and its reflexive closure. *)
Definition key_lt (k1 k2 : Z * Z * Z) : Prop :=
  let '(a1, b1, c1) := k1 in
  let '(a2, b2, c2) := k2 in
  a1 < a2 \/ (a1 = a2 /\ (b1 < b2 \/ (b1 = b2 /\ c1 < c2))).

Definition key_le (k1 k2 : Z * Z * Z) : Prop := key_lt k1 k2 \/ k1 = k2.

(** [Number.isFinite]. *)
Definition finite (x : float) : bool := SF_is_finite (Prim2SF x).

End Binary64.

Import Binary64.

(** ** Coordinate transform *)

(** A number lies in the closed interval [0, 1]. *)
Definition in_unit (v : number) : Prop :=
  (0 <=? v)%float = true /\ (v <=? 1)%float = true.

(** The centre-format box of four edge coordinates, in the words of the
    specification: [width = xmax - xmin], [height = ymax - ymin],
    [x_center = xmin + width/2], [y_center = ymin + height/2], every field
    clamped to [0, 1]. *)
Definition clamp01 (v : number) : number := Math_max 0 (Math_min 1 v).

Definition centerBox (ymin xmin ymax xmax : number) : BoundingBox :=
  let w := (xmax - xmin)%float in
  let h := (ymax - ymin)%float in
  {| x_center := clamp01 (xmin + w / 2);
     y_center := clamp01 (ymin + h / 2);
     width := clamp01 w;
     height := clamp01 h |}.

(** A malformed box: negative and out-of-range fields, [xmin > xmax],
    [ymin > ymax]. *)
Definition malformed_box : Box2D :=
  {| ymin := 100; xmin := 900; ymax := 50; xmax := (-300) |}.

(** The box of the specification's example on clamping. *)
Definition overhanging_box : Box2D :=
  {| ymin := 0; xmin := 500; ymax := 1000; xmax := 1500 |}.

(** ** Aspect-ratio resolution *)

(** The five supported tags with their reference values, in enumeration
    order. *)
Definition reference_values : list (string * number) :=
  [ ("1:1", 1%float); ("3:4", 0.75%float); ("4:3", 1.333%float);
    ("9:16", 0.5625%float); ("16:9", 1.777%float) ].

(** Absolute difference between a reference value and the raw ratio. *)
Definition difference (raw reference : number) : number :=
  Math_abs (reference - raw).

(** [tag], the entry of index [i] of the enumeration, is the one whose
    reference value is nearest to [raw]: no entry is nearer, and every
    entry before it is strictly farther. *)
Definition nearest_tag (raw : number) (i : nat) (tag : string) : Prop :=
  exists reference,
    nth_error reference_values i = Some (tag, reference) /\
    forall j tag' reference',
      nth_error reference_values j = Some (tag', reference') ->
      (difference raw reference <=? difference raw reference')%float = true /\
      (j < i -> (difference raw reference <? difference raw reference')%float = true).

(** Absolute difference between an entry's reference value and the target,
    as the code computes it. *)
Definition distance (targetRatio : number) (r : Ratio) : number :=
  Math_abs (value r - targetRatio).

(** [r], at index [i] of [l], is the first entry of minimal distance:
    no entry is closer, and every earlier entry is strictly farther. *)
Definition first_closest (d : Ratio -> number) (l : list Ratio) (i : nat) (r : Ratio) : Prop :=
  nth_error l i = Some r /\
  forall j r', nth_error l j = Some r' ->
    (d r <=? d r')%float = true /\ (j < i -> (d r <? d r')%float = true).

(** The callback of the reduction, over an arbitrary distance. *)
Definition pick (d : Ratio -> number) (prev curr : Ratio) : Ratio :=
  if (d curr <? d prev)%float then curr else prev.

(** ** Annotation line *)

(** The last [f] decimal digits of [k], most significant first. *)
Fixpoint fixed_width (f : nat) (k : N) : string :=
  match f with
  | O => ""
  | S f' => fixed_width f' (k / 10) ++ String (digit (k mod 10)) ""
  end.

(** A number printed with exactly six decimals: the digits of the integer
    part, a point, and the six digits of the fraction ([n] counts
    millionths). *)
Definition six_decimals (n : N) : string :=
  dec (n / 10 ^ 6) ++ "." ++ fixed_width 6 (n mod 10 ^ 6).

(** [dec n], left-padded with zeros to at least [f + 1] digits. *)
Definition padded (f : nat) (n : N) : string :=
  let m := dec n in
  let k := String.length m in
  if Nat.leb k f then zeros (f + 1 - k) ++ m else m.

(** The exact value of a finite number, as a fraction whose denominator is
    a power of two. *)
Definition exact_fraction (x : spec_float) : option (Z * Z) :=
  match x with
  | S754_zero _ => Some (0, 1)%Z
  | S754_finite s m e =>
      let m' := if s then Zneg m else Zpos m in
      Some (if (0 <=? e)%Z then (m' * 2 ^ e, 1)%Z else (m', 2 ^ (- e))%Z)
  | S754_infinity _ | S754_nan => None
  end.

(** [n] millionths is [v] rounded to the nearest millionth, a value halfway
    between two millionths going up:  n - 1/2 <= v * 10^6 < n + 1/2. *)
Definition rounds_to_millionths (v : number) (n : N) : Prop :=
  exists a b : Z,
    exact_fraction (Prim2SF v) = Some (a, b) /\ (0 < b)%Z /\
    (2 * Z.of_N n * b - b <= 2 * a * 10 ^ 6 < 2 * Z.of_N n * b + b)%Z.

(** The integer a number denotes, when it is one. *)
Definition integer_of (x : number) : option Z :=
  match Prim2SF x with
  | S754_zero _ => Some 0%Z
  | S754_finite s m e =>
      match integer_value m e with
      | Some n => Some (if s then (- n)%Z else n)
      | None => None
      end
  | S754_infinity _ | S754_nan => None
  end.

(** ** Export *)

(** The paths of the files of an archive, in the order they were added. *)
Definition file_paths (entries : list ZipEntry) : list string :=
  flat_map (fun e => match e with
                     | File path _ _ => [path]
                     | Folder _ => []
                     end) entries.

(** The two files an exported item contributes. *)
Definition item_paths (item : GeneratedData) : list string :=
  [ "images/" ++ id item ++ ".jpg"; "labels/" ++ id item ++ ".txt" ].

(** ** Run-level preconditions *)

(** A run is missing its reference image, its API credential or has an
    empty set of permitted camera angles. *)
Definition precondition_violated (st : State) : Prop :=
  falsy_image (referenceImg st) = true \/
  truthy (apiKey st) = false \/
  selectedAngles st = [].

(** All three preconditions hold: both guards of [generateDataset] are
    passed. *)
Definition run_starts (st : State) : Prop :=
  falsy_image (referenceImg st) = false /\
  truthy (apiKey st) = true /\
  selectedAngles st <> [].

(** A violation is surfaced when the user is told about it. *)
Definition surfaced (log : list Effect) : Prop :=
  exists message, In (Alert message) log.

(** The claim in the specification's words: a violated precondition makes
    the run return with the state untouched and the violation surfaced. *)
Definition aborts_and_surfaces (envs : nat -> ItemEnv) (st : State) : Prop :=
  precondition_violated st ->
  exists log, generateDataset envs st = Finished st log /\ surfaced log.

(** ** Item identifiers *)

(** [`img_${Date.now()}_${i}`] *)
Definition item_id (now : N) (i : nat) : string :=
  "img_" ++ dec now ++ "_" ++ dec (N.of_nat i).

(** Strings made of digits only. *)
Fixpoint all_digits (s : string) : bool :=
  match s with
  | "" => true
  | String c rest => (is_digit c && all_digits rest)%bool
  end.

(** The longest suffix made of digits only. *)
Fixpoint digits_suffix (s : string) : string :=
  match s with
  | "" => ""
  | String c rest => if all_digits s then s else digits_suffix rest
  end.

(** The number a digit string denotes. *)
Fixpoint decimal_value (acc : N) (s : string) : N :=
  match s with
  | "" => acc
  | String c rest => decimal_value (10 * acc + (N_of_ascii c - 48)) rest
  end.

(** ** Items and runs *)

(** The outcome of the [try] block for one item: the box to attach when
    the three awaited steps succeed, the message of the first step that
    fails, or [Pending] when a step never settles. *)
Definition attempt (st : State) (env : ItemEnv) : Settled BoundingBox :=
  match fst (generateDroneView (apiKey st) (synthesis env)) with
  | Resolved rawDroneImage =>
      match resizeImage (browser env) rawDroneImage
                        (cfg_width (config st)) (cfg_height (config st)) with
      | Resolved _ =>
          match fst (detectObjectBBox (JSON_other env) (apiKey st) (detection env)) with
          | Resolved (JsonObject box2d) =>
              Resolved (convertGeminiBoxToYolo box2d (cfg_width (config st))
                                               (cfg_height (config st)))
          | Resolved JsonNull =>
              Rejected "Cannot read properties of null (reading 'ymax')"
          | Resolved JsonUnconvertible =>
              Rejected "Cannot convert object to primitive value"
          | Rejected message => Rejected message
          | Pending => Pending
          end
      | Rejected message => Rejected message
      | Pending => Pending
      end
  | Rejected message => Rejected message
  | Pending => Pending
  end.

(** An item has reached the terminal state its attempt calls for. *)
Definition item_settled (st : State) (env : ItemEnv) (item : GeneratedData) : Prop :=
  match attempt st env with
  | Resolved b => status item = completed /\ bbox item = Some b /\ error item = None
  | Rejected message => status item = failed /\ error item = Some message
  | Pending => False
  end.

(** State reached from [st0] after the items of indices below [i] have
    been processed. *)
Definition processed (st0 : State) (envs : nat -> ItemEnv) (i : nat) (st : State) : Prop :=
  apiKey st = apiKey st0 /\ config st = config st0 /\
  selectedAngles st = selectedAngles st0 /\
  List.length (generatedItems st) = i /\
  progress st = Some (i, count (config st0)) /\
  forall j, j < i ->
    exists item, nth_error (generatedItems st) j = Some item /\
                 id item = item_id (now (envs j)) j /\
                 item_settled st0 (envs j) item.

(** The application state a run, or one iteration, leaves behind. *)
Definition final_state (r : Run) : State :=
  match r with
  | Finished st _ | Stalled st _ => st
  end.

(** The claim in the specification's words: a run that starts produces
    exactly [count] items, brings every item to a terminal state, and
    counts them all, whatever the environment does. *)
Definition completes_every_item (envs : nat -> ItemEnv) (st : State) : Prop :=
  run_starts st ->
  let st' := final_state (generateDataset envs st) in
  List.length (generatedItems st') = count (config st) /\
  Forall (fun item => status item = completed \/ status item = failed)
         (generatedItems st') /\
  progress st' = Some (count (config st), count (config st)).

Definition step_state (s : Step) : State :=
  match s with
  | Continue st _ | Suspended st _ => st
  end.

(** The angle recorded for an item is one of [angles], and not the
    ["Random"] sentinel. *)
Definition angle_from (angles : list string) (m : Metadata) : Prop :=
  exists a, angle m = Some a /\ In a angles /\ a <> "Random".

(** ** Concrete scenarios *)

(** The text of a JSON object with the four fields of a detection, in the
    order the prompt names them. *)
Definition field (name value : string) : string :=
  String quote name ++ String quote ":" ++ value.

Definition box_text (ymin xmin ymax xmax : string) : string :=
  "{" ++ field "ymin" ymin ++ "," ++ field "xmin" xmin ++ "," ++
  field "ymax" ymax ++ "," ++ field "xmax" xmax ++ "}".

(** The replies of the scenarios are texts the model reads itself; the
    engine is asked about no other text, and is taken to find each one
    malformed. *)
Definition no_other_json (text : string) : Parsed := SyntaxError "Unexpected token".

(** An environment in which every call succeeds. *)
Definition calm_env : ItemEnv :=
  {| now := 1733212345678;
     random_lighting := 0.1; random_background := 0.9; random_altitude := 0.5;
     random_weather := 0.3; random_angle := 0.7;
     synthesis := Resolved [ {| part_text := None; inlineData := Some "QUJD" |} ];
     browser := {| image_load := Loaded; context2d := true;
                   toDataURL := "data:image/jpeg;base64,UkVTSVpFRA==" |};
     detection := Resolved {| text := Some (box_text "100" "200" "500" "600") |};
     JSON_other := no_other_json |}.

(** The freshly mounted component: a credential, but no reference image. *)
Definition no_reference : State := initialState "KEY".

(** The same with an uploaded image and every angle deselected. *)
Definition no_angles : State :=
  {| apiKey := "KEY"; referenceImg := Some "data:image/png;base64,AAAA";
     objectLabel := "car"; classId := 0; isProcessing := false;
     generatedItems := []; progress := None; selectedAngles := [];
     config := config (initialState "KEY") |}.

(** The scenario of the specification: five items, the synthesis of the
    item of index 2 returns no image. *)
Definition no_image_env : ItemEnv :=
  {| now := 1733212346001;
     random_lighting := 0.2; random_background := 0.4; random_altitude := 0.6;
     random_weather := 0.8; random_angle := 0.1;
     synthesis := Resolved [ {| part_text := Some "I cannot do that."; inlineData := None |} ];
     browser := browser calm_env;
     detection := detection calm_env;
     JSON_other := no_other_json |}.

(** A run of five items in which the synthesis of item 2 returns no
    image. *)
Definition five_envs (i : nat) : ItemEnv :=
  if Nat.eqb i 2 then no_image_env else calm_env.

Definition five_items : State :=
  {| apiKey := "KEY"; referenceImg := Some "data:image/png;base64,AAAA";
     objectLabel := "car"; classId := 0; isProcessing := false;
     generatedItems := []; progress := None;
     selectedAngles := ["Steep (75°)"; "Standard (45°)"];
     config := {| count := 5; cfg_width := 640; cfg_height := 640;
                  cfg_lighting := "Random"; cfg_background := "Random";
                  cfg_altitude := "Random"; cfg_angle := "Random";
                  cfg_weather := "Random" |} |}.

(** ** Data URLs *)

(** The data URL of a base64 payload of image type [t]. *)
Definition data_url (t payload : string) : string :=
  "data:image/" ++ t ++ ";base64," ++ payload.

(** [b64] starts with the data-URL header of one of the types that
    [cleanBase64] knows. *)
Definition known_header (b64 : string) : bool :=
  existsb (fun t => prefix (data_url t "") b64) image_types.

(** [sep] does not occur in [s]. *)
Fixpoint free_of (sep : ascii) (s : string) : bool :=
  match s with
  | "" => true
  | String c rest => (negb (Ascii.eqb c sep) && free_of sep rest)%bool
  end.

(** ** The scale of a detection *)

(** The divisor [convertGeminiBoxToYolo] applies to the four numbers. *)
Definition scale_of (box : Box2D) : number :=
  if (1 <? ymax box)%float then 1000%float else 1%float.

(** ** The interface *)

(** A sequence of clicks on the angle buttons. *)
Definition clicks (angles : list string) (st : State) : State :=
  fold_left (fun s a => toggleAngle a s) angles st.

(** A value [Math.random()] can return. *)
Definition unit_draw (r : number) : Prop :=
  (0 <=? r)%float = true /\ (r <? 1)%float = true.

(** ** One pass of the loop, seen from outside *)

(** The item a pass creates, before its three steps. *)
Definition newItem (st : State) (env : ItemEnv) (i : nat) : GeneratedData :=
  {| id := item_id (now env) i; imageUrl := ""; bbox := None; status := generating;
     error := None;
     metadata :=
       {| lighting := resolveAxis (cfg_lighting (config st)) LightingCondition (random_lighting env);
          background := resolveAxis (cfg_background (config st)) BackgroundType (random_background env);
          altitude := resolveAxis (cfg_altitude (config st)) ALTITUDE_OPTIONS (random_altitude env);
          angle := sample (selectedAngles st) (random_angle env);
          weather := resolveAxis (cfg_weather (config st)) WeatherCondition (random_weather env) |} |}.

(** The item as the pass leaves it: the updates of the three steps
    applied to the new item, up to the first step that fails or never
    settles. *)
Definition outcome (st : State) (env : ItemEnv) (i : nat) : GeneratedData :=
  let item := newItem st env i in
  match fst (generateDroneView (apiKey st) (synthesis env)) with
  | Pending => item
  | Rejected message => withError message item
  | Resolved rawDroneImage =>
      match resizeImage (browser env) rawDroneImage
                        (cfg_width (config st)) (cfg_height (config st)) with
      | Pending => item
      | Rejected message => withError message item
      | Resolved resizedImage =>
          let item := withImage resizedImage item in
          match fst (detectObjectBBox (JSON_other env) (apiKey st) (detection env)) with
          | Pending => item
          | Rejected message => withError message item
          | Resolved JsonNull =>
              withError "Cannot read properties of null (reading 'ymax')" item
          | Resolved JsonUnconvertible =>
              withError "Cannot convert object to primitive value" item
          | Resolved (JsonObject box2d) =>
              withBBox (convertGeminiBoxToYolo box2d (cfg_width (config st))
                                               (cfg_height (config st))) item
          end
      end
  end.

(** The label under which a service reports the error of an attempt
    before the loop does: the one of the generation service when the
    synthesis request fails or returns no image, the one of the detection
    service when the detection request fails, returns no text or a text
    that does not parse.  No service reports a missing credential, which
    is checked outside the [try] block, or the error raised when the
    loop reads the fields of the detection. *)
Definition reporting_service (st : State) (env : ItemEnv) : option string :=
  if negb (truthy (apiKey st)) then None
  else
    match synthesis env with
    | Pending => None
    | Rejected _ => Some "Generation failed:"
    | Resolved parts =>
        match first_image parts with
        | None => Some "Generation failed:"
        | Some _ =>
            match detection env with
            | Pending => None
            | Rejected _ => Some "Detection failed:"
            | Resolved response =>
                match text response with
                | Some t =>
                    if truthy t then
                      match JSON_parse (JSON_other env) t with
                      | SyntaxError _ => Some "Detection failed:"
                      | Value _ => None
                      end
                    else Some "Detection failed:"
                | None => Some "Detection failed:"
                end
            end
        end
    end.

(** What the console shows for the item of index [j] that failed with
    [message]: the line of the service, if one reports it, then the line
    of the loop. *)
Definition failure_report (service : option string) (j : nat) (message : string)
  : list Effect :=
  (match service with
   | Some label => [ConsoleError label message]
   | None => []
   end ++
   [ConsoleError ("Failed to generate item " ++ dec (N.of_nat j)) message])%list.

(** The step a pass amounts to when no earlier item bears its id: the
    outcome is appended to the collection and, unless the pass is
    suspended, the progress counter advances and a failure is logged. *)
Definition pass (i : nat) (env : ItemEnv) (st : State) (log : list Effect) : Step :=
  let st1 := setGeneratedItems (fun prev => (prev ++ [outcome st env i])%list) st in
  match attempt st env with
  | Pending => Suspended st1 log
  | Resolved _ => Continue (setProgress (Some (i + 1, count (config st))) st1) log
  | Rejected message =>
      Continue (setProgress (Some (i + 1, count (config st))) st1)
               (log ++ failure_report (reporting_service st env) i message)%list
  end.

(** The console lines of the pass of index [j], if it logs any. *)
Definition failure_log (st : State) (envs : nat -> ItemEnv) (j : nat) : list Effect :=
  match attempt st (envs j) with
  | Rejected message => failure_report (reporting_service st (envs j)) j message
  | _ => []
  end.

(** State and log of a run started from [st0] once [n] items have been
    created and [p] of them counted by the progress indicator. *)
Definition after (st0 : State) (envs : nat -> ItemEnv) (n p : nat)
    (st : State) (log : list Effect) : Prop :=
  apiKey st = apiKey st0 /\ referenceImg st = referenceImg st0 /\
  objectLabel st = objectLabel st0 /\ classId st = classId st0 /\
  selectedAngles st = selectedAngles st0 /\ config st = config st0 /\
  generatedItems st = map (fun j => outcome st0 (envs j) j) (seq 0 n) /\
  progress st = Some (p, count (config st0)) /\
  log = flat_map (failure_log st0 envs) (seq 0 p).

(** ** Runs that stall, and what any run leaves *)

(** [k] is the first index whose attempt never settles. *)
Definition first_pending (st : State) (envs : nat -> ItemEnv) (k : nat) : Prop :=
  attempt st (envs k) = Pending /\ forall j, j < k -> attempt st (envs j) <> Pending.

(** An item whose pass is suspended: created, possibly with its image
    already, with neither box nor error. *)
Definition in_flight (item : GeneratedData) : Prop :=
  (status item = generating /\ imageUrl item = "" \/ status item = detecting) /\
  bbox item = None /\ error item = None.

(** What the fields of an item hold in each status; no item is ever
    [pending]. *)
Definition item_shape (item : GeneratedData) : Prop :=
  match status item with
  | pending => False
  | generating => imageUrl item = "" /\ bbox item = None /\ error item = None
  | detecting => bbox item = None /\ error item = None
  | completed => bbox item <> None /\ error item = None
  | failed => bbox item = None /\ error item <> None
  end.

(** What a run wrote to the console or showed in an alert. *)
Definition run_log (r : Run) : list Effect :=
  match r with
  | Finished _ log | Stalled _ log => log
  end.

(** The console lines a collection calls for: the report of every item
    that carries an error, in the order of the items. *)
Definition failure_lines (st : State) (envs : nat -> ItemEnv)
    (items : list GeneratedData) : list Effect :=
  flat_map (fun '(j, item) =>
              match error item with
              | Some message => failure_report (reporting_service st (envs j)) j message
              | None => []
              end)
           (combine (seq 0 (List.length items)) items).

(** The value recorded for an axis: the configured one or, when the
    configuration says ["Random"], one of the values of the axis; never
    the sentinel itself and never [undefined]. *)
Definition resolved_axis (configured : string) (values : list string)
    (v : option string) : Prop :=
  exists s, v = Some s /\ s <> "Random" /\
            (if configured =? "Random" then In s values else s = configured).

Definition axes_resolved (cfg : GenerationConfig) (m : Metadata) : Prop :=
  resolved_axis (cfg_lighting cfg) LightingCondition (lighting m) /\
  resolved_axis (cfg_background cfg) BackgroundType (background m) /\
  resolved_axis (cfg_altitude cfg) ALTITUDE_OPTIONS (altitude m) /\
  resolved_axis (cfg_weather cfg) WeatherCondition (weather m).

(** ** The archive of a run *)

(** The paths of the files the export writes, none when it writes
    nothing. *)
Definition exported_paths (shortest_repr : number -> string) (st : State) : list string :=
  match handleDownloadZip shortest_repr st with
  | Some d => file_paths (entries d)
  | None => []
  end.

(** The text files of an archive other than the manifest, with their
    content. *)
Definition label_files (entries : list ZipEntry) : list (string * option string) :=
  flat_map (fun e => match e with
                     | File path content false =>
                         if path =? "data.yaml" then [] else [(path, content)]
                     | _ => []
                     end) entries.

Definition exported_labels (shortest_repr : number -> string) (st : State)
  : list (string * option string) :=
  match handleDownloadZip shortest_repr st with
  | Some d => label_files (entries d)
  | None => []
  end.

(** The four numbers of a detection are finite. *)
Definition finite_box (box : Box2D) : Prop :=
  finite (ymin box) = true /\ finite (xmin box) = true /\
  finite (ymax box) = true /\ finite (xmax box) = true.

(** Every detection reply whose text parses to a value with readable
    fields carries finite numbers. *)
Definition finite_detections (envs : nat -> ItemEnv) : Prop :=
  forall i response t box,
    detection (envs i) = Resolved response -> text response = Some t ->
    JSON_parse (JSON_other (envs i)) t = Value (JsonObject box) ->
    finite_box box.

(** A label line for class [c]: the class id and four fields of [0, 1]
    printed with six decimals, [xc], [yc], [w] and [h] counting
    millionths. *)
Definition yolo_line (c : N) (line : string) : Prop :=
  exists xc yc w h : N,
    (xc <= 10 ^ 6 /\ yc <= 10 ^ 6 /\ w <= 10 ^ 6 /\ h <= 10 ^ 6)%N /\
    line = dec c ++ " " ++ six_decimals xc ++ " " ++ six_decimals yc ++ " " ++
           six_decimals w ++ " " ++ six_decimals h.

(** ** Further scenarios *)

(** An environment in which the service returns an image that the
    browser fails to decode. *)
Definition undecodable_env : ItemEnv :=
  {| now := 1733212346002;
     random_lighting := 0.2; random_background := 0.4; random_altitude := 0.6;
     random_weather := 0.8; random_angle := 0.1;
     synthesis := synthesis calm_env;
     browser := {| image_load := LoadError; context2d := true; toDataURL := "" |};
     detection := detection calm_env;
     JSON_other := no_other_json |}.

(** A run in which the image of the item of index 2 cannot be decoded. *)
Definition stalling_envs (i : nat) : ItemEnv :=
  if Nat.eqb i 2 then undecodable_env else calm_env.

(** An environment in which the service never answers the synthesis
    request. *)
Definition unanswered_env : ItemEnv :=
  {| now := 1733212346003;
     random_lighting := 0.2; random_background := 0.4; random_altitude := 0.6;
     random_weather := 0.8; random_angle := 0.1;
     synthesis := Pending;
     browser := browser calm_env;
     detection := detection calm_env;
     JSON_other := no_other_json |}.

(** A run in which the synthesis of the item of index 2 is never
    answered. *)
Definition hanging_envs (i : nat) : ItemEnv :=
  if Nat.eqb i 2 then unanswered_env else calm_env.

(** An environment in which the detection reply is cut short, so that
    [JSON.parse] throws. *)
Definition truncated_env : ItemEnv :=
  {| now := 1733212346004;
     random_lighting := 0.2; random_background := 0.4; random_altitude := 0.6;
     random_weather := 0.8; random_angle := 0.1;
     synthesis := synthesis calm_env;
     browser := browser calm_env;
     detection := Resolved {| text := Some ("{" ++ field "ymin" "100" ++ ",") |};
     JSON_other := no_other_json |}.

(** A run of three items: the synthesis of the first returns no image,
    the detection of the second is cut short, the third succeeds. *)
Definition failing_envs (i : nat) : ItemEnv :=
  match i with
  | 0 => no_image_env
  | 1 => truncated_env
  | _ => calm_env
  end.

(** The item the first pass of the five-item scenario leaves. *)
Definition first_item : GeneratedData := outcome five_items calm_env 0.

(** ** JSON texts *)

(** A key that [json_key] reads as it is: no quote, no backslash, no
    control character. *)
Fixpoint plain_key (k : string) : bool :=
  match k with
  | "" => true
  | String c rest =>
      (negb (Ascii.eqb c quote) &&
       negb (Ascii.eqb c "\" || Nat.ltb (nat_of_ascii c) 32) && plain_key rest)%bool
  end.

(** A character that ends a number. *)
Definition ends_number (c : ascii) : bool :=
  (negb (is_digit c) && negb (Ascii.eqb c ".") &&
   negb (Ascii.eqb c "e") && negb (Ascii.eqb c "E"))%bool.

(** The number that the literal made of the digits of [n] denotes. *)
Definition integer_literal (n : N) : number := SF2Prim (decimal_SF false n 0).

(* ================================================================== *)
(** * Part III. Facts about binary64 arithmetic                        *)
(* ================================================================== *)

(** Consequences of the specification of the primitive operations
    ([FloatAxioms]) that the properties below rest on: which operations
    can produce NaN or overflow, exactness of a division by one, and the
    order of the comparison operators. *)

Module Binary64Facts.

Local Open Scope Z_scope.

Lemma digits2_pos_size p : digits2_pos p = Pos.size p.
Proof. induction p; simpl; congruence. Qed.

Lemma Zdigits2_log2 p : Zdigits2 (Zpos p) = Z.log2 (Zpos p) + 1.
Proof.
  unfold Zdigits2. rewrite digits2_pos_size.
  destruct p; simpl; lia.
Qed.

Lemma shr_1_m mrs : 0 <= shr_m mrs -> shr_m (shr_1 mrs) = Z.div2 (shr_m mrs).
Proof.
  destruct mrs as [m r s]; simpl. intros H.
  destruct m as [|[p|p|]|p]; try lia; reflexivity.
Qed.

Lemma iter_shr_1_m p : forall mrs, 0 <= shr_m mrs ->
  shr_m (iter_pos shr_1 p mrs) = Z.shiftr (shr_m mrs) (Zpos p).
Proof.
  induction p as [p IH|p IH|]; intros mrs H; simpl iter_pos.
  - assert (H1 : 0 <= shr_m (shr_1 mrs)) by (rewrite shr_1_m by easy; apply Z.div2_nonneg; easy).
    rewrite IH, IH, shr_1_m by (try rewrite IH by easy; try apply Z.shiftr_nonneg; easy).
    rewrite Z.div2_spec, !Z.shiftr_shiftr by lia. f_equal. lia.
  - rewrite IH, IH by (try rewrite IH by easy; try apply Z.shiftr_nonneg; easy).
    rewrite Z.shiftr_shiftr by lia. f_equal. lia.
  - rewrite shr_1_m by easy. apply Z.div2_spec.
Qed.

Lemma shr_record_of_loc_m m l : shr_m (shr_record_of_loc m l) = m.
Proof. destruct l as [|[ | | ]]; reflexivity. Qed.

Lemma shr_spec m l e n : 0 <= m ->
  shr_m (fst (shr (shr_record_of_loc m l) e n)) = Z.shiftr m (Z.max 0 n) /\
  snd (shr (shr_record_of_loc m l) e n) = e + Z.max 0 n.
Proof.
  intros Hm. destruct n as [|p|p]; simpl shr; cbn [fst snd].
  - rewrite shr_record_of_loc_m. split; [reflexivity | lia].
  - rewrite iter_shr_1_m by (rewrite shr_record_of_loc_m; easy).
    rewrite shr_record_of_loc_m. split; reflexivity.
  - rewrite shr_record_of_loc_m. split; [reflexivity | lia].
Qed.

Lemma round_nearest_even_bounds m l :
  m <= round_nearest_even m l <= m + 1.
Proof.
  destruct l as [|[ | | ]]; simpl; try lia.
  destruct (Z.even m); lia.
Qed.

Lemma binary_round_aux_spec sx mx ex lx : 0 <= mx ->
  exists m1r,
    let n1 := Z.max 0 (fexp prec emax (Zdigits2 mx + ex) - ex) in
    let n2 := Z.max 0 (fexp prec emax (Zdigits2 m1r + (ex + n1)) - (ex + n1)) in
    Z.shiftr mx n1 <= m1r <= Z.shiftr mx n1 + 1 /\
    binary_round_aux prec emax sx mx ex lx = round_result sx (Z.shiftr m1r n2) (ex + n1 + n2).
Proof.
  intros Hm. unfold binary_round_aux, shr_fexp.
  destruct (shr_spec mx lx ex (fexp prec emax (Zdigits2 mx + ex) - ex) Hm) as [A B].
  destruct (shr (shr_record_of_loc mx lx) ex _) as [mrs1 e1]; cbn [fst snd] in A, B.
  set (m1r := round_nearest_even (shr_m mrs1) (loc_of_shr_record mrs1)).
  assert (Hr := round_nearest_even_bounds (shr_m mrs1) (loc_of_shr_record mrs1)). fold m1r in Hr.
  assert (H1 : 0 <= m1r) by (rewrite A in Hr; pose proof (Z.shiftr_nonneg mx (Z.max 0 (fexp prec emax (Zdigits2 mx + ex) - ex))); lia).
  destruct (shr_spec m1r loc_Exact e1 (fexp prec emax (Zdigits2 m1r + e1) - e1) H1) as [C D].
  destruct (shr (shr_record_of_loc m1r loc_Exact) e1 _) as [mrs2 e2]; cbn [fst snd] in C, D.
  exists m1r. cbn zeta. rewrite <- A, <- B, <- C. split; [exact Hr|].
  rewrite D. reflexivity.
Qed.

Lemma Zdigits2_nonneg m : 0 <= Zdigits2 m.
Proof. destruct m; simpl; lia. Qed.

Lemma Zdigits2_upper m : 0 <= m -> m < 2 ^ Zdigits2 m.
Proof.
  intros H. destruct m as [|p|p]; try lia; [simpl; lia|].
  rewrite Zdigits2_log2. pose proof (Z.log2_spec (Zpos p) eq_refl).
  replace (Z.log2 (Z.pos p) + 1) with (Z.succ (Z.log2 (Z.pos p))) by lia. lia.
Qed.

Lemma Zdigits2_lower m : 0 < m -> 2 ^ (Zdigits2 m - 1) <= m.
Proof.
  intros H. destruct m as [|p|p]; try lia.
  rewrite Zdigits2_log2. pose proof (Z.log2_spec (Zpos p) eq_refl).
  replace (Z.log2 (Z.pos p) + 1 - 1) with (Z.log2 (Z.pos p)) by lia. lia.
Qed.

Lemma Zdigits2_le m k : 0 <= m -> 0 <= k -> m < 2 ^ k -> Zdigits2 m <= k.
Proof.
  intros Hm Hk H. destruct (Z.eq_dec m 0) as [->|Hz]; [simpl; lia|].
  pose proof (Zdigits2_lower m ltac:(lia)) as L.
  destruct (Z_le_gt_dec (Zdigits2 m) k) as [|G]; [easy|exfalso].
  assert (2 ^ k <= 2 ^ (Zdigits2 m - 1)) by (apply Z.pow_le_mono_r; lia). lia.
Qed.

Lemma Zdigits2_ge m k : 0 <= k -> 2 ^ k <= m -> k + 1 <= Zdigits2 m.
Proof.
  intros Hk H. assert (0 < 2 ^ k) by (apply Z.pow_pos_nonneg; lia).
  pose proof (Zdigits2_upper m ltac:(lia)) as U. pose proof (Zdigits2_nonneg m).
  destruct (Z_le_gt_dec (k + 1) (Zdigits2 m)) as [|G]; [easy|exfalso].
  assert (2 ^ Zdigits2 m <= 2 ^ k) by (apply Z.pow_le_mono_r; lia). lia.
Qed.

Lemma Zdigits2_shiftr m n : 0 <= m -> 0 <= n ->
  Zdigits2 (Z.shiftr m n) <= Z.max 0 (Zdigits2 m - n).
Proof.
  intros Hm Hn. rewrite Z.shiftr_div_pow2 by easy.
  pose proof (Zdigits2_upper m Hm) as U. pose proof (Zdigits2_nonneg m) as N.
  assert (P : 0 < 2 ^ n) by (apply Z.pow_pos_nonneg; lia).
  apply Zdigits2_le; [apply Z.div_pos; lia | lia |].
  apply Z.div_lt_upper_bound; [easy|].
  destruct (Z_le_gt_dec n (Zdigits2 m)).
  - rewrite Z.max_r by lia. rewrite <- Z.pow_add_r by lia.
    replace (n + (Zdigits2 m - n)) with (Zdigits2 m) by lia. easy.
  - rewrite Z.max_l by lia. rewrite Z.mul_1_r.
    assert (2 ^ Zdigits2 m <= 2 ^ n) by (apply Z.pow_le_mono_r; lia). lia.
Qed.

Lemma Zdigits2_succ_le m m' : 0 <= m -> 0 <= m' <= m + 1 -> Zdigits2 m' <= Zdigits2 m + 1.
Proof.
  intros Hm H. pose proof (Zdigits2_upper m Hm). pose proof (Zdigits2_nonneg m).
  apply Zdigits2_le; try lia.
  rewrite Z.pow_add_r by lia. lia.
Qed.

Lemma binary_round_aux_not_nan sx mx ex lx : 0 <= mx ->
  SF_is_nan (binary_round_aux prec emax sx mx ex lx) = false.
Proof.
  intros Hm. destruct (binary_round_aux_spec sx mx ex lx Hm) as (m1r & B & ->).
  cbn zeta in *.
  set (sh := Z.shiftr m1r _). assert (0 <= sh).
  { apply Z.shiftr_nonneg. pose proof (Z.shiftr_nonneg mx (Z.max 0 (fexp prec emax (Zdigits2 mx + ex) - ex))). lia. }
  unfold round_result. destruct sh; try lia; [reflexivity|]. destruct (_ <=? _); reflexivity.
Qed.

Lemma fexp_unfold e : fexp prec emax e = Z.max (e - 53) (-1074).
Proof. reflexivity. Qed.

Lemma binary_round_aux_no_overflow sx mx ex lx :
  0 <= mx -> ex <= emax - prec -> Zdigits2 mx + ex <= emax - 1 ->
  SF_is_finite (binary_round_aux prec emax sx mx ex lx) = true.
Proof.
  intros Hm He Hd. destruct (binary_round_aux_spec sx mx ex lx Hm) as (m1r & B & ->).
  cbn zeta in *. rewrite !fexp_unfold in *.
  remember (Z.max 0 (Z.max (Zdigits2 mx + ex - 53) (-1074) - ex)) as n1 eqn:En1.
  remember (Z.max 0 (Z.max (Zdigits2 m1r + (ex + n1) - 53) (-1074) - (ex + n1))) as n2 eqn:En2.
  assert (Hs : 0 <= Z.shiftr mx n1) by (apply Z.shiftr_nonneg; easy).
  pose proof (Zdigits2_shiftr mx n1 Hm ltac:(lia)) as D1.
  pose proof (Zdigits2_succ_le (Z.shiftr mx n1) m1r Hs ltac:(lia)) as D2.
  pose proof (Zdigits2_nonneg mx).
  unfold round_result. destruct (Z.shiftr m1r n2) eqn:E; try reflexivity.
  - replace (ex + n1 + n2 <=? emax - prec) with true; [reflexivity|].
    symmetry. apply Z.leb_le. unfold emax, prec in *. lia.
  - pose proof (Z.shiftr_nonneg m1r n2). lia.
Qed.

Lemma binary_round_not_nan sx mx ex :
  SF_is_nan (binary_round prec emax sx mx ex) = false.
Proof.
  unfold binary_round. destruct (shl_align _ _ _) as [mz ez].
  apply binary_round_aux_not_nan. lia.
Qed.

Lemma binary_normalize_not_nan m e sz :
  SF_is_nan (binary_normalize prec emax m e sz) = false.
Proof. destruct m; simpl; auto using binary_round_not_nan. Qed.

Lemma SFadd_not_nan x y :
  SF_is_finite x = true -> SF_is_nan y = false -> SF_is_nan (SFadd prec emax x y) = false.
Proof.
  destruct x as [sx|sx| |sx mx ex], y as [sy|sy| |sy my ey]; simpl; try discriminate; intros _ _;
    try reflexivity.
  - destruct sx, sy; reflexivity.
  - apply binary_normalize_not_nan.
Qed.

Lemma SFsub_not_nan x y :
  SF_is_finite x = true -> SF_is_finite y = true -> SF_is_nan (SFsub prec emax x y) = false.
Proof.
  destruct x as [sx|sx| |sx mx ex], y as [sy|sy| |sy my ey]; simpl; try discriminate; intros _ _;
    try reflexivity.
  - destruct sx, sy; reflexivity.
  - apply binary_normalize_not_nan.
Qed.

Lemma SFdiv_core_binary_fst mx ex my ey :
  SFdiv_core_binary prec emax (Zpos mx) ex (Zpos my) ey =
  let e' := Z.min (fexp prec emax (Zdigits2 (Zpos mx) + ex - (Zdigits2 (Zpos my) + ey))) (ex - ey) in
  let s := ex - ey - e' in
  (Zpos mx * 2 ^ s / Zpos my, e', new_location (Zpos my) (Zpos mx * 2 ^ s mod Zpos my)).
Proof.
  unfold SFdiv_core_binary. cbn zeta.
  set (e' := Z.min _ _). set (s := _ - _ - e').
  assert (Hs : 0 <= s) by (unfold s, e'; lia).
  assert (Hm : match s with Zpos _ => Z.shiftl (Zpos mx) s | Z0 => Zpos mx | Zneg _ => 0 end = Zpos mx * 2 ^ s).
  { destruct s as [|p|p]; try lia. rewrite Z.shiftl_mul_pow2 by lia. reflexivity. }
  rewrite Hm. unfold Z.div, Z.modulo.
  destruct (Z.div_eucl _ _) as [q r]. reflexivity.
Qed.

Lemma SFdiv_not_nan x sy my ey :
  SF_is_nan x = false -> SF_is_nan (SFdiv prec emax x (S754_finite sy my ey)) = false.
Proof.
  destruct x as [sx|sx| |sx mx ex]; simpl; try discriminate; intros _; try reflexivity.
  rewrite SFdiv_core_binary_fst. cbn zeta.
  apply binary_round_aux_not_nan. apply Z.div_pos; [|lia].
  apply Z.mul_nonneg_nonneg; [lia|]. apply Z.pow_nonneg. lia.
Qed.

Lemma bounded_inv m e : bounded prec emax m e = true ->
  e = fexp prec emax (Zdigits2 (Zpos m) + e) /\ e <= emax - prec.
Proof.
  unfold bounded, canonical_mantissa. intros H. apply andb_prop in H as [A B].
  apply Z.eqb_eq in A. apply Z.leb_le in B. simpl Zdigits2. split; [congruence | easy].
Qed.

(** A finite value divided by a finite value of magnitude at least 2 stays
    finite: the quotient cannot reach the overflow threshold. *)
Lemma SFdiv_finite x sy my ey :
  valid_binary x = true -> SF_is_finite x = true ->
  2 <= Zdigits2 (Zpos my) + ey ->
  SF_is_finite (SFdiv prec emax x (S754_finite sy my ey)) = true.
Proof.
  destruct x as [sx|sx| |sx mx ex]; simpl SF_is_finite; try discriminate; intros V _ Hy;
    try reflexivity.
  apply bounded_inv in V as [Hc Hb].
  unfold SFdiv. rewrite SFdiv_core_binary_fst. cbn zeta.
  set (dx := Zdigits2 (Zpos mx)) in *. set (dy := Zdigits2 (Zpos my)) in *.
  set (e' := Z.min _ _). set (s := ex - ey - e').
  rewrite fexp_unfold in Hc.
  assert (He' : e' <= ex) by (unfold e'; rewrite fexp_unfold; lia).
  assert (Hs : 0 <= s) by (unfold s, e'; lia).
  assert (P2 : 0 < 2 ^ s) by (apply Z.pow_pos_nonneg; lia).
  assert (Hq : 0 <= Zpos mx * 2 ^ s / Zpos my) by (apply Z.div_pos; lia).
  apply binary_round_aux_no_overflow; try easy; [unfold emax, prec in *; lia|].
  pose proof (Zdigits2_upper (Zpos mx) ltac:(lia)) as Ux. fold dx in Ux.
  pose proof (Zdigits2_lower (Zpos my) ltac:(lia)) as Ly. fold dy in Ly.
  pose proof (Zdigits2_nonneg (Zpos mx)). fold dx in H.
  assert (D1 : 1 <= dy) by (unfold dy; simpl; lia).
  assert (Q : Zdigits2 (Zpos mx * 2 ^ s / Zpos my) <= Z.max 0 (dx + s - dy + 1)).
  { apply Zdigits2_le; [easy | lia |].
    apply Z.div_lt_upper_bound; [lia|].
    destruct (Z_le_gt_dec 0 (dx + s - dy + 1)) as [G|G].
    - rewrite Z.max_r by lia.
      apply Z.lt_le_trans with (2 ^ dx * 2 ^ s); [apply Z.mul_lt_mono_pos_r; easy|].
      assert (2 ^ (dy - 1) * 2 ^ (dx + s - dy + 1) <= Zpos my * 2 ^ (dx + s - dy + 1)).
      { apply Z.mul_le_mono_nonneg_r; [apply Z.pow_nonneg; lia | easy]. }
      rewrite <- !Z.pow_add_r in * by lia.
      replace (dy - 1 + (dx + s - dy + 1)) with (dx + s) in * by lia. easy.
    - rewrite Z.max_l by lia. rewrite Z.mul_1_r.
      assert (2 ^ (dx + s) <= 2 ^ (dy - 1)) by (apply Z.pow_le_mono_r; lia).
      rewrite Z.pow_add_r in * by lia. nia. }
  assert (Es : s = ex - ey - e') by reflexivity.
  clearbody s e' dx dy. unfold emax, prec in *. lia.
Qed.

Lemma binary_round_aux_canonical sx mx ex :
  bounded prec emax mx ex = true ->
  binary_round_aux prec emax sx (Zpos mx) ex loc_Exact = S754_finite sx mx ex.
Proof.
  intros V. apply bounded_inv in V as [Hc Hb].
  unfold binary_round_aux, shr_fexp.
  rewrite <- Hc, Z.sub_diag.
  cbn [shr shr_record_of_loc shr_m loc_of_shr_record round_nearest_even].
  rewrite <- Hc, Z.sub_diag. cbn [shr shr_record_of_loc shr_m].
  apply Z.leb_le in Hb. rewrite Hb. reflexivity.
Qed.

Lemma binary_round_aux_canonical_double sx mx ex :
  bounded prec emax mx ex = true ->
  binary_round_aux prec emax sx (Zpos mx~0) (ex - 1) loc_Exact = S754_finite sx mx ex.
Proof.
  intros V. apply bounded_inv in V as [Hc Hb].
  unfold binary_round_aux, shr_fexp.
  replace (Zdigits2 (Zpos mx~0) + (ex - 1)) with (Zdigits2 (Zpos mx) + ex)
    by (simpl Zdigits2; lia).
  rewrite <- Hc. replace (ex - (ex - 1)) with 1 by lia.
  cbn [shr shr_record_of_loc iter_pos shr_1 shr_m orb loc_of_shr_record round_nearest_even].
  replace (ex - 1 + 1) with ex by lia.
  rewrite <- Hc, Z.sub_diag. cbn [shr shr_record_of_loc shr_m].
  apply Z.leb_le in Hb. rewrite Hb. reflexivity.
Qed.

Lemma SFdiv_one x : valid_binary x = true -> SFdiv prec emax x SF_one = x.
Proof.
  destruct x as [sx|sx| |sx mx ex]; simpl valid_binary; intros V;
    try (simpl; rewrite ?xorb_false_r; reflexivity).
  unfold SF_one, SFdiv. rewrite SFdiv_core_binary_fst. cbn zeta.
  rewrite xorb_false_r.
  pose proof (bounded_inv _ _ V) as [Hc Hb].
  set (dx := Zdigits2 (Zpos mx)) in *.
  replace (Zdigits2 4503599627370496) with 53 by reflexivity.
  rewrite !fexp_unfold in *.
  set (e' := Z.min _ _).
  assert (Hd : 1 <= dx) by (unfold dx; simpl; lia).
  assert (He : e' = ex \/ (e' = ex - 1)) by (unfold e'; lia).
  destruct He as [He|He]; rewrite He.
  - replace (ex - -52 - ex) with 52 by lia.
    rewrite Z.mod_mul, Z.div_mul by lia.
    apply binary_round_aux_canonical; assumption.
  - replace (ex - -52 - (ex - 1)) with (1 + 52) by lia.
    rewrite Z.pow_add_r, Z.mul_assoc by lia.
    rewrite Z.mod_mul, Z.div_mul by lia.
    replace (Zpos mx * 2 ^ 1) with (Zpos mx~0) by lia.
    apply binary_round_aux_canonical_double; assumption.
Qed.

Lemma Prim2SF_one : Prim2SF 1 = SF_one.
Proof. reflexivity. Qed.

Theorem div_one (x : float) : (x / 1)%float = x.
Proof.
  apply Prim2SF_inj. rewrite div_spec, Prim2SF_one.
  apply SFdiv_one, Prim2SF_valid.
Qed.

Lemma SFcompare_key x y :
  SF_is_nan x = false -> SF_is_nan y = false ->
  exists c, SFcompare x y = Some c /\
    match c with
    | Lt => key_lt (SF_key x) (SF_key y)
    | Eq => SF_key x = SF_key y
    | Gt => key_lt (SF_key y) (SF_key x)
    end.
Proof.
  destruct x as [sx|sx| |sx mx ex], y as [sy|sy| |sy my ey]; simpl SF_is_nan;
    try discriminate; intros _ _; simpl SFcompare;
    try (destruct sx; try destruct sy; eexists; split; [reflexivity|]; simpl;
         first [reflexivity | lia]).
  all: destruct sx, sy; try (eexists; split; [reflexivity|]; simpl; first [reflexivity | lia]).
  all: eexists; split; [reflexivity|];
    change (PosDef.Pos.compare_cont Eq mx my) with (Pos.compare mx my);
    destruct (Z.compare_spec ex ey), (Pos.compare_spec mx my); simpl; subst;
    first [reflexivity | lia].
Qed.

Lemma key_lt_trans k1 k2 k3 : key_lt k1 k2 -> key_lt k2 k3 -> key_lt k1 k3.
Proof. destruct k1 as [[? ?] ?], k2 as [[? ?] ?], k3 as [[? ?] ?]; simpl; lia. Qed.

Lemma key_lt_irrefl k : ~ key_lt k k.
Proof. destruct k as [[? ?] ?]; simpl; lia. Qed.

Lemma key_total k1 k2 : key_lt k1 k2 \/ k1 = k2 \/ key_lt k2 k1.
Proof.
  destruct k1 as [[a1 b1] c1], k2 as [[a2 b2] c2]; simpl.
  destruct (Z.lt_total a1 a2) as [|[|]], (Z.lt_total b1 b2) as [|[|]],
    (Z.lt_total c1 c2) as [|[|]]; subst; auto; try lia.
Qed.

Lemma SFltb_key x y :
  SFltb x y = true <->
  SF_is_nan x = false /\ SF_is_nan y = false /\ key_lt (SF_key x) (SF_key y).
Proof.
  unfold SFltb. split.
  - destruct (SF_is_nan x) eqn:Nx; [destruct x; try discriminate; simpl; discriminate|].
    destruct (SF_is_nan y) eqn:Ny; [destruct y; try discriminate; destruct x; simpl; discriminate|].
    destruct (SFcompare_key x y Nx Ny) as (c & -> & H). destruct c; try discriminate. auto.
  - intros (Nx & Ny & L). destruct (SFcompare_key x y Nx Ny) as (c & -> & H).
    destruct c; try reflexivity.
    + rewrite H in L. destruct (key_lt_irrefl _ L).
    + destruct (key_lt_irrefl _ (key_lt_trans _ _ _ L H)).
Qed.

Lemma SFleb_key x y :
  SFleb x y = true <->
  SF_is_nan x = false /\ SF_is_nan y = false /\ key_le (SF_key x) (SF_key y).
Proof.
  unfold SFleb, key_le. split.
  - destruct (SF_is_nan x) eqn:Nx; [destruct x; try discriminate; simpl; discriminate|].
    destruct (SF_is_nan y) eqn:Ny; [destruct y; try discriminate; destruct x; simpl; discriminate|].
    destruct (SFcompare_key x y Nx Ny) as (c & -> & H). destruct c; try discriminate; auto.
  - intros (Nx & Ny & L). destruct (SFcompare_key x y Nx Ny) as (c & -> & H).
    destruct c; try reflexivity. destruct L as [L|L].
    + destruct (key_lt_irrefl _ (key_lt_trans _ _ _ L H)).
    + rewrite L in H. destruct (key_lt_irrefl _ H).
Qed.

Lemma SFsub_not_nan_r x y :
  SF_is_finite x = true -> SF_is_nan y = false -> SF_is_nan (SFsub prec emax x y) = false.
Proof.
  destruct x as [sx|sx| |sx mx ex], y as [sy|sy| |sy my ey]; simpl; try discriminate; intros _ _;
    try reflexivity.
  - destruct sx, sy; reflexivity.
  - apply binary_normalize_not_nan.
Qed.

Lemma SFabs_not_nan x : SF_is_nan (SFabs x) = SF_is_nan x.
Proof. destruct x; reflexivity. Qed.

Lemma SF_finite_not_nan x : SF_is_finite x = true -> SF_is_nan x = false.
Proof. destruct x; simpl; congruence. Qed.

(** *** The same facts on primitive floats *)

Lemma SFcompare_refl x : SF_is_nan x = false -> SFcompare x x = Some Eq.
Proof.
  intros N. destruct (SFcompare_key x x N N) as (c & -> & H).
  destruct c; try reflexivity; destruct (key_lt_irrefl _ H).
Qed.

Lemma is_nan_spec x : is_nan x = SF_is_nan (Prim2SF x).
Proof.
  unfold is_nan. rewrite FloatAxioms.eqb_spec. unfold SFeqb.
  destruct (SF_is_nan (Prim2SF x)) eqn:N.
  - destruct (Prim2SF x); try discriminate. reflexivity.
  - rewrite SFcompare_refl by assumption. reflexivity.
Qed.

Lemma finite_not_nan x : finite x = true -> is_nan x = false.
Proof. rewrite is_nan_spec. apply SF_finite_not_nan. Qed.

Lemma sub_not_nan a b : finite a = true -> is_nan b = false -> is_nan (a - b)%float = false.
Proof. rewrite !is_nan_spec, sub_spec. apply SFsub_not_nan_r. Qed.

Lemma add_not_nan a b : finite a = true -> is_nan b = false -> is_nan (a + b)%float = false.
Proof. rewrite !is_nan_spec, add_spec. apply SFadd_not_nan. Qed.

Lemma abs_not_nan a : is_nan (abs a) = is_nan a.
Proof. rewrite !is_nan_spec, abs_spec. apply SFabs_not_nan. Qed.

Lemma div_not_nan a b :
  is_nan a = false -> finite b = true -> (b =? 0)%float = false ->
  is_nan (a / b)%float = false.
Proof.
  rewrite !is_nan_spec, div_spec, FloatAxioms.eqb_spec. unfold finite, SFeqb.
  change (Prim2SF 0) with (S754_zero false).
  destruct (Prim2SF b) as [sb|sb| |sb mb eb]; simpl; try discriminate.
  intros N _ _. apply SFdiv_not_nan, N.
Qed.

Lemma div_finite a b sb mb eb :
  finite a = true -> Prim2SF b = S754_finite sb mb eb ->
  2 <= Zdigits2 (Zpos mb) + eb -> finite (a / b)%float = true.
Proof.
  unfold finite. rewrite div_spec. intros F -> H.
  apply SFdiv_finite; auto using Prim2SF_valid.
Qed.

Lemma div_1000_finite a : finite a = true -> finite (a / 1000)%float = true.
Proof.
  intros F. apply (div_finite a 1000%float false 8796093022208000 (-43) F);
    [reflexivity | simpl; lia].
Qed.

Lemma div_2_not_nan a : is_nan a = false -> is_nan (a / 2)%float = false.
Proof. intros N. apply div_not_nan; [assumption | reflexivity | reflexivity]. Qed.

(** Order facts for [<?] and [<=?]. *)
Lemma ltb_leb a b : (a <? b)%float = true -> (a <=? b)%float = true.
Proof.
  rewrite FloatAxioms.ltb_spec, FloatAxioms.leb_spec. intros H. apply SFltb_key in H.
  apply SFleb_key. unfold key_le. tauto.
Qed.

Lemma ltb_false_leb a b :
  is_nan a = false -> is_nan b = false ->
  (a <? b)%float = false -> (b <=? a)%float = true.
Proof.
  rewrite !is_nan_spec, FloatAxioms.ltb_spec, FloatAxioms.leb_spec. intros Na Nb H.
  apply SFleb_key. repeat split; try assumption.
  destruct (key_total (SF_key (Prim2SF a)) (SF_key (Prim2SF b))) as [L|[E|G]].
  - assert (SFltb (Prim2SF a) (Prim2SF b) = true) by (apply SFltb_key; auto). congruence.
  - right. congruence.
  - left. assumption.
Qed.

Lemma leb_refl a : is_nan a = false -> (a <=? a)%float = true.
Proof.
  rewrite is_nan_spec, FloatAxioms.leb_spec. intros N. apply SFleb_key.
  repeat split; try assumption. right. reflexivity.
Qed.

Lemma leb_not_nan a b : (a <=? b)%float = true -> is_nan a = false /\ is_nan b = false.
Proof. rewrite !is_nan_spec, FloatAxioms.leb_spec. intros H. apply SFleb_key in H. tauto. Qed.

Lemma ltb_not_nan a b : (a <? b)%float = true -> is_nan a = false /\ is_nan b = false.
Proof. rewrite !is_nan_spec, FloatAxioms.ltb_spec. intros H. apply SFltb_key in H. tauto. Qed.

Lemma leb_ltb_false a b : (a <=? b)%float = true -> (b <? a)%float = false.
Proof.
  rewrite FloatAxioms.leb_spec. intros H. apply SFleb_key in H as (Na & Nb & L).
  destruct (b <? a)%float eqn:E; [|reflexivity].
  rewrite FloatAxioms.ltb_spec in E. apply SFltb_key in E as (_ & _ & G).
  destruct L as [L|L].
  - destruct (key_lt_irrefl _ (key_lt_trans _ _ _ L G)).
  - rewrite L in G. destruct (key_lt_irrefl _ G).
Qed.

Lemma leb_trans a b c :
  (a <=? b)%float = true -> (b <=? c)%float = true -> (a <=? c)%float = true.
Proof.
  rewrite !FloatAxioms.leb_spec. intros H1 H2.
  apply SFleb_key in H1 as (Na & Nb & L1). apply SFleb_key in H2 as (_ & Nc & L2).
  apply SFleb_key. unfold key_le in *.
  destruct L1 as [L1|L1], L2 as [L2|L2]; repeat split; auto.
  - left. eapply key_lt_trans; eassumption.
  - left. congruence.
  - left. congruence.
  - right. congruence.
Qed.

Lemma ltb_leb_trans a b c :
  (a <? b)%float = true -> (b <=? c)%float = true -> (a <? c)%float = true.
Proof.
  rewrite !FloatAxioms.ltb_spec, FloatAxioms.leb_spec. intros H1 H2.
  apply SFltb_key in H1 as (Na & Nb & L1). apply SFleb_key in H2 as (_ & Nc & L2).
  apply SFltb_key. unfold key_le in *.
  destruct L2 as [L2|L2]; repeat split; auto.
  - eapply key_lt_trans; eassumption.
  - congruence.
Qed.

(** *** Rounding of a product, and the index drawn by [sample] *)

Lemma shr_1_r mrs : 0 <= shr_m mrs -> shr_r (shr_1 mrs) = Z.odd (shr_m mrs).
Proof.
  destruct mrs as [m r s]; simpl. intros H.
  destruct m as [|[p|p|]|p]; try lia; reflexivity.
Qed.

Lemma iter_shr_1_r p : forall mrs, 0 <= shr_m mrs ->
  shr_r (iter_pos shr_1 p mrs) = Z.testbit (shr_m mrs) (Zpos p - 1).
Proof.
  induction p as [p IH|p IH|]; intros mrs H; simpl iter_pos.
  - assert (H1 : 0 <= shr_m (shr_1 mrs)) by (rewrite shr_1_m by easy; apply Z.div2_nonneg; easy).
    assert (H2 : 0 <= shr_m (iter_pos shr_1 p (shr_1 mrs)))
      by (rewrite iter_shr_1_m by easy; apply Z.shiftr_nonneg; easy).
    rewrite IH, iter_shr_1_m, shr_1_m by easy.
    rewrite Z.div2_spec, Z.shiftr_shiftr, Z.shiftr_spec by lia. f_equal. lia.
  - assert (H2 : 0 <= shr_m (iter_pos shr_1 p mrs))
      by (rewrite iter_shr_1_m by easy; apply Z.shiftr_nonneg; easy).
    rewrite IH, iter_shr_1_m by easy.
    rewrite Z.shiftr_spec by lia. f_equal. lia.
  - rewrite shr_1_r by easy. symmetry. apply Z.bit0_odd.
Qed.

Lemma round_nearest_even_r mrs :
  round_nearest_even (shr_m mrs) (loc_of_shr_record mrs) <=
  shr_m mrs + (if shr_r mrs then 1 else 0).
Proof.
  destruct mrs as [m [|] [|]]; simpl; try lia.
  destruct (Z.even m); lia.
Qed.

Lemma testbit_half m n :
  0 <= m -> 0 < n -> Z.testbit m (n - 1) = true ->
  Z.shiftr m n * 2 ^ n + 2 ^ (n - 1) <= m.
Proof.
  intros Hm Hn T.
  apply Z.testbit_true in T; [|lia].
  rewrite Z.shiftr_div_pow2 by lia.
  assert (P : 0 < 2 ^ (n - 1)) by (apply Z.pow_pos_nonneg; lia).
  assert (E : 2 ^ n = 2 ^ (n - 1) * 2).
  { replace n with (Z.succ (n - 1)) at 1 by lia. rewrite Z.pow_succ_r by lia. lia. }
  rewrite E, <- Z.div_div by lia.
  set (q := m / 2 ^ (n - 1)) in *.
  pose proof (Z.div_mod q 2 ltac:(lia)) as D. rewrite T in D.
  pose proof (Z.div_mod m (2 ^ (n - 1)) ltac:(lia)) as D2. fold q in D2.
  pose proof (Z.mod_pos_bound m (2 ^ (n - 1)) P). nia.
Qed.

(** Rounding an exact value: the rounded mantissa lies within one half of
    the exact quotient, and is not below its integer part. *)
Lemma binary_round_aux_exact_bounds sx mx ex : 0 <= mx ->
  exists m1r,
    let n1 := Z.max 0 (fexp prec emax (Zdigits2 mx + ex) - ex) in
    let n2 := Z.max 0 (fexp prec emax (Zdigits2 m1r + (ex + n1)) - (ex + n1)) in
    Z.shiftr mx n1 <= m1r <= Z.shiftr mx n1 + 1 /\
    2 * m1r * 2 ^ n1 <= 2 * mx + 2 ^ n1 /\
    binary_round_aux prec emax sx mx ex loc_Exact = round_result sx (Z.shiftr m1r n2) (ex + n1 + n2).
Proof.
  intros Hm. unfold binary_round_aux, shr_fexp.
  set (d := fexp prec emax (Zdigits2 mx + ex) - ex).
  destruct (shr_spec mx loc_Exact ex d Hm) as [A B].
  assert (R : 2 * round_nearest_even (shr_m (fst (shr (shr_record_of_loc mx loc_Exact) ex d)))
                    (loc_of_shr_record (fst (shr (shr_record_of_loc mx loc_Exact) ex d))) * 2 ^ Z.max 0 d
              <= 2 * mx + 2 ^ Z.max 0 d).
  { destruct d as [|p|p];
      [replace (Z.max 0 0) with 0 by lia
      |replace (Z.max 0 (Zpos p)) with (Zpos p) by lia
      |replace (Z.max 0 (Zneg p)) with 0 by lia];
      cbn [shr fst shr_record_of_loc loc_of_shr_record round_nearest_even shr_m].
    - lia.
    - set (mrs := iter_pos shr_1 p _).
      pose proof (round_nearest_even_r mrs) as Hr.
      assert (Em : shr_m mrs = Z.shiftr mx (Zpos p)) by (unfold mrs; rewrite iter_shr_1_m; simpl; easy).
      assert (Er : shr_r mrs = Z.testbit mx (Zpos p - 1)) by (unfold mrs; rewrite iter_shr_1_r; simpl; easy).
      assert (P : 0 < 2 ^ Zpos p) by (apply Z.pow_pos_nonneg; lia).
      assert (Lo : Z.shiftr mx (Zpos p) * 2 ^ Zpos p <= mx).
      { rewrite Z.shiftr_div_pow2 by lia. pose proof (Z.div_mod mx (2 ^ Zpos p) ltac:(lia)).
        pose proof (Z.mod_pos_bound mx (2 ^ Zpos p) P). nia. }
      rewrite Em, Er in Hr. rewrite Em.
      set (r := round_nearest_even _ _) in *. set (s := Z.shiftr mx (Zpos p)) in *.
      destruct (Z.testbit mx (Zpos p - 1)) eqn:T.
      + pose proof (testbit_half mx (Zpos p) Hm ltac:(lia) T) as Hh. fold s in Hh.
        assert (2 * 2 ^ (Zpos p - 1) = 2 ^ Zpos p)
          by (rewrite <- Z.pow_succ_r by lia; f_equal; lia).
        assert (r * 2 ^ Zpos p <= (s + 1) * 2 ^ Zpos p)
          by (apply Z.mul_le_mono_nonneg_r; lia).
        lia.
      + assert (r * 2 ^ Zpos p <= s * 2 ^ Zpos p)
          by (apply Z.mul_le_mono_nonneg_r; lia).
        lia.
    - lia. }
  destruct (shr (shr_record_of_loc mx loc_Exact) ex d) as [mrs1 e1]; cbn [fst snd] in A, B, R.
  set (m1r := round_nearest_even (shr_m mrs1) (loc_of_shr_record mrs1)) in *.
  assert (Hr := round_nearest_even_bounds (shr_m mrs1) (loc_of_shr_record mrs1)). fold m1r in Hr.
  assert (H1 : 0 <= m1r) by (rewrite A in Hr; pose proof (Z.shiftr_nonneg mx (Z.max 0 d)); lia).
  destruct (shr_spec m1r loc_Exact e1 (fexp prec emax (Zdigits2 m1r + e1) - e1) H1) as [C D].
  destruct (shr (shr_record_of_loc m1r loc_Exact) e1 _) as [mrs2 e2]; cbn [fst snd] in C, D.
  exists m1r. cbn zeta. fold d. rewrite <- B, <- C.
  split; [rewrite <- A; exact Hr|]. split; [exact R|].
  rewrite D. reflexivity.
Qed.

(** Rounding an exact product: the rounded mantissa exceeds the exact quotient by at most one half. *)
Lemma binary_round_aux_exact_spec sx mx ex : 0 <= mx ->
  exists m1r,
    let n1 := Z.max 0 (fexp prec emax (Zdigits2 mx + ex) - ex) in
    let n2 := Z.max 0 (fexp prec emax (Zdigits2 m1r + (ex + n1)) - (ex + n1)) in
    0 <= m1r /\
    2 * m1r * 2 ^ n1 <= 2 * mx + 2 ^ n1 /\
    m1r <= Z.shiftr mx n1 + 1 /\
    binary_round_aux prec emax sx mx ex loc_Exact = round_result sx (Z.shiftr m1r n2) (ex + n1 + n2).
Proof.
  intros Hm.
  destruct (binary_round_aux_exact_bounds sx mx ex Hm) as (m1r & [Lo Hi] & Htight & E).
  exists m1r. cbn zeta in *.
  pose proof (Z.shiftr_nonneg mx (Z.max 0 (fexp prec emax (Zdigits2 mx + ex) - ex))) as P.
  repeat split; try assumption. lia.
Qed.

Lemma Pos_iter_xO p k : Zpos (Pos.iter xO p k) = Zpos p * 2 ^ Zpos k.
Proof.
  induction k as [|k IH] using Pos.peano_ind.
  - cbn. lia.
  - rewrite Pos.iter_succ, Pos2Z.inj_xO, IH, Pos2Z.inj_succ, Z.pow_succ_r by lia. lia.
Qed.

(** An integer below 2^53 converts exactly: the mantissa is the integer
    shifted to 53 bits. *)
Lemma binary_normalize_integer p :
  Zpos p < 2 ^ 53 ->
  exists mn en,
    binary_normalize prec emax (Zpos p) 0 false = S754_finite false mn en /\
    -52 <= en <= 0 /\ Zpos mn = Zpos p * 2 ^ (- en) /\ 2 ^ 52 <= Zpos mn < 2 ^ 53.
Proof.
  intros Hp. cbn [binary_normalize]. unfold binary_round.
  set (d := Zdigits2 (Zpos p)).
  assert (Hd : 1 <= d <= 53).
  { split; [unfold d; simpl; lia|]. apply Zdigits2_le; lia. }
  pose proof (Zdigits2_upper (Zpos p) ltac:(lia)) as U. fold d in U.
  pose proof (Zdigits2_lower (Zpos p) ltac:(lia)) as L. fold d in L.
  change (Zpos (digits2_pos p)) with d.
  replace (fexp prec emax (d + 0)) with (d - 53) by (rewrite fexp_unfold; lia).
  assert (Hs : exists mz, shl_align p 0 (d - 53) = (mz, d - 53) /\ Zpos mz = Zpos p * 2 ^ (53 - d)).
  { unfold shl_align. destruct (d - 53 - 0) as [|k|k] eqn:K; try lia.
    - exists p. replace (d - 53) with 0 by lia. replace (53 - d) with 0 by lia.
      split; [reflexivity | lia].
    - exists (Pos.iter xO p k). split; [reflexivity|].
      rewrite Pos_iter_xO. f_equal. f_equal. lia. }
  destruct Hs as (mz & -> & Hmz).
  assert (P : 0 < 2 ^ (53 - d)) by (apply Z.pow_pos_nonneg; lia).
  assert (B : 2 ^ 52 <= Zpos mz < 2 ^ 53).
  { rewrite Hmz. split.
    - replace 52 with ((d - 1) + (53 - d)) by lia. rewrite Z.pow_add_r by lia.
      apply Z.mul_le_mono_nonneg_r; lia.
    - replace 53 with (d + (53 - d)) at 2 by lia. rewrite Z.pow_add_r by lia.
      apply Z.mul_lt_mono_pos_r; lia. }
  exists mz, (d - 53). split; [|repeat split; try lia].
  - apply binary_round_aux_canonical. unfold bounded, canonical_mantissa.
    apply andb_true_intro. split.
    + apply Z.eqb_eq. rewrite fexp_unfold.
      assert (Zdigits2 (Zpos mz) = 53).
      { apply Z.le_antisymm; [apply Zdigits2_le; lia|].
        apply (Zdigits2_ge (Zpos mz) 52); lia. }
      change (Zpos (digits2_pos mz)) with (Zdigits2 (Zpos mz)). lia.
    + apply Z.leb_le. unfold emax, prec. lia.
  - rewrite Hmz. f_equal. f_equal. lia.
Qed.

Lemma unit_mantissa mr er :
  bounded prec emax mr er = true ->
  er < -52 \/ (er = -52 /\ Zpos mr < 4503599627370496) ->
  -1074 <= er <= -53 /\ Zpos mr + 1 <= 2 ^ (- er) /\ Zpos mr < 2 ^ 53.
Proof.
  intros V K. apply bounded_inv in V as [Hc _]. rewrite fexp_unfold in Hc.
  pose proof (Zdigits2_upper (Zpos mr) ltac:(lia)) as U.
  pose proof (Zdigits2_lower (Zpos mr) ltac:(lia)) as L.
  set (dr := Zdigits2 (Zpos mr)) in *.
  assert (Hdr : 1 <= dr) by (unfold dr; simpl; lia).
  clearbody dr.
  assert (Her : -1074 <= er <= -53).
  { split; [lia|].
    destruct K as [K|[-> K]]; [lia|exfalso].
    assert (dr = 53) by lia. subst dr.
    change (2 ^ (53 - 1)) with 4503599627370496 in L. lia. }
  assert (D53 : dr <= 53) by lia.
  assert (H1 : 2 ^ dr <= 2 ^ 53) by (apply Z.pow_le_mono_r; lia).
  assert (H2 : 2 ^ 53 <= 2 ^ (- er)) by (apply Z.pow_le_mono_r; lia).
  clear Hc L K. repeat split; lia.
Qed.

Lemma product_shift mr mn e n1 :
  Zpos mr < 2 ^ 53 -> 2 ^ 52 <= Zpos mn < 2 ^ 53 -> -1126 <= e ->
  n1 = Z.max 0 (Z.max (Zdigits2 (Zpos (mr * mn)) + e - 53) (-1074) - e) ->
  0 <= n1 /\ 2 ^ n1 < 2 * Zpos mn.
Proof.
  intros Hmr Bmn He En1.
  set (dP := Zdigits2 (Zpos (mr * mn))) in *.
  assert (HdP : dP <= 106).
  { apply Zdigits2_le; try lia. rewrite Pos2Z.inj_mul.
    change (2 ^ 106) with (2 ^ 53 * 2 ^ 53).
    apply Z.mul_lt_mono_nonneg; lia. }
  split; [lia|].
  destruct (Z_le_gt_dec n1 52) as [Le|G].
  - assert (0 <= n1) by lia.
    assert (2 ^ n1 <= 2 ^ 52) by (apply Z.pow_le_mono_r; lia).
    clear En1. lia.
  - assert (N53 : n1 = 53) by lia. assert (D106 : dP = 106) by lia.
    pose proof (Zdigits2_lower (Zpos (mr * mn)) ltac:(lia)) as LP. fold dP in LP.
    rewrite D106 in LP. rewrite Pos2Z.inj_mul in LP.
    change (2 ^ (106 - 1)) with (2 ^ 53 * 2 ^ 52) in LP.
    clear En1 HdP D106 He G. subst n1.
    assert (2 ^ 52 < Zpos mn).
    { destruct (Z_le_gt_dec (Zpos mn) (2 ^ 52)) as [Le|G]; [exfalso|lia].
      assert (Zpos mr * Zpos mn <= Zpos mr * 2 ^ 52) by (apply Z.mul_le_mono_nonneg_l; lia).
      assert (Zpos mr * 2 ^ 52 < 2 ^ 53 * 2 ^ 52) by (apply Z.mul_lt_mono_pos_r; lia).
      lia. }
    change (2 ^ 53) with (2 * 2 ^ 52). lia.
Qed.

Lemma tight_below m1r n1 mr mn T :
  0 <= n1 ->
  2 * m1r * 2 ^ n1 <= 2 * (Zpos mr * Zpos mn) + 2 ^ n1 ->
  2 ^ n1 < 2 * Zpos mn -> Zpos mr + 1 <= T ->
  m1r * 2 ^ n1 < Zpos mn * T.
Proof.
  intros Hn Htight Hp HT.
  assert (Zpos mn * (Zpos mr + 1) <= Zpos mn * T) by (apply Z.mul_le_mono_nonneg_l; lia).
  set (a := m1r * 2 ^ n1) in *. set (b := Zpos mn * T) in *.
  replace (2 * m1r * 2 ^ n1) with (2 * a) in Htight by (unfold a; ring).
  replace (Zpos mn * (Zpos mr + 1)) with (Zpos mr * Zpos mn + Zpos mn) in H by ring.
  clearbody a b. set (c := Zpos mr * Zpos mn) in *. clearbody c. lia.
Qed.

Lemma floor_below_nonneg v k e len :
  0 <= v -> e < 0 -> 0 <= e + k -> v * 2 ^ k < len * 2 ^ (- e) -> v * 2 ^ (e + k) < len.
Proof.
  intros Hv He HE H.
  replace k with ((e + k) + - e) in H at 1 by lia.
  rewrite Z.pow_add_r, Z.mul_assoc in H by lia.
  apply Z.mul_lt_mono_pos_r in H; [assumption | apply Z.pow_pos_nonneg; lia].
Qed.

Lemma floor_below_neg v k e len :
  0 <= v -> 0 <= k -> e + k < 0 -> v * 2 ^ k < len * 2 ^ (- e) ->
  v / 2 ^ (- (e + k)) < len.
Proof.
  intros Hv Hk HE H.
  assert (P : 0 < 2 ^ (- (e + k))) by (apply Z.pow_pos_nonneg; lia).
  apply Z.div_lt_upper_bound; [assumption|].
  replace (- e) with (- (e + k) + k) in H by lia.
  rewrite Z.pow_add_r, Z.mul_assoc in H by lia.
  apply Z.mul_lt_mono_pos_r in H; [|apply Z.pow_pos_nonneg; lia].
  rewrite Z.mul_comm. assumption.
Qed.

(** The floor of a rounded value that stays below [len]. *)
Lemma round_result_floor m1r n1 n2 e len :
  0 <= m1r -> 0 <= n1 -> 0 <= n2 -> e < 0 -> 0 < len < 2 ^ 53 ->
  m1r * 2 ^ n1 < len * 2 ^ (- e) ->
  exists q, floor_SF (round_result false (Z.shiftr m1r n2) (e + n1 + n2)) = Some q /\
            0 <= q < len.
Proof.
  intros Hm Hn1 Hn2 He Hlen Hstar.
  set (mres := Z.shiftr m1r n2).
  assert (Pn2 : 0 < 2 ^ n2) by (apply Z.pow_pos_nonneg; lia).
  assert (Pn1 : 0 < 2 ^ n1) by (apply Z.pow_pos_nonneg; lia).
  assert (Hres : mres * 2 ^ n2 <= m1r).
  { unfold mres. rewrite Z.shiftr_div_pow2 by lia.
    rewrite Z.mul_comm. apply Z.mul_div_le. assumption. }
  assert (Hres0 : 0 <= mres) by (apply Z.shiftr_nonneg; lia).
  assert (Hall : mres * 2 ^ (n1 + n2) < len * 2 ^ (- e)).
  { rewrite Z.pow_add_r by lia.
    assert (mres * 2 ^ n2 * 2 ^ n1 <= m1r * 2 ^ n1)
      by (apply Z.mul_le_mono_nonneg_r; lia).
    replace (mres * (2 ^ n1 * 2 ^ n2)) with (mres * 2 ^ n2 * 2 ^ n1) by ring.
    eapply Z.le_lt_trans; eassumption. }
  clearbody mres. clear Hres Hstar Hm m1r.
  unfold round_result. destruct mres as [|pr|pr]; try lia.
  - exists 0. cbn. split; [reflexivity | lia].
  - replace (e + n1 + n2) with (e + (n1 + n2)) by lia.
    set (k := n1 + n2) in *. assert (Hk : 0 <= k) by lia. clearbody k.
    clear Hn1 Hn2 Pn1 Pn2 n1 n2.
    destruct (Z_le_gt_dec 0 (e + k)) as [HE|HE].
    + pose proof (floor_below_nonneg (Zpos pr) k e len ltac:(lia) He HE Hall) as Hv.
      assert (HE53 : e + k <= 971).
      { destruct (Z_le_gt_dec (e + k) 971) as [|G]; [assumption|exfalso].
        assert (2 ^ 53 <= 2 ^ (e + k)) by (apply Z.pow_le_mono_r; lia).
        assert (1 * 2 ^ (e + k) <= Zpos pr * 2 ^ (e + k))
          by (apply Z.mul_le_mono_nonneg_r; lia).
        lia. }
      apply Z.leb_le in HE53. change (emax - prec) with 971. rewrite HE53.
      exists (Zpos pr * 2 ^ (e + k)). cbn [floor_SF].
      assert (P : 0 < 2 ^ (e + k)) by (apply Z.pow_pos_nonneg; lia).
      apply Z.leb_le in HE. rewrite HE. split; [reflexivity|].
      split; [apply Z.mul_nonneg_nonneg; lia | assumption].
    + assert (HE53 : (e + k <=? 971) = true) by (apply Z.leb_le; lia).
      change (emax - prec) with 971. rewrite HE53.
      exists (Zpos pr / 2 ^ (- (e + k))). cbn [floor_SF].
      assert (HEn : (0 <=? e + k) = false) by (apply Z.leb_gt; lia). rewrite HEn.
      assert (PE : 0 < 2 ^ (- (e + k))) by (apply Z.pow_pos_nonneg; lia).
      split; [reflexivity|]. split; [apply Z.div_pos; lia|].
      apply (floor_below_neg (Zpos pr) k e len); try assumption; lia.
Qed.

(** Multiplying a number of [0, 1) by an integer [len] below 2^53 and
    rounding gives a value whose floor is an index below [len]. *)
Lemma SFmul_floor_below x mn en len :
  valid_binary x = true ->
  SFleb (S754_zero false) x = true -> SFltb x SF_one = true ->
  -52 <= en <= 0 -> Zpos mn = len * 2 ^ (- en) -> 2 ^ 52 <= Zpos mn < 2 ^ 53 ->
  exists q, floor_SF (SFmul prec emax x (S754_finite false mn en)) = Some q /\ 0 <= q < len.
Proof.
  intros V H0 H1 Hen Hmn Bmn.
  assert (Pen : 0 < 2 ^ (- en)) by (apply Z.pow_pos_nonneg; lia).
  assert (Plen : 0 < len < 2 ^ 53).
  { split.
    - destruct (Z_le_gt_dec len 0) as [Le|]; [exfalso|lia].
      assert (len * 2 ^ (- en) <= 0 * 2 ^ (- en)) by (apply Z.mul_le_mono_nonneg_r; lia).
      lia.
    - assert (len * 1 <= len * 2 ^ (- en)); [|lia].
      destruct (Z_le_gt_dec 0 len); [apply Z.mul_le_mono_nonneg_l; lia|].
      assert (len * 2 ^ (- en) <= 0) by (apply Z.mul_nonpos_nonneg; lia). lia. }
  apply SFleb_key in H0 as (_ & _ & K0). apply SFltb_key in H1 as (Nx & _ & K1).
  unfold key_le, key_lt, SF_one in K0, K1.
  destruct x as [s|s| |s mr er]; cbn [SF_key] in K0, K1.
  - exists 0. cbn. split; [reflexivity | lia].
  - exfalso. destruct s; [destruct K0 as [K0|K0]; [lia | discriminate] | lia].
  - discriminate.
  - destruct s; [exfalso; destruct K0 as [K0|K0]; [lia | discriminate]|].
    cbn [valid_binary] in V.
    destruct (unit_mantissa mr er V ltac:(lia)) as (Her & Hmr & Hmr53).
    clear K0 K1 Nx V.
    cbn [SFmul xorb].
    destruct (binary_round_aux_exact_spec false (Zpos (mr * mn)) (er + en) ltac:(lia))
      as (m1r & Hm1 & Htight & _ & ->).
    cbn zeta in *. rewrite !fexp_unfold in *.
    set (e := er + en) in *.
    remember (Z.max 0 (Z.max (Zdigits2 (Zpos (mr * mn)) + e - 53) (-1074) - e)) as n1 eqn:En1.
    remember (Z.max 0 (Z.max (Zdigits2 m1r + (e + n1) - 53) (-1074) - (e + n1))) as n2 eqn:En2.
    assert (Hn2 : 0 <= n2) by (rewrite En2; apply Z.le_max_l).
    clear En2.
    destruct (product_shift mr mn e n1 Hmr53 Bmn ltac:(unfold e; lia) En1) as [Hn1 Hp2].
    clear En1.
    rewrite Pos2Z.inj_mul in Htight.
    pose proof (tight_below m1r n1 mr mn (2 ^ (- er)) Hn1 Htight Hp2 Hmr) as Hstar.
    assert (E1 : Zpos mn * 2 ^ (- er) = len * 2 ^ (- e)).
    { rewrite Hmn, <- Z.mul_assoc, <- Z.pow_add_r by lia. do 2 f_equal. unfold e. lia. }
    rewrite E1 in Hstar.
    apply round_result_floor; try assumption. unfold e. lia.
Qed.

Lemma length_number_spec {A} (arr : list A) :
  arr <> [] -> Z.of_nat (List.length arr) < 2 ^ 53 ->
  exists mn en,
    Prim2SF (length_number arr) = S754_finite false mn en /\
    -52 <= en <= 0 /\ Zpos mn = Z.of_nat (List.length arr) * 2 ^ (- en) /\
    2 ^ 52 <= Zpos mn < 2 ^ 53.
Proof.
  intros Hne Hlt. unfold length_number.
  rewrite of_uint63_spec, Uint63.of_Z_spec.
  assert (Hpos : 0 < Z.of_nat (List.length arr)) by (destruct arr; [contradiction | cbn; lia]).
  rewrite Z.mod_small.
  2:{ split; [lia|]. eapply Z.lt_trans; [exact Hlt | reflexivity]. }
  destruct (Z.of_nat (List.length arr)) as [|p|p]; try lia.
  apply binary_normalize_integer, Hlt.
Qed.

(** [Math.floor(random * arr.length)] is an index of [arr] whenever
    [0 <= random < 1]. *)
Lemma floor_random_index {A} (arr : list A) (random : float) :
  arr <> [] -> Z.of_nat (List.length arr) < 2 ^ 53 ->
  (0 <=? random)%float = true -> (random <? 1)%float = true ->
  exists q, Math_floor (random * length_number arr)%float = Some q /\
            0 <= q < Z.of_nat (List.length arr).
Proof.
  intros Hne Hlt H0 H1. unfold Math_floor.
  destruct (length_number_spec arr Hne Hlt) as (mn & en & E & Hen & Hmn & Bmn).
  rewrite mul_spec, E. rewrite FloatAxioms.leb_spec in H0. rewrite FloatAxioms.ltb_spec in H1.
  apply SFmul_floor_below; auto using Prim2SF_valid.
Qed.

(** Rounding an integer below 2^53 given with [k] trailing zero bits:
    the result is the integer itself, its mantissa shifted to 53 bits. *)
Lemma binary_round_integer (q p : positive) (k : Z) :
  Zpos p < 2 ^ 53 -> 0 <= k -> Zpos q = Zpos p * 2 ^ k ->
  exists mn en,
    binary_round prec emax false q (- k) = S754_finite false mn en /\
    -52 <= en <= 0 /\ Zpos mn = Zpos p * 2 ^ (- en) /\ 2 ^ 52 <= Zpos mn < 2 ^ 53.
Proof.
  intros Hp Hk Hq. unfold binary_round.
  set (d := Zdigits2 (Zpos p)).
  assert (Hd : 1 <= d <= 53).
  { split; [unfold d; simpl; lia|]. apply Zdigits2_le; lia. }
  pose proof (Zdigits2_upper (Zpos p) ltac:(lia)) as U. fold d in U.
  pose proof (Zdigits2_lower (Zpos p) ltac:(lia)) as L. fold d in L.
  assert (Pk : 0 < 2 ^ k) by (apply Z.pow_pos_nonneg; lia).
  assert (Dq : Zdigits2 (Zpos q) = d + k).
  { apply Z.le_antisymm.
    - apply Zdigits2_le; try lia. rewrite Hq, Z.pow_add_r by lia.
      apply Z.mul_lt_mono_pos_r; lia.
    - assert (d - 1 + k + 1 <= Zdigits2 (Zpos q)); [|lia].
      apply Zdigits2_ge; [lia|]. rewrite Hq, Z.pow_add_r by lia.
      apply Z.mul_le_mono_nonneg_r; lia. }
  change (Zpos (digits2_pos q)) with (Zdigits2 (Zpos q)). rewrite Dq.
  replace (fexp prec emax (d + k + - k)) with (d - 53) by (rewrite fexp_unfold; lia).
  assert (P : 0 < 2 ^ (53 - d)) by (apply Z.pow_pos_nonneg; lia).
  set (S := Zpos p * 2 ^ (53 - d)).
  assert (B : 2 ^ 52 <= S < 2 ^ 53).
  { unfold S. split.
    - replace 52 with ((d - 1) + (53 - d)) by lia. rewrite Z.pow_add_r by lia.
      apply Z.mul_le_mono_nonneg_r; lia.
    - replace 53 with (d + (53 - d)) at 2 by lia. rewrite Z.pow_add_r by lia.
      apply Z.mul_lt_mono_pos_r; lia. }
  assert (DS : forall mz, Zpos mz = S -> Zdigits2 (Zpos mz) = 53).
  { intros mz E. apply Z.le_antisymm; [apply Zdigits2_le; lia|].
    apply (Zdigits2_ge (Zpos mz) 52); lia. }
  assert (Can : forall mz, Zpos mz = S -> bounded prec emax mz (d - 53) = true).
  { intros mz E. unfold bounded, canonical_mantissa. apply andb_true_intro. split.
    - apply Z.eqb_eq. rewrite fexp_unfold.
      change (Zpos (digits2_pos mz)) with (Zdigits2 (Zpos mz)). rewrite (DS mz E). lia.
    - apply Z.leb_le. unfold emax, prec. lia. }
  destruct (Z_lt_le_dec k (53 - d)) as [Small|Large].
  - (* the mantissa is shifted left *)
    unfold shl_align. destruct (d - 53 - - k) as [|j|j] eqn:K; try lia.
    assert (E : Zpos (shift_pos j q) = S).
    { unfold shift_pos. rewrite Pos_iter_xO, Hq. unfold S.
      rewrite <- Z.mul_assoc, <- Z.pow_add_r by lia. do 2 f_equal. lia. }
    exists (shift_pos j q), (d - 53). split; [|split; [lia|split]].
    + apply binary_round_aux_canonical, Can, E.
    + rewrite E. unfold S. do 2 f_equal. lia.
    + rewrite E. exact B.
  - (* the mantissa has trailing zeros, which rounding shifts out *)
    assert (Sh : shl_align q (- k) (d - 53) = (q, - k)).
    { unfold shl_align. destruct (d - 53 - - k) as [|j|j] eqn:K; try reflexivity. lia. }
    rewrite Sh.
    destruct (binary_round_aux_exact_bounds false (Zpos q) (- k) ltac:(lia))
      as (m1r & [Lo _] & Hi & ->).
    cbn zeta in *. rewrite Dq in *.
    replace (fexp prec emax (d + k + - k)) with (d - 53) in * by (rewrite fexp_unfold; lia).
    set (n1 := Z.max 0 (d - 53 - - k)) in *.
    assert (En1 : n1 = k - (53 - d)) by lia. clearbody n1. subst n1.
    assert (Pn : 0 < 2 ^ (k - (53 - d))) by (apply Z.pow_pos_nonneg; lia).
    assert (Eq : Zpos q = S * 2 ^ (k - (53 - d))).
    { rewrite Hq. unfold S. rewrite <- Z.mul_assoc, <- Z.pow_add_r by lia.
      do 2 f_equal. lia. }
    assert (Es : Z.shiftr (Zpos q) (k - (53 - d)) = S).
    { rewrite Z.shiftr_div_pow2 by lia. rewrite Eq. apply Z.div_mul. lia. }
    rewrite Es in Lo. rewrite Eq in Hi.
    assert (Em : m1r = S).
    { apply Z.le_antisymm; [|exact Lo].
      destruct (Z_le_gt_dec m1r S) as [|G]; [assumption|exfalso].
      assert ((S + 1) * 2 ^ (k - (53 - d)) <= m1r * 2 ^ (k - (53 - d)))
        by (apply Z.mul_le_mono_nonneg_r; lia).
      lia. }
    subst m1r.
    destruct S as [|mz|mz] eqn:ES; try lia.
    rewrite (DS mz eq_refl).
    replace (- k + (k - (53 - d))) with (d - 53) by lia.
    replace (Z.max 0 (fexp prec emax (53 + (d - 53)) - (d - 53))) with 0
      by (rewrite fexp_unfold; lia).
    rewrite Z.shiftr_0_r, Z.add_0_r. unfold round_result.
    assert (Le : (d - 53 <=? emax - prec) = true) by (apply Z.leb_le; unfold emax, prec; lia).
    rewrite Le. exists mz, (d - 53). split; [reflexivity|]. split; [lia|]. split; [|exact B].
    unfold S in ES. rewrite <- ES. do 2 f_equal. lia.
Qed.

(** The integer a canonical number denotes, in terms of its fields. *)
Lemma integer_nonneg_fields x c :
  integer_of x = Some c -> 0 < c < 2 ^ 53 ->
  exists m e, Prim2SF x = S754_finite false m e /\ -52 <= e <= 0 /\
              Zpos m = c * 2 ^ (- e).
Proof.
  unfold integer_of. intros H Hc. pose proof (Prim2SF_valid x) as V.
  destruct (Prim2SF x) as [s|s| |s m e]; try discriminate.
  - injection H as <-. lia.
  - cbn [valid_binary] in V. apply bounded_inv in V as [Hcan Hb]. rewrite fexp_unfold in Hcan.
    pose proof (Zdigits2_upper (Zpos m) ltac:(lia)) as U.
    pose proof (Zdigits2_lower (Zpos m) ltac:(lia)) as L.
    set (dm := Zdigits2 (Zpos m)) in *.
    assert (Hdm : 1 <= dm) by (unfold dm; simpl; lia). clearbody dm.
    unfold integer_value in H. destruct (Z.leb_spec 0 e) as [He|He].
    + assert (Hn : (if s then - (Zpos m * 2 ^ e) else Zpos m * 2 ^ e) = c) by congruence.
      assert (Pe : 0 < 2 ^ e) by (apply Z.pow_pos_nonneg; lia).
      assert (0 < Zpos m * 2 ^ e) by (apply Z.mul_pos_pos; lia).
      destruct s; [lia|].
      assert (e = 0).
      { destruct (Z.eq_dec e 0) as [|Ne]; [assumption|exfalso].
        assert (dm = 53) by lia. subst dm.
        assert (2 ^ 1 <= 2 ^ e) by (apply Z.pow_le_mono_r; lia).
        assert (2 ^ 52 * 2 ^ 1 <= Zpos m * 2 ^ e) by (apply Z.mul_le_mono_nonneg; lia).
        change (2 ^ 53) with (2 ^ 52 * 2 ^ 1) in Hc. lia. }
      subst e. exists m, 0. split; [reflexivity|]. split; [lia|]. cbn in *. lia.
    + destruct (Z.eqb_spec (Zpos m mod 2 ^ (- e)) 0) as [Z0|]; [|discriminate].
      assert (Hn : (if s then - (Zpos m / 2 ^ (- e)) else Zpos m / 2 ^ (- e)) = c) by congruence.
      assert (Pe : 0 < 2 ^ (- e)) by (apply Z.pow_pos_nonneg; lia).
      assert (0 <= Zpos m / 2 ^ (- e)) by (apply Z.div_pos; lia).
      destruct s; [lia|].
      pose proof (Z.div_mod (Zpos m) (2 ^ (- e)) ltac:(lia)) as D. rewrite Z0, Hn in D.
      exists m, e. split; [reflexivity|].
      assert (Em : Zpos m = c * 2 ^ (- e)) by lia.
      split; [|exact Em].
      split; [|lia].
      destruct (Z_le_gt_dec (-52) e) as [|G]; [assumption|exfalso].
      assert (dm <= 53) by lia.
      assert (2 ^ dm <= 2 ^ 53) by (apply Z.pow_le_mono_r; lia).
      assert (2 ^ 53 <= 2 ^ (- e)) by (apply Z.pow_le_mono_r; lia).
      assert (1 * 2 ^ (- e) <= c * 2 ^ (- e)) by (apply Z.mul_le_mono_nonneg_r; lia).
      lia.
Qed.

Lemma integer_of_fields mn en p :
  -52 <= en <= 0 -> Zpos mn = Zpos p * 2 ^ (- en) ->
  match integer_value mn en with Some n => Some n | None => None end = Some (Zpos p).
Proof.
  intros He Hm. unfold integer_value.
  assert (Pe : 0 < 2 ^ (- en)) by (apply Z.pow_pos_nonneg; lia).
  destruct (Z.leb_spec 0 en) as [H0|H0].
  - assert (en = 0) by lia. subst en. cbn in *. f_equal. lia.
  - rewrite Hm, Z.mod_mul, Z.eqb_refl, Z.div_mul by lia. reflexivity.
Qed.

(** Adding one to a non-negative integer below 2^53 - 1 is exact. *)
Lemma add_one_integer (x : float) (c : Z) :
  integer_of x = Some c -> 0 <= c -> c + 1 < 2 ^ 53 ->
  integer_of (x + 1)%float = Some (c + 1).
Proof.
  intros H H0 H1. unfold integer_of at 1. rewrite add_spec.
  change (Prim2SF 1) with SF_one.
  destruct (Z.eq_dec c 0) as [->|Hne].
  - unfold integer_of in H. destruct (Prim2SF x) as [s|s| |s m e] eqn:E; try discriminate.
    + destruct s; reflexivity.
    + exfalso. destruct (integer_value m e) as [n|] eqn:I; [|discriminate].
      assert (n = 0) by (destruct s; injection H as H; lia). subst n.
      unfold integer_value in I. destruct (Z.leb_spec 0 e).
      * assert (0 < 2 ^ e) by (apply Z.pow_pos_nonneg; lia).
        assert (0 < Zpos m * 2 ^ e) by (apply Z.mul_pos_pos; lia).
        assert (Zpos m * 2 ^ e = 0) by congruence. lia.
      * destruct (Z.eqb_spec (Zpos m mod 2 ^ (- e)) 0) as [Z0|]; [|discriminate].
        assert (Pe : 0 < 2 ^ (- e)) by (apply Z.pow_pos_nonneg; lia).
        pose proof (Z.div_mod (Zpos m) (2 ^ (- e)) ltac:(lia)) as D.
        assert (I' : Zpos m / 2 ^ (- e) = 0) by congruence. rewrite Z0, I' in D. lia.
  - destruct (integer_nonneg_fields x c H ltac:(lia)) as (m & e & -> & He & Hm).
    unfold SF_one, SF64add. cbn [SFadd cond_Zopp].
    replace (Z.min e (-52)) with (-52) by lia.
    assert (Pe : 0 < 2 ^ (- e)) by (apply Z.pow_pos_nonneg; lia).
    assert (A1 : Zpos (fst (shl_align m e (-52))) = c * 2 ^ 52).
    { unfold shl_align. destruct (-52 - e) as [|j|j] eqn:K; cbn [fst]; try lia.
      - assert (e = -52) by lia. subst e. exact Hm.
      - unfold shift_pos. rewrite Pos_iter_xO, Hm, <- Z.mul_assoc, <- Z.pow_add_r by lia.
        do 2 f_equal. lia. }
    assert (A2 : Zpos (fst (shl_align 4503599627370496 (-52) (-52))) = 2 ^ 52) by reflexivity.
    rewrite A1, A2.
    destruct (c + 1) as [|p|p] eqn:Ep; try lia.
    replace (c * 2 ^ 52 + 2 ^ 52) with (Zpos p * 2 ^ 52) by lia.
    destruct (Zpos p * 2 ^ 52) as [|q|q] eqn:Eq; try lia.
    cbn [binary_normalize].
    destruct (binary_round_integer q p 52 ltac:(lia) ltac:(lia) (eq_sym Eq))
      as (mn & en & R & Hen & Hmn & _).
    cbn [Z.opp] in R. rewrite R.
    pose proof (integer_of_fields mn en p Hen Hmn) as I.
    destruct (integer_value mn en) as [n|]; [|discriminate]. exact I.
Qed.

(** A finite number other than zero divided by itself gives one. *)
Lemma SFdiv_self sx mx ex :
  SFdiv prec emax (S754_finite sx mx ex) (S754_finite sx mx ex) = SF_one.
Proof.
  unfold SFdiv. rewrite SFdiv_core_binary_fst. cbn zeta. rewrite xorb_nilpotent.
  replace (Zdigits2 (Zpos mx) + ex - (Zdigits2 (Zpos mx) + ex)) with 0 by lia.
  rewrite Z.sub_diag, fexp_unfold.
  change (Z.min (Z.max (0 - 53) (-1074)) 0) with (-53).
  change (0 - -53) with 53.
  rewrite (Z.mul_comm (Zpos mx)), Z.div_mul, Z.mod_mul by lia.
  assert (L : new_location (Zpos mx) 0 = loc_Exact).
  { unfold new_location. destruct (Z.even _); reflexivity. }
  rewrite L. reflexivity.
Qed.

Lemma div_self (x : float) :
  finite x = true -> (x =? 0)%float = false -> (x / x)%float = 1%float.
Proof.
  unfold finite. rewrite FloatAxioms.eqb_spec. intros F Z.
  apply Prim2SF_inj. rewrite div_spec, Prim2SF_one.
  change (Prim2SF 0) with (S754_zero false) in Z.
  destruct (Prim2SF x) as [s|s| |s m e]; try discriminate.
  apply SFdiv_self.
Qed.

(** *** The sign of a difference *)

Lemma shl_align_spec m e ez :
  ez <= e -> Zpos (fst (shl_align m e ez)) = Zpos m * 2 ^ (e - ez).
Proof.
  intros H. unfold shl_align. destruct (ez - e) as [|d|d] eqn:D; cbn [fst]; try lia.
  - replace (e - ez) with 0 by lia. lia.
  - unfold shift_pos. rewrite Pos_iter_xO. do 2 f_equal. lia.
Qed.

(** Among canonical numbers a smaller exponent means a smaller magnitude. *)
Lemma canonical_lt mb eb ma ea :
  bounded prec emax mb eb = true -> bounded prec emax ma ea = true ->
  eb < ea -> Zpos mb < Zpos ma * 2 ^ (ea - eb).
Proof.
  intros Vb Va H.
  apply bounded_inv in Vb as [Cb _]. apply bounded_inv in Va as [Ca _].
  rewrite fexp_unfold in Cb, Ca.
  pose proof (Zdigits2_upper (Zpos mb) ltac:(lia)) as Ub.
  pose proof (Zdigits2_lower (Zpos ma) ltac:(lia)) as La.
  set (db := Zdigits2 (Zpos mb)) in *. set (da := Zdigits2 (Zpos ma)) in *.
  assert (D : da = 53) by lia. rewrite D in La.
  assert (db <= 53) by lia.
  assert (2 ^ db <= 2 ^ 53) by (apply Z.pow_le_mono_r; lia).
  assert (2 ^ 1 <= 2 ^ (ea - eb)) by (apply Z.pow_le_mono_r; lia).
  assert (2 ^ (53 - 1) * 2 ^ 1 <= Zpos ma * 2 ^ (ea - eb))
    by (apply Z.mul_le_mono_nonneg; lia).
  change (2 ^ (53 - 1) * 2 ^ 1) with (2 ^ 53) in *. clearbody db da. lia.
Qed.

(** The order of two canonical numbers is the order of their mantissas
    once aligned to the smaller exponent. *)
Lemma aligned_le sb mb eb sa ma ea :
  bounded prec emax mb eb = true -> bounded prec emax ma ea = true ->
  key_le (SF_key (S754_finite sb mb eb)) (SF_key (S754_finite sa ma ea)) ->
  cond_Zopp sb (Zpos (fst (shl_align mb eb (Z.min eb ea)))) -
  cond_Zopp sa (Zpos (fst (shl_align ma ea (Z.min eb ea)))) <= 0.
Proof.
  intros Vb Va K.
  rewrite !shl_align_spec by lia.
  assert (Pb : 0 < 2 ^ (eb - Z.min eb ea)) by (apply Z.pow_pos_nonneg; lia).
  assert (Pa : 0 < 2 ^ (ea - Z.min eb ea)) by (apply Z.pow_pos_nonneg; lia).
  assert (0 < Zpos mb * 2 ^ (eb - Z.min eb ea)) by (apply Z.mul_pos_pos; lia).
  assert (0 < Zpos ma * 2 ^ (ea - Z.min eb ea)) by (apply Z.mul_pos_pos; lia).
  unfold key_le, key_lt in K.
  destruct sb, sa; cbn [SF_key cond_Zopp] in *.
  - destruct (Z.lt_trichotomy ea eb) as [L|[E|G]].
    + pose proof (canonical_lt ma ea mb eb Va Vb L).
      replace (Z.min eb ea) with ea in * by lia.
      rewrite Z.sub_diag, Z.mul_1_r. lia.
    + subst ea. replace (Z.min eb eb) with eb in * by lia.
      rewrite Z.sub_diag, !Z.mul_1_r.
      destruct K as [K|K]; [lia | injection K as K; lia].
    + exfalso. destruct K as [K|K]; [lia | injection K as K1 K2; lia].
  - lia.
  - exfalso. destruct K as [K|K]; [lia | discriminate].
  - destruct (Z.lt_trichotomy eb ea) as [L|[E|G]].
    + pose proof (canonical_lt mb eb ma ea Vb Va L).
      replace (Z.min eb ea) with eb in * by lia.
      rewrite Z.sub_diag, Z.mul_1_r. lia.
    + subst ea. replace (Z.min eb eb) with eb in * by lia.
      rewrite Z.sub_diag, !Z.mul_1_r.
      destruct K as [K|K]; [lia | injection K as K; lia].
    + exfalso. destruct K as [K|K]; [lia | injection K as K1 K2; lia].
Qed.

Lemma round_result_nonpos m e :
  0 <= m -> SFleb (round_result true m e) (S754_zero false) = true.
Proof.
  intros H. unfold round_result. destruct m as [|p|p]; try lia; [reflexivity|].
  destruct (e <=? emax - prec); reflexivity.
Qed.

Lemma binary_normalize_nonpos m e :
  m <= 0 -> SFleb (binary_normalize prec emax m e false) (S754_zero false) = true.
Proof.
  intros H. destruct m as [|p|p]; try lia; [reflexivity|].
  cbn [binary_normalize]. unfold binary_round.
  destruct (shl_align p e _) as [mz ez].
  destruct (binary_round_aux_spec true (Zpos mz) ez loc_Exact ltac:(lia)) as (m1r & [Lo _] & ->).
  apply round_result_nonpos. apply Z.shiftr_nonneg.
  pose proof (Z.shiftr_nonneg (Zpos mz)
                (Z.max 0 (fexp prec emax (Zdigits2 (Zpos mz) + ez) - ez))). lia.
Qed.

Lemma SFsub_nonpos b a :
  valid_binary b = true -> valid_binary a = true ->
  SF_is_finite b = true -> SF_is_finite a = true ->
  SFleb b a = true -> SFleb (SFsub prec emax b a) (S754_zero false) = true.
Proof.
  intros Vb Va Fb Fa L.
  destruct b as [sb|sb| |sb mb eb], a as [sa|sa| |sa ma ea]; try discriminate.
  - destruct sb, sa; reflexivity.
  - destruct sa; [discriminate | reflexivity].
  - destruct sb; [reflexivity | discriminate].
  - cbn [SFsub]. apply binary_normalize_nonpos.
    apply SFleb_key in L as (_ & _ & K).
    apply aligned_le; assumption.
Qed.

(** The difference of two finite numbers is not positive when the first
    is not above the second. *)
Lemma sub_nonpos (b a : float) :
  finite b = true -> finite a = true -> (b <=? a)%float = true ->
  (b - a <=? 0)%float = true.
Proof.
  unfold finite. intros Fb Fa L.
  rewrite FloatAxioms.leb_spec in *. rewrite sub_spec.
  apply SFsub_nonpos; auto using Prim2SF_valid.
Qed.

End Binary64Facts.

Import Binary64Facts.

(* ================================================================== *)
(** * Part IV. The coordinate transform                                *)
(* ================================================================== *)

Lemma Math_min_one v :
  is_nan v = false ->
  is_nan (Math_min 1 v) = false /\ (Math_min 1 v <=? 1)%float = true.
Proof.
  intros N. unfold Math_min. rewrite N.
  change (is_nan 1) with false. cbn [orb].
  destruct (1 <? v)%float eqn:A; [split; reflexivity|].
  destruct (v <? 1)%float eqn:B; [split; [assumption | apply ltb_leb, B]|].
  change (get_sign 1) with false. cbn iota.
  split; [assumption | apply ltb_false_leb; auto].
Qed.

Lemma Math_max_zero m :
  is_nan m = false -> (m <=? 1)%float = true -> in_unit (Math_max 0 m).
Proof.
  intros N L. unfold Math_max. rewrite N.
  change (is_nan 0) with false. cbn [orb].
  destruct (0 <? m)%float eqn:A; [split; [apply ltb_leb, A | assumption]|].
  destruct (m <? 0)%float eqn:B; [split; reflexivity|].
  change (get_sign 0) with false. cbn iota. split; reflexivity.
Qed.

Lemma clamp01_in_unit v : is_nan v = false -> in_unit (clamp01 v).
Proof.
  intros N. destruct (Math_min_one v N) as [A B].
  apply Math_max_zero; assumption.
Qed.

Lemma centerBox_in_unit ymin xmin ymax xmax :
  finite ymin = true -> finite xmin = true ->
  finite ymax = true -> finite xmax = true ->
  let r := centerBox ymin xmin ymax xmax in
  in_unit (x_center r) /\ in_unit (y_center r) /\
  in_unit (width r) /\ in_unit (height r).
Proof.
  intros F1 F2 F3 F4. cbn zeta. unfold centerBox. cbn [x_center y_center width height].
  assert (W : is_nan (xmax - xmin)%float = false)
    by (apply sub_not_nan; auto using finite_not_nan).
  assert (H : is_nan (ymax - ymin)%float = false)
    by (apply sub_not_nan; auto using finite_not_nan).
  repeat split; apply clamp01_in_unit; auto using add_not_nan, div_2_not_nan.
Qed.

Lemma convert_unfold box w h :
  convertGeminiBoxToYolo box w h =
  let scale : number := if (1 <? ymax box)%float then 1000%float else 1%float in
  centerBox (ymin box / scale) (xmin box / scale) (ymax box / scale) (xmax box / scale).
Proof. reflexivity. Qed.

(** C1.  The scale is decided by [ymax] alone: when [ymax <= 1] the four
    fields enter the centre/size computation unchanged, when [ymax > 1]
    each is first divided by 1000; the image dimensions play no role. *)
Theorem convert_scale_decided_by_ymax (box : Box2D) (imgWidth imgHeight : number) :
  ((ymax box <=? 1)%float = true ->
     convertGeminiBoxToYolo box imgWidth imgHeight =
     centerBox (ymin box) (xmin box) (ymax box) (xmax box)) /\
  ((1 <? ymax box)%float = true ->
     convertGeminiBoxToYolo box imgWidth imgHeight =
     centerBox (ymin box / 1000) (xmin box / 1000) (ymax box / 1000) (xmax box / 1000)).
Proof.
  rewrite convert_unfold. split; intros H.
  - rewrite (leb_ltb_false _ _ H). cbn zeta. rewrite !div_one. reflexivity.
  - rewrite H. reflexivity.
Qed.

(** C2.  On finite inputs, whatever their range or order, the conversion
    yields four fields that all lie in [0, 1]. *)
Theorem convert_fields_in_unit (box : Box2D) (imgWidth imgHeight : number) :
  finite (ymin box) = true -> finite (xmin box) = true ->
  finite (ymax box) = true -> finite (xmax box) = true ->
  let r := convertGeminiBoxToYolo box imgWidth imgHeight in
  in_unit (x_center r) /\ in_unit (y_center r) /\
  in_unit (width r) /\ in_unit (height r).
Proof.
  intros F1 F2 F3 F4. rewrite convert_unfold.
  destruct (1 <? ymax box)%float; cbn zeta.
  - apply centerBox_in_unit; apply div_1000_finite; assumption.
  - rewrite !div_one. apply centerBox_in_unit; assumption.
Qed.

Lemma convert_fields_in_unit_witness :
  let r := convertGeminiBoxToYolo malformed_box 640 640 in
  in_unit (x_center r) /\ in_unit (y_center r) /\
  in_unit (width r) /\ in_unit (height r).
Proof.
  apply (convert_fields_in_unit malformed_box 640 640); reflexivity.
Defined.

(** C10.  Clamping field by field does not keep the box inside the image:
    for [ymin=0, xmin=500, ymax=1000, xmax=1500] every output field is in
    [0, 1], with [x_center = 1] and [width = 1], so the right edge
    [x_center + width/2] lies beyond 1. *)
Theorem clamping_is_not_geometric :
  exists box : Box2D,
    let r := convertGeminiBoxToYolo box 640 640 in
    (in_unit (x_center r) /\ in_unit (y_center r) /\
     in_unit (width r) /\ in_unit (height r)) /\
    x_center r = 1%float /\ width r = 1%float /\
    (1 <? x_center r + width r / 2)%float = true.
Proof.
  exists overhanging_box. vm_compute. repeat split.
Qed.

(* ================================================================== *)
(** * Part V. Aspect-ratio resolution                                  *)
(* ================================================================== *)

Section ArgMin.
Variable d : Ratio -> number.
Hypothesis d_not_nan : forall r, is_nan (d r) = false.

Lemma fold_pick_first_closest :
  forall rest seen i acc,
    first_closest d seen i acc ->
    exists i', first_closest d (seen ++ rest) i' (fold_left (pick d) rest acc).
Proof.
  induction rest as [|curr rest IH]; intros seen i acc H.
  - exists i. rewrite app_nil_r. exact H.
  - cbn [fold_left].
    replace (seen ++ curr :: rest)%list with ((seen ++ [curr]) ++ rest)%list
      by (rewrite <- app_assoc; reflexivity).
    destruct H as [Hi Hmin].
    assert (Hlt : i < List.length seen) by (apply nth_error_Some; congruence).
    change (pick d acc curr) with (if (d curr <? d acc)%float then curr else acc).
    destruct (d curr <? d acc)%float eqn:C.
    + apply (IH (seen ++ [curr])%list (List.length seen)). split.
      * rewrite nth_error_app2, Nat.sub_diag by lia. reflexivity.
      * intros j r' Hj.
        destruct (Nat.lt_ge_cases j (List.length seen)) as [L|L].
        -- rewrite nth_error_app1 in Hj by assumption.
           destruct (Hmin j r' Hj) as [A _].
           pose proof (ltb_leb_trans _ _ _ C A) as S.
           split; [apply ltb_leb, S | intros _; exact S].
        -- rewrite nth_error_app2 in Hj by assumption.
           destruct (j - List.length seen) as [|k] eqn:E; cbn in Hj.
           ++ injection Hj as <-. split; [apply leb_refl, d_not_nan | lia].
           ++ destruct k; discriminate.
    + apply (IH (seen ++ [curr])%list i). split.
      * rewrite nth_error_app1 by assumption. exact Hi.
      * intros j r' Hj.
        destruct (Nat.lt_ge_cases j (List.length seen)) as [L|L].
        -- rewrite nth_error_app1 in Hj by assumption. apply Hmin, Hj.
        -- rewrite nth_error_app2 in Hj by assumption.
           destruct (j - List.length seen) as [|k] eqn:E; cbn in Hj.
           ++ injection Hj as <-.
              split; [apply ltb_false_leb; auto | lia].
           ++ destruct k; discriminate.
Qed.

Lemma reduce_pick_first_closest first rest :
  exists i r, reduce (pick d) (first :: rest) = Some r /\
              first_closest d (first :: rest) i r.
Proof.
  destruct (fold_pick_first_closest rest [first] 0 first) as [i H].
  - split; [reflexivity|]. intros [|[|j]] r' Hj; cbn in Hj; try discriminate.
    injection Hj as <-. split; [apply leb_refl, d_not_nan | lia].
  - exists i, (fold_left (pick d) rest first). split; [reflexivity | exact H].
Qed.

End ArgMin.

Lemma fold_left_agree {A} (P : A -> Prop) (f g : A -> A -> A) :
  (forall a b, P a -> P b -> f a b = g a b) ->
  (forall a b, P a -> P b -> P (f a b)) ->
  forall rest acc, P acc -> Forall P rest -> fold_left f rest acc = fold_left g rest acc.
Proof.
  intros Hfg Hp. induction rest as [|x rest IH]; intros acc Ha Hr; [reflexivity|].
  inversion Hr as [|? ? Hx Hrest]; subst. cbn [fold_left].
  rewrite <- (Hfg acc x Ha Hx). apply IH; auto.
Qed.

Lemma positive_finite_spec x :
  finite x = true -> (0 <? x)%float = true ->
  exists m e, Prim2SF x = S754_finite false m e.
Proof.
  unfold finite. rewrite FloatAxioms.ltb_spec.
  change (Prim2SF 0) with (S754_zero false). unfold SFltb.
  destruct (Prim2SF x) as [s|s| |[|] m e]; simpl; try discriminate.
  intros _ _. eauto.
Qed.

Lemma ratio_not_nan w h :
  finite w = true -> finite h = true -> (0 <? h)%float = true ->
  is_nan (w / h)%float = false.
Proof.
  intros Fw Fh Ph. destruct (positive_finite_spec h Fh Ph) as (m & e & E).
  rewrite is_nan_spec, div_spec, E. apply SFdiv_not_nan.
  rewrite <- is_nan_spec. apply finite_not_nan, Fw.
Qed.

Lemma ratios_finite r : In r ratios -> finite (value r) = true.
Proof.
  cbn. intros [<-|[<-|[<-|[<-|[<-|[]]]]]]; reflexivity.
Qed.

(** The distance of a non-NaN target to a table entry is a number, so
    the comparisons of the [reduce] are those of a total order. *)
Lemma distance_not_nan t r :
  is_nan t = false -> finite (value r) = true -> is_nan (distance t r) = false.
Proof.
  intros Nt F. unfold distance, Math_abs. rewrite abs_not_nan.
  apply sub_not_nan; assumption.
Qed.

(** The reduction returns the key of the first entry of the table at
    minimal distance from the target. *)
Lemma reduce_first_closest (width height : number) :
  finite width = true -> finite height = true ->
  (0 <? width)%float = true -> (0 <? height)%float = true ->
  exists i r,
    getGeminiAspectRatio width height = key r /\
    In (key r) ["1:1"; "3:4"; "4:3"; "9:16"; "16:9"] /\
    first_closest (distance (width / height)) ratios i r.
Proof.
  intros Fw Fh Pw Ph.
  pose proof (ratio_not_nan width height Fw Fh Ph) as Nt.
  set (t := (width / height)%float) in *.
  (* a distance that agrees with [distance t] on the table and is never NaN *)
  set (d := fun r => if finite (value r) then distance t r else 0%float).
  assert (Hd : forall r, is_nan (d r) = false).
  { intros r. unfold d. destruct (finite (value r)) eqn:F;
      [apply distance_not_nan; assumption | reflexivity]. }
  assert (Hagree : forall r, In r ratios -> d r = distance t r).
  { intros r Hr. unfold d. rewrite (ratios_finite r Hr). reflexivity. }
  destruct (reduce_pick_first_closest d Hd
              {| key := "1:1"; value := 1.0%float |} (tl ratios)) as (i & r & Hred & Hi & Hmin).
  change ({| key := "1:1"; value := 1.0%float |} :: tl ratios) with ratios in *.
  assert (Hr : In r ratios) by (eapply nth_error_In; eassumption).
  exists i, r. split; [|split; [|split]].
  - unfold getGeminiAspectRatio. fold t.
    replace (reduce (closer t) ratios) with (Some r); [reflexivity|].
    rewrite <- Hred. unfold reduce, ratios. f_equal.
    apply (fold_left_agree (fun r => In r ratios)).
    + intros prev curr Hp Hc. unfold closer, pick. fold (distance t curr) (distance t prev).
      rewrite <- (Hagree _ Hp), <- (Hagree _ Hc). reflexivity.
    + intros prev curr Hp Hc. unfold pick. destruct (d curr <? d prev)%float; assumption.
    + cbn; auto.
    + apply Forall_forall. intros x Hx. right. exact Hx.
  - cbn in Hr. cbn.
    destruct Hr as [<-|[<-|[<-|[<-|[<-|[]]]]]]; cbn; tauto.
  - exact Hi.
  - intros j r' Hj.
    assert (Hr' : In r' ratios) by (eapply nth_error_In; eassumption).
    rewrite <- (Hagree r Hr), <- (Hagree r' Hr'). apply Hmin, Hj.
Qed.

(** At most one tag is the nearest one. *)
Lemma nearest_tag_unique raw i tag i' tag' :
  nearest_tag raw i tag -> nearest_tag raw i' tag' -> i = i' /\ tag = tag'.
Proof.
  intros (v & Hi & Hmin) (v' & Hi' & Hmin').
  assert (E : i = i').
  { destruct (Nat.lt_trichotomy i i') as [L|[E|L]]; [exfalso|exact E|exfalso].
    - destruct (Hmin i tag v Hi) as [_ _].
      destruct (Hmin' i tag v Hi) as [_ S]. specialize (S L).
      destruct (Hmin i' tag' v' Hi') as [W _].
      rewrite (leb_ltb_false _ _ W) in S. discriminate.
    - destruct (Hmin i' tag' v' Hi') as [_ S]. specialize (S L).
      destruct (Hmin' i tag v Hi) as [W _].
      rewrite (leb_ltb_false _ _ W) in S. discriminate. }
  subst i'. split; [reflexivity | congruence].
Qed.

(** C7.  For positive (finite) dimensions the function returns the tag,
    among ["1:1"], ["3:4"], ["4:3"], ["9:16"] and ["16:9"] with the
    reference values 1, 0.75, 1.333, 0.5625 and 1.777, whose reference
    value has the least absolute difference to [width / height], the
    first such tag in enumeration order when several are equally near;
    no other tag answers that description. *)
Theorem getGeminiAspectRatio_closest (width height : number) :
  finite width = true -> finite height = true ->
  (0 <? width)%float = true -> (0 <? height)%float = true ->
  (exists i, nearest_tag (width / height) i (getGeminiAspectRatio width height)) /\
  (forall i tag, nearest_tag (width / height) i tag ->
                 tag = getGeminiAspectRatio width height).
Proof.
  intros Fw Fh Pw Ph.
  destruct (reduce_first_closest width height Fw Fh Pw Ph) as (i & r & E & _ & Hi & Hmin).
  assert (T : reference_values = map (fun r => (key r, value r)) ratios) by reflexivity.
  assert (H : nearest_tag (width / height) i (getGeminiAspectRatio width height)).
  { exists (value r). rewrite E, T. split.
    - rewrite nth_error_map, Hi. reflexivity.
    - intros j tag' reference' Hj. rewrite nth_error_map in Hj.
      destruct (nth_error ratios j) as [r'|] eqn:Ej; [|discriminate].
      injection Hj as <- <-. apply (Hmin j r' Ej). }
  split; [exists i; exact H|].
  intros i' tag' H'. apply (nearest_tag_unique _ _ _ _ _ H' H).
Qed.

Lemma getGeminiAspectRatio_closest_witness :
  (exists i, nearest_tag (640 / 480) i (getGeminiAspectRatio 640 480)) /\
  (forall i tag, nearest_tag (640 / 480) i tag -> tag = getGeminiAspectRatio 640 480).
Proof.
  apply (getGeminiAspectRatio_closest 640 480); reflexivity.
Defined.

(** The three resolutions named by the specification. *)
Example getGeminiAspectRatio_examples :
  getGeminiAspectRatio 640 640 = "1:1" /\
  getGeminiAspectRatio 640 480 = "4:3" /\
  getGeminiAspectRatio 1080 1920 = "9:16".
Proof. repeat split; vm_compute; reflexivity. Qed.

(* ================================================================== *)
(** * Part VI. The annotation line                                     *)
(* ================================================================== *)

(** ** Strings *)

Lemma append_assoc (a b c : string) : (a ++ b) ++ c = a ++ (b ++ c).
Proof. induction a as [|x a IH]; cbn; [reflexivity | now rewrite IH]. Qed.

Lemma append_nil_r (a : string) : a ++ "" = a.
Proof. induction a as [|x a IH]; cbn; [reflexivity | now rewrite IH]. Qed.

Lemma length_append (a b : string) :
  String.length (a ++ b) = String.length a + String.length b.
Proof. induction a as [|x a IH]; cbn; [reflexivity | now rewrite IH]. Qed.

Lemma substring_prefix (a b : string) : substring 0 (String.length a) (a ++ b) = a.
Proof.
  induction a as [|x a IH]; cbn.
  - destruct b; reflexivity.
  - now rewrite IH.
Qed.

Lemma substring_all (b : string) : substring 0 (String.length b) b = b.
Proof. induction b as [|x b IH]; cbn; [reflexivity | now rewrite IH]. Qed.

Lemma substring_suffix (a b : string) :
  substring (String.length a) (String.length b) (a ++ b) = b.
Proof.
  induction a as [|x a IH]; cbn; [apply substring_all | exact IH].
Qed.

Lemma length_zeros k : String.length (zeros k) = k.
Proof. induction k; cbn; congruence. Qed.

(** ** Decimal digits *)

Lemma dec_digits_fuel : forall f1 f2 n,
  (n < 2 ^ N.of_nat (S f1))%N -> (n < 2 ^ N.of_nat (S f2))%N ->
  dec_digits (S f1) n = dec_digits (S f2) n.
Proof.
  induction f1 as [|f1 IH]; intros f2 n H1 H2; cbn [dec_digits].
  - cbn in H1. assert (E : (n <? 10)%N = true) by (apply N.ltb_lt; lia).
    rewrite E. reflexivity.
  - destruct (n <? 10)%N eqn:E; [reflexivity|].
    apply N.ltb_ge in E. f_equal.
    rewrite Nat2N.inj_succ, N.pow_succ_r' in H1.
    destruct f2 as [|f2]; [cbn in H2; lia|].
    rewrite Nat2N.inj_succ, N.pow_succ_r' in H2.
    apply IH; apply N.Div0.div_lt_upper_bound; lia.
Qed.

Lemma dec_fuel_enough n : (n < 2 ^ N.of_nat (S (N.to_nat (N.log2 n))))%N.
Proof.
  rewrite Nat2N.inj_succ, N2Nat.id.
  destruct n as [|p]; [cbn; lia|].
  apply N.log2_spec. lia.
Qed.

Lemma dec_unfold n :
  dec n = if (n <? 10)%N then String (digit n) ""
          else dec (n / 10) ++ String (digit (n mod 10)) "".
Proof.
  unfold dec at 1. cbn [dec_digits]. destruct (n <? 10)%N eqn:E; [reflexivity|].
  apply N.ltb_ge in E. f_equal. unfold dec.
  pose proof (dec_fuel_enough n) as H.
  destruct (N.to_nat (N.log2 n)) as [|k] eqn:K; [cbn in H; lia|].
  apply dec_digits_fuel; [|apply dec_fuel_enough].
  rewrite Nat2N.inj_succ, N.pow_succ_r' in H.
  apply N.Div0.div_lt_upper_bound. lia.
Qed.

Lemma dec_small n : (n < 10)%N -> dec n = String (digit n) "".
Proof. intros H. rewrite dec_unfold. apply N.ltb_lt in H. now rewrite H. Qed.

Lemma dec_large n :
  (10 <= n)%N -> dec n = dec (n / 10) ++ String (digit (n mod 10)) "".
Proof. intros H. rewrite dec_unfold. apply N.ltb_ge in H. now rewrite H. Qed.

Lemma length_dec_pos n : 1 <= String.length (dec n).
Proof.
  rewrite dec_unfold. destruct (n <? 10)%N; [cbn; lia|].
  rewrite length_append. cbn. lia.
Qed.

(** ** Fixed-point rendering *)

Lemma length_fixed_width f k : String.length (fixed_width f k) = f.
Proof.
  revert k. induction f as [|f IH]; intros k; cbn; [reflexivity|].
  rewrite length_append, IH. cbn. lia.
Qed.

Lemma fixed_width_zero f : fixed_width f 0 = zeros f.
Proof.
  induction f as [|f IH]; cbn; [reflexivity|].
  rewrite IH. clear IH. induction f as [|f IH]; cbn; [reflexivity|].
  now rewrite IH.
Qed.

Lemma zeros_snoc k : zeros k ++ "0" = zeros (S k).
Proof. induction k as [|k IH]; cbn; [reflexivity|]. cbn in IH. now rewrite IH. Qed.

Lemma padded_split f : forall n,
  padded f n = dec (n / 10 ^ N.of_nat f) ++ fixed_width f (n mod 10 ^ N.of_nat f).
Proof.
  induction f as [|f IH]; intros n.
  - unfold padded. pose proof (length_dec_pos n) as L.
    destruct (Nat.leb_spec (String.length (dec n)) 0); [lia|].
    cbn [fixed_width N.of_nat]. rewrite N.pow_0_r, N.div_1_r, append_nil_r. reflexivity.
  - rewrite Nat2N.inj_succ, N.pow_succ_r'.
    destruct (N.lt_ge_cases n 10) as [Sm|L].
    + assert (P : (0 < 10 ^ N.of_nat f)%N) by (apply N.neq_0_lt_0, N.pow_nonzero; lia).
      rewrite N.div_small, N.mod_small by nia.
      unfold padded. rewrite (dec_small n Sm). cbn [String.length].
      destruct (Nat.leb_spec 1 (S f)); [|lia].
      replace (S f + 1 - 1) with (S f) by lia.
      cbn [fixed_width]. rewrite (N.div_small n 10), (N.mod_small n 10) by assumption.
      rewrite fixed_width_zero. rewrite (dec_small 0) by lia.
      reflexivity.
    + assert (E : padded (S f) n = padded f (n / 10) ++ String (digit (n mod 10)) "").
      { unfold padded. rewrite (dec_large n L), length_append. cbn [String.length].
        destruct (Nat.leb_spec (String.length (dec (n / 10)) + 1) (S f)),
                 (Nat.leb_spec (String.length (dec (n / 10))) f); try lia.
        - rewrite append_assoc. do 2 f_equal. lia.
        - reflexivity. }
      rewrite E, IH. cbn [fixed_width]. rewrite append_assoc.
      rewrite N.Div0.mod_mul_r, N.Div0.div_div.
      replace ((n mod 10 + 10 * ((n / 10) mod 10 ^ N.of_nat f)) / 10)%N
        with ((n / 10) mod 10 ^ N.of_nat f)%N.
      2:{ rewrite N.mul_comm, N.div_add by lia.
          rewrite (N.div_small (n mod 10) 10) by (apply N.mod_lt; lia). reflexivity. }
      replace ((n mod 10 + 10 * ((n / 10) mod 10 ^ N.of_nat f)) mod 10)%N
        with (n mod 10)%N.
      2:{ rewrite N.mul_comm, N.Div0.mod_add, N.Div0.mod_mod. reflexivity. }
      reflexivity.
Qed.

Lemma fixed_digits_spec n f :
  f <> 0 ->
  fixed_digits n f =
  dec (n / 10 ^ N.of_nat f) ++ "." ++ fixed_width f (n mod 10 ^ N.of_nat f).
Proof.
  intros Hf. unfold fixed_digits.
  destruct (Nat.eqb_spec f 0); [contradiction|].
  fold (padded f n). rewrite padded_split.
  set (a := dec _). set (b := fixed_width f _).
  assert (Lb : String.length b = f) by apply length_fixed_width.
  pose proof (substring_suffix a b) as Sb. rewrite Lb in Sb.
  rewrite length_append, Lb.
  replace (String.length a + f - f) with (String.length a) by lia.
  rewrite substring_prefix, Sb. reflexivity.
Qed.

(** ** [toFixed] on a number of the unit interval *)

Lemma in_unit_spec v :
  in_unit v ->
  (exists s, Prim2SF v = S754_zero s) \/
  (exists m e, Prim2SF v = S754_finite false m e /\ (e < 0)%Z /\ (Zpos m <= 2 ^ (- e))%Z).
Proof.
  intros [A B]. rewrite FloatAxioms.leb_spec in A, B.
  apply SFleb_key in A as (_ & _ & KA). apply SFleb_key in B as (N & _ & KB).
  change (Prim2SF 0) with (S754_zero false) in KA. change (Prim2SF 1) with SF_one in KB.
  pose proof (Prim2SF_valid v) as V.
  unfold key_le, key_lt, SF_one in KA, KB.
  destruct (Prim2SF v) as [s|s| |s m e]; cbn [SF_key] in KA, KB.
  - left. eauto.
  - exfalso. destruct s; [destruct KA as [KA|KA] | destruct KB as [KB|KB]];
      first [lia | discriminate].
  - discriminate.
  - destruct s; [exfalso; destruct KA as [KA|KA]; first [lia | discriminate]|].
    right. exists m, e. split; [reflexivity|].
    cbn [valid_binary] in V. apply bounded_inv in V as [Hc Hb]. rewrite fexp_unfold in Hc.
    pose proof (Zdigits2_upper (Zpos m) ltac:(lia)) as U.
    pose proof (Zdigits2_nonneg (Zpos m)) as D0.
    assert (D53 : (Zdigits2 (Zpos m) <= 53)%Z) by lia.
    assert (M : (Zpos m < 2 ^ 53)%Z).
    { eapply Z.lt_le_trans; [exact U|]. apply Z.pow_le_mono_r; lia. }
    assert (K : (e < -52 \/ (e = -52 /\ Zpos m <= 4503599627370496))%Z).
    { destruct KB as [KB|KB]; [lia|]. injection KB as -> ->. lia. }
    destruct K as [K|[-> K]].
    + split; [lia|].
      assert (2 ^ 53 <= 2 ^ (- e))%Z by (apply Z.pow_le_mono_r; lia). lia.
    + split; [lia|]. change (2 ^ (- -52))%Z with 4503599627370496%Z. exact K.
Qed.

Lemma nearest_scaled_bounds m e :
  (e < 0)%Z ->
  let n := nearest_scaled m e 6 in
  (0 <= n)%Z /\
  (2 * n * 2 ^ (- e) - 2 ^ (- e) <= 2 * Zpos m * 10 ^ 6 < 2 * n * 2 ^ (- e) + 2 ^ (- e))%Z.
Proof.
  intros He. cbn zeta. unfold nearest_scaled.
  destruct (Z.leb_spec 0 e) as [|_]; [lia|].
  change (10 ^ Z.of_nat 6)%Z with (10 ^ 6)%Z.
  set (D := (2 ^ (- e))%Z).
  assert (PD : (0 < D)%Z) by (apply Z.pow_pos_nonneg; lia).
  replace (2 ^ (1 - e))%Z with (2 * D)%Z
    by (unfold D; rewrite <- Z.pow_succ_r by lia; f_equal; lia).
  set (a := (2 * Zpos m * 10 ^ 6 + D)%Z).
  pose proof (Z.div_mod a (2 * D) ltac:(lia)) as E.
  pose proof (Z.mod_pos_bound a (2 * D) ltac:(lia)) as B.
  assert (0 <= a / (2 * D))%Z by (apply Z.div_pos; unfold a; lia).
  unfold a in *. split; [assumption | nia].
Qed.

Section Rendering.
Variable shortest_repr : number -> string.

Lemma toFixed_in_unit v :
  in_unit v ->
  exists n : N,
    (n <= 10 ^ 6)%N /\ rounds_to_millionths v n /\
    toFixed shortest_repr v 6 = six_decimals n.
Proof.
  intros H. destruct (in_unit_spec v H) as [[s E]|(m & e & E & He & Hm)].
  - exists 0%N. unfold toFixed, rounds_to_millionths. rewrite E. repeat split.
    + lia.
    + exists 0%Z, 1%Z. cbn. repeat split; lia.
  - set (n := nearest_scaled m e 6).
    destruct (nearest_scaled_bounds m e He) as [N0 NB]. fold n in N0, NB.
    assert (PD : (0 < 2 ^ (- e))%Z) by (apply Z.pow_pos_nonneg; lia).
    exists (Z.to_N n). unfold toFixed, rounds_to_millionths. rewrite E.
    cbn [exact_fraction]. destruct (Z.leb_spec 0 e) as [|_]; [lia|].
    repeat split.
    + apply N2Z.inj_le. rewrite Z2N.id by assumption.
      rewrite N2Z.inj_pow. change (Z.of_N 10) with 10%Z. change (Z.of_N 6) with 6%Z.
      apply Z.lt_succ_r, (Z.mul_lt_mono_pos_r (2 * 2 ^ (- e))); lia.
    + exists (Zpos m), (2 ^ (- e))%Z. rewrite Z2N.id by assumption.
      repeat split; [assumption | apply NB | apply NB].
    + unfold at_least_1e21. destruct (Z.leb_spec 0 e) as [|_]; [lia|].
      destruct (Z.leb_spec (10 ^ 21 * 2 ^ (- e)) (Zpos m)) as [L|_]; [nia|].
      fold n. cbn [append]. apply fixed_digits_spec. discriminate.
Qed.

Lemma Number_toString_integer x (c : N) :
  integer_of x = Some (Z.of_N c) -> (c < 2 ^ 53)%N ->
  Number_toString shortest_repr x = dec c.
Proof.
  unfold integer_of, Number_toString. intros H Hc.
  destruct (Prim2SF x) as [s|s| |s m e]; try discriminate.
  - injection H as H. replace c with 0%N by lia. reflexivity.
  - destruct (integer_value m e) as [n|] eqn:I; try discriminate.
    assert (Hn : (if s then (- n)%Z else n) = Z.of_N c) by congruence. clear H.
    assert (Pn : (0 < n)%Z).
    { unfold integer_value in I. destruct (0 <=? e)%Z eqn:Ee.
      - assert (En : n = (Zpos m * 2 ^ e)%Z) by congruence.
        apply Z.leb_le in Ee.
        pose proof (Z.pow_pos_nonneg 2 e ltac:(lia) Ee).
        rewrite En. apply Z.mul_pos_pos; lia.
      - destruct (Z.eqb_spec (Zpos m mod 2 ^ (- e)) 0) as [Z0|]; try discriminate.
        assert (En : n = (Zpos m / 2 ^ (- e))%Z) by congruence.
        apply Z.leb_gt in Ee.
        pose proof (Z.pow_pos_nonneg 2 (- e) ltac:(lia) ltac:(lia)) as P.
        pose proof (Z.div_mod (Zpos m) (2 ^ (- e)) ltac:(lia)) as D.
        rewrite Z0, <- En in D.
        assert (0 <= n)%Z by (rewrite En; apply Z.div_pos; lia).
        destruct (Z.eq_dec n 0) as [Q|Q]; [rewrite Q in D; lia | lia]. }
    destruct s; [lia|]. subst n.
    assert (L : (Z.of_N c <? 2 ^ 53)%Z = true).
    { apply Z.ltb_lt. apply N2Z.inj_lt in Hc. rewrite N2Z.inj_pow in Hc. exact Hc. }
    rewrite L, N2Z.id. reflexivity.
Qed.

(** C3.  For a class id that is a non-negative integer below 2^53 (the
    integers a number holds exactly) and a box whose fields lie in
    [0, 1], the label line is the class id in decimal followed by the
    four fields, each printed with one integer digit and exactly six
    decimals (the field rounded to the nearest millionth), separated by
    single spaces and with nothing after the height. *)
Theorem formatYoloLine_format (classId : number) (c : N) (bbox : BoundingBox) :
  integer_of classId = Some (Z.of_N c) -> (c < 2 ^ 53)%N ->
  in_unit (x_center bbox) -> in_unit (y_center bbox) ->
  in_unit (width bbox) -> in_unit (height bbox) ->
  exists xc yc w h : N,
    (rounds_to_millionths (x_center bbox) xc /\ rounds_to_millionths (y_center bbox) yc /\
     rounds_to_millionths (width bbox) w /\ rounds_to_millionths (height bbox) h) /\
    (xc <= 10 ^ 6 /\ yc <= 10 ^ 6 /\ w <= 10 ^ 6 /\ h <= 10 ^ 6)%N /\
    formatYoloLine shortest_repr classId bbox =
      dec c ++ " " ++ six_decimals xc ++ " " ++ six_decimals yc ++ " " ++
      six_decimals w ++ " " ++ six_decimals h.
Proof.
  intros Hc Hlt H1 H2 H3 H4.
  destruct (toFixed_in_unit _ H1) as (xc & B1 & R1 & E1).
  destruct (toFixed_in_unit _ H2) as (yc & B2 & R2 & E2).
  destruct (toFixed_in_unit _ H3) as (w & B3 & R3 & E3).
  destruct (toFixed_in_unit _ H4) as (h & B4 & R4 & E4).
  exists xc, yc, w, h. split; [auto|]. split; [auto|].
  unfold formatYoloLine.
  rewrite (Number_toString_integer classId c Hc Hlt), E1, E2, E3, E4. reflexivity.
Qed.

(** The line of the specification's example. *)
Example formatYoloLine_example :
  formatYoloLine shortest_repr 2
    {| x_center := 0.5; y_center := 0.5; width := 0.25; height := 0.5 |}
  = "2 0.500000 0.500000 0.250000 0.500000".
Proof. vm_compute. reflexivity. Qed.

End Rendering.

Lemma formatYoloLine_format_witness :
  exists xc yc w h : N,
    (rounds_to_millionths 0.5 xc /\ rounds_to_millionths 0.5 yc /\
     rounds_to_millionths 0.25 w /\ rounds_to_millionths 0.5 h) /\
    (xc <= 10 ^ 6 /\ yc <= 10 ^ 6 /\ w <= 10 ^ 6 /\ h <= 10 ^ 6)%N /\
    formatYoloLine (fun _ => "") 2
      {| x_center := 0.5; y_center := 0.5; width := 0.25; height := 0.5 |} =
      dec 2 ++ " " ++ six_decimals xc ++ " " ++ six_decimals yc ++ " " ++
      six_decimals w ++ " " ++ six_decimals h.
Proof.
  apply (formatYoloLine_format (fun _ => "") 2 2
           {| x_center := 0.5; y_center := 0.5; width := 0.25; height := 0.5 |});
    (reflexivity || (split; reflexivity)).
Defined.

(* ================================================================== *)
(** * Part VII. Image normalisation                                    *)
(* ================================================================== *)

(** C5 (the code departs from the claim).  [resizeImage] has no failure
    path: it never rejects.  When the image cannot be decoded the promise
    never settles, and when no drawing context is available it resolves
    with the original, unresized data. *)
Theorem resizeImage_has_no_failure_path
    (env : Browser) (base64Str : string) (targetWidth targetHeight : number) :
  (forall message, resizeImage env base64Str targetWidth targetHeight <> Rejected message) /\
  (image_load env = LoadError ->
     resizeImage env base64Str targetWidth targetHeight = Pending) /\
  (image_load env = Loaded -> context2d env = false ->
     resizeImage env base64Str targetWidth targetHeight = Resolved base64Str).
Proof.
  unfold resizeImage. repeat split.
  - intros message. destruct (image_load env); [destruct (context2d env)|]; discriminate.
  - intros ->. reflexivity.
  - intros -> ->. reflexivity.
Qed.

(** The same on a concrete undecodable payload; the sibling reader,
    [fileToBase64], does reject when its source fails. *)
Example resizeImage_undecodable :
  resizeImage {| image_load := LoadError; context2d := true; toDataURL := "" |}
              "data:image/jpeg;base64,AAAA" 640 640 = Pending /\
  fileToBase64 (ReadError "NotReadableError") = Rejected "NotReadableError".
Proof. split; reflexivity. Qed.

(* ================================================================== *)
(** * Part VIII. Export                                                *)
(* ================================================================== *)

Lemma exportable_spec item :
  exportable item = true <-> status item = completed /\ bbox item <> None.
Proof.
  unfold exportable. destruct (status item), (bbox item); cbn; split;
    intros H; try discriminate; try (split; congruence); destruct H; congruence.
Qed.

Section ExportProperties.
Variable shortest_repr : number -> string.

Lemma item_entries_paths st items :
  Forall (fun i => exportable i = true) items ->
  file_paths (flat_map (itemEntries shortest_repr st) items) = flat_map item_paths items.
Proof.
  induction 1 as [|item items Hx _ IH]; [reflexivity|].
  cbn [flat_map]. unfold file_paths in *. rewrite flat_map_app, IH. f_equal.
  apply exportable_spec in Hx as [_ Hb]. unfold itemEntries, item_paths.
  destruct (bbox item); [reflexivity | contradiction].
Qed.

(** C8.  The export takes exactly the items that are completed and carry
    a box; when there is none it does nothing, and otherwise the archive
    holds the manifest and, for each such item in order, its image and
    label files and no other file. *)
Theorem handleDownloadZip_exports_exactly (st : State) :
  let completedItems := filter exportable (generatedItems st) in
  (forall item, In item completedItems <->
                In item (generatedItems st) /\
                status item = completed /\ bbox item <> None) /\
  (completedItems = [] -> handleDownloadZip shortest_repr st = None) /\
  (completedItems <> [] ->
   exists d, handleDownloadZip shortest_repr st = Some d /\
             filename d = "yolo_drone_dataset.zip" /\
             file_paths (entries d) = "data.yaml" :: flat_map item_paths completedItems).
Proof.
  cbn zeta. split; [|split].
  - intros item. rewrite filter_In, exportable_spec. tauto.
  - unfold handleDownloadZip. intros ->. reflexivity.
  - unfold handleDownloadZip. intros Hne.
    destruct (filter exportable (generatedItems st)) as [|i0 rest] eqn:E; [contradiction|].
    cbn [List.length Nat.eqb]. eexists. split; [reflexivity|]. split; [reflexivity|].
    cbn [entries]. change (file_paths (?a :: ?b :: File ?p ?c ?f :: ?r))
      with (p :: file_paths r).
    f_equal. apply item_entries_paths.
    rewrite <- E. apply Forall_forall. intros x Hx. apply filter_In in Hx. tauto.
Qed.

End ExportProperties.

(* ================================================================== *)
(** * Part IX. The dataset pipeline                                    *)
(* ================================================================== *)

(** ** Run-level preconditions *)

(** C6, as stated, fails: without a reference image the function returns
    silently. *)
Lemma missing_reference_is_silent :
  ~ aborts_and_surfaces (fun _ => calm_env) no_reference.
Proof.
  intros H. destruct H as (log & E & message & Hin).
  - left. reflexivity.
  - cbv in E. injection E as <-. destruct Hin.
Qed.

(** C6, amended.  A violated precondition makes the run return at once:
    the state (items, progress, processing flag) is untouched whatever the
    environment, so no item is created and no item is processed.  An
    empty angle set, with image and credential present, is reported by an
    alert; a missing image or credential is reported by nothing. *)
Theorem generateDataset_precondition (envs : nat -> ItemEnv) (st : State) :
  precondition_violated st ->
  generateDataset envs st =
  Finished st
    (if (falsy_image (referenceImg st) || negb (truthy (apiKey st)))%bool then []
     else [Alert "Please select at least one camera angle."]).
Proof.
  unfold generateDataset. intros [H|[H|H]].
  - rewrite H. reflexivity.
  - rewrite H, orb_true_r. reflexivity.
  - rewrite H. destruct (_ || _)%bool; reflexivity.
Qed.

Lemma generateDataset_precondition_witness :
  generateDataset (fun _ => calm_env) no_angles =
  Finished no_angles [Alert "Please select at least one camera angle."].
Proof.
  apply (generateDataset_precondition (fun _ => calm_env) no_angles).
  right. right. reflexivity.
Defined.

(** ** Item identifiers *)

Lemma all_digits_app a b : all_digits (a ++ b) = (all_digits a && all_digits b)%bool.
Proof.
  induction a as [|c a IH]; cbn; [reflexivity|]. rewrite IH. apply andb_assoc.
Qed.

Lemma digit_spec d : (d < 10)%N -> is_digit (digit d) = true /\ (N_of_ascii (digit d) - 48 = d)%N.
Proof.
  intros H.
  assert (C : (d = 0 \/ d = 1 \/ d = 2 \/ d = 3 \/ d = 4 \/ d = 5 \/ d = 6 \/ d = 7 \/
               d = 8 \/ d = 9)%N) by lia.
  repeat (destruct C as [->|C]; [split; reflexivity|]). subst d. split; reflexivity.
Qed.

Lemma decimal_value_app a b acc :
  decimal_value acc (a ++ b) = decimal_value (decimal_value acc a) b.
Proof. revert acc. induction a as [|c a IH]; intros acc; cbn; [reflexivity | apply IH]. Qed.

Lemma dec_digits_only : forall n, all_digits (dec n) = true /\ decimal_value 0 (dec n) = n.
Proof.
  intros n. induction n as [n IH] using (well_founded_induction N.lt_wf_0).
  rewrite dec_unfold. destruct (N.ltb_spec n 10) as [S|L].
  - destruct (digit_spec n S) as [D V]. cbn [all_digits decimal_value].
    rewrite D, V. split; [reflexivity | lia].
  - assert (Hq : (n / 10 < n)%N) by (apply N.div_lt; lia).
    destruct (IH _ Hq) as [A V].
    destruct (digit_spec (n mod 10)) as [D W]; [apply N.mod_lt; lia|].
    rewrite all_digits_app, decimal_value_app, A, V. cbn [all_digits decimal_value].
    rewrite D, W.
    split; [reflexivity|].
    pose proof (N.div_mod n 10 ltac:(lia)). lia.
Qed.

Lemma dec_inj n m : dec n = dec m -> n = m.
Proof.
  intros H. rewrite <- (proj2 (dec_digits_only n)), <- (proj2 (dec_digits_only m)).
  now rewrite H.
Qed.

Lemma digits_suffix_digits d : all_digits d = true -> digits_suffix d = d.
Proof. destruct d as [|c d]; [reflexivity|]. cbn [digits_suffix]. now intros ->. Qed.

Lemma digits_suffix_after_underscore p d :
  all_digits d = true -> digits_suffix (p ++ "_" ++ d) = d.
Proof.
  intros H. induction p as [|c p IH].
  - cbn. apply digits_suffix_digits, H.
  - cbn [append digits_suffix]. cbn [all_digits]. rewrite all_digits_app.
    cbn [append all_digits]. change (is_digit "_") with false.
    cbn [andb]. rewrite andb_false_r, andb_false_r. exact IH.
Qed.

Lemma item_id_index t1 i1 t2 i2 : item_id t1 i1 = item_id t2 i2 -> i1 = i2.
Proof.
  unfold item_id. intros H.
  assert (E : forall t i, "img_" ++ dec t ++ "_" ++ dec (N.of_nat i) =
                          ("img_" ++ dec t) ++ "_" ++ dec (N.of_nat i)).
  { intros t i. symmetry. apply append_assoc. }
  rewrite !E in H. apply (f_equal digits_suffix) in H.
  rewrite !digits_suffix_after_underscore in H by apply dec_digits_only.
  apply dec_inj in H. lia.
Qed.

(** ** One pass through the loop body *)

Lemma attempt_synthesis_failure st env message :
  fst (generateDroneView (apiKey st) (synthesis env)) = Rejected message ->
  attempt st env = Rejected message.
Proof. unfold attempt. intros ->. reflexivity. Qed.

Lemma attempt_detection_failure st env raw img message :
  fst (generateDroneView (apiKey st) (synthesis env)) = Resolved raw ->
  resizeImage (browser env) raw (cfg_width (config st)) (cfg_height (config st)) = Resolved img ->
  fst (detectObjectBBox (JSON_other env) (apiKey st) (detection env)) = Rejected message ->
  attempt st env = Rejected message.
Proof. unfold attempt. intros -> -> ->. reflexivity. Qed.

Lemma updateItem_last items item id' change :
  (forall x, In x items -> id x <> id') -> id item = id' ->
  updateItem id' change (items ++ [item])%list = (items ++ [change item])%list.
Proof.
  intros Hfresh Hid. unfold updateItem. rewrite map_app. f_equal.
  - rewrite <- (map_id items) at 2. apply map_ext_in. intros x Hx.
    destruct (String.eqb_spec (id x) id') as [E|_]; [destruct (Hfresh x Hx E) | reflexivity].
  - cbn. rewrite Hid, String.eqb_refl. reflexivity.
Qed.

Ltac settle_branch Hfresh :=
  unfold catchError; do 3 eexists; split; [reflexivity|];
  cbn [apiKey config selectedAngles progress generatedItems
       setProgress setGeneratedItems];
  repeat rewrite updateItem_last by (first [exact Hfresh | reflexivity]);
  repeat split; reflexivity.

(** What one pass does to the state when its attempt settles: it appends
    one item, in the terminal state of the attempt, and advances the
    progress counter; nothing else changes. *)
Lemma processItem_settles i env st log :
  (forall x, In x (generatedItems st) -> id x <> item_id (now env) i) ->
  attempt st env <> Pending ->
  exists st' log' item,
    processItem i env st log = Continue st' log' /\
    apiKey st' = apiKey st /\ config st' = config st /\
    selectedAngles st' = selectedAngles st /\
    progress st' = Some (i + 1, count (config st)) /\
    generatedItems st' = (generatedItems st ++ [item])%list /\
    id item = item_id (now env) i /\
    item_settled st env item.
Proof.
  intros Hfresh Hs. unfold item_settled. unfold attempt in *. unfold processItem.
  fold (item_id (now env) i).
  set (newItem := {| id := item_id (now env) i; imageUrl := "" |}).
  cbn [apiKey config setGeneratedItems].
  destruct (generateDroneView (apiKey st) (synthesis env)) as [[raw|m|] lines];
    cbn [fst] in *; [|settle_branch Hfresh|contradiction].
  destruct (resizeImage (browser env) raw _ _) as [img|m|];
    [|settle_branch Hfresh|contradiction].
  cbn [apiKey config setGeneratedItems generatedItems].
  destruct (detectObjectBBox (JSON_other env) (apiKey st) (detection env))
    as [[[ |box2d| ]|m|] lines'];
    cbn [fst] in *; try contradiction; settle_branch Hfresh.
Qed.

(** ** The whole run *)

Lemma attempt_ext st st0 env :
  apiKey st = apiKey st0 -> config st = config st0 -> attempt st env = attempt st0 env.
Proof. unfold attempt. intros -> ->. reflexivity. Qed.

Lemma processed_fresh st0 envs i st t :
  processed st0 envs i st ->
  forall x, In x (generatedItems st) -> id x <> item_id t i.
Proof.
  intros (_ & _ & _ & Hlen & _ & Hitems) x Hx E.
  apply In_nth_error in Hx as [j Hj].
  assert (Hlt : j < i) by (rewrite <- Hlen; apply nth_error_Some; congruence).
  destruct (Hitems j Hlt) as (item & Hn & Hid & _).
  assert (item = x) by congruence. subst item.
  rewrite Hid in E. apply item_id_index in E. lia.
Qed.

Lemma processItem_processed st0 envs i st log :
  processed st0 envs i st ->
  attempt st0 (envs i) <> Pending ->
  exists st' log',
    processItem i (envs i) st log = Continue st' log' /\
    processed st0 envs (S i) st'.
Proof.
  intros P Hs. pose proof P as (Hk & Hc & Ha & Hlen & Hp & Hitems).
  destruct (processItem_settles i (envs i) st log) as
    (st' & log' & item & E & Hk' & Hc' & Ha' & Hp' & Hi' & Hid & Hset).
  - apply (processed_fresh st0 envs i st _ P).
  - rewrite (attempt_ext st st0) by assumption. exact Hs.
  - exists st', log'. split; [exact E|].
    unfold processed. rewrite Hk', Hc', Ha', Hp', Hi', Hc, length_app, Hlen.
    cbn [List.length]. rewrite Nat.add_1_r.
    repeat split; try assumption.
    intros j Hj. destruct (Nat.eq_dec j i) as [->|Hne].
    + exists item. rewrite nth_error_app2, Hlen, Nat.sub_diag by lia.
      repeat split; [assumption|].
      unfold item_settled in *. rewrite <- (attempt_ext st st0) by assumption. exact Hset.
    + destruct (Hitems j ltac:(lia)) as (x & Hn & Hx).
      exists x. rewrite nth_error_app1 by lia. split; assumption.
Qed.

Lemma itemLoop_completes st0 envs :
  forall remaining i st log,
    processed st0 envs i st ->
    (forall j, i <= j < i + remaining -> attempt st0 (envs j) <> Pending) ->
    exists st' log',
      itemLoop envs remaining i st log = Finished st' log' /\
      isProcessing st' = false /\
      processed st0 envs (i + remaining) st'.
Proof.
  induction remaining as [|remaining IH]; intros i st log P Hs.
  - exists (setIsProcessing false st), log. rewrite Nat.add_0_r.
    repeat split; try reflexivity; apply P.
  - cbn [itemLoop].
    destruct (processItem_processed st0 envs i st log P) as (st1 & log1 & E & P1).
    + apply Hs. lia.
    + rewrite E. replace (i + S remaining) with (S i + remaining) by lia.
      apply IH; [exact P1|]. intros j Hj. apply Hs. lia.
Qed.

(** The attempts that never settle: with a credential, those whose
    synthesis request is never answered, whose synthesized image the
    browser cannot decode, or whose detection request is never
    answered. *)
Lemma attempt_pending st env :
  attempt st env = Pending <->
  truthy (apiKey st) = true /\
  (synthesis env = Pending \/
   exists parts data,
     synthesis env = Resolved parts /\ first_image parts = Some data /\
     (image_load (browser env) = LoadError \/
      image_load (browser env) = Loaded /\ detection env = Pending)).
Proof.
  unfold attempt, generateDroneView, detectObjectBBox, resizeImage, rethrow.
  destruct (truthy (apiKey st)); cbn [negb fst];
    [|split; [discriminate | intros [H _]; discriminate]].
  destruct (synthesis env) as [parts|m|]; cbn [fst].
  - destruct (first_image parts) as [data|] eqn:F; cbn [fst].
    + destruct (image_load (browser env)).
      * assert (D : match (if context2d (browser env)
                           then Resolved (toDataURL (browser env))
                           else Resolved ("data:image/jpeg;base64," ++ data)) with
                    | Resolved _ => True
                    | _ => False
                    end) by (destruct (context2d (browser env)); exact I).
        destruct (if context2d (browser env) then _ else _) as [img|m|];
          try contradiction.
        destruct (detection env) as [response|m|]; cbn [fst].
        -- split; [|intros (_ & [H|(p & d & _ & _ & [H|[_ H]])]); discriminate].
           destruct (text response) as [t|]; [|discriminate].
           destruct (truthy t); [|discriminate].
           destruct (JSON_parse (JSON_other env) t) as [m|[ |box| ]]; discriminate.
        -- split; [discriminate|].
           intros (_ & [H|(p & d & _ & _ & [H|[_ H]])]); discriminate.
        -- split; [|reflexivity]. intros _. split; [reflexivity|].
           right. exists parts, data. auto.
      * split; [|reflexivity]. intros _. split; [reflexivity|].
        right. exists parts, data. auto.
    + split; [discriminate|].
      intros (_ & [H|(p & d & E & F' & _)]); [discriminate|]. congruence.
  - split; [discriminate|].
    intros (_ & [H|(p & d & E & _)]); discriminate.
  - split; [|reflexivity]. intros _. split; [reflexivity|]. left. reflexivity.
Qed.

(** C4, as stated, fails: no timeout is enforced, and a request the
    service never answers suspends the run at that item.  With the
    synthesis of the item of index 2 unanswered, the run of five items
    stops at three. *)
Lemma unanswered_request_suspends_run :
  ~ completes_every_item hanging_envs five_items.
Proof.
  intros H.
  assert (S : run_starts five_items) by (repeat split; try reflexivity; discriminate).
  destruct (H S) as (Hlen & _). vm_compute in Hlen. discriminate.
Qed.

(** What that run leaves: two settled items and one that stays
    [generating], a counter at 2 of 5, and the processing flag set. *)
Example generateDataset_suspended :
  exists st' log,
    generateDataset hanging_envs five_items = Stalled st' log /\
    map status (generatedItems st') = [completed; completed; generating] /\
    progress st' = Some (2, 5) /\ isProcessing st' = true /\ log = [].
Proof. eexists. eexists. vm_compute. repeat split. Qed.

(** C4, amended.  When the run starts and every step it awaits settles,
    the run finishes with exactly [count] items and progress
    [{count, count}].  The item of index [i] ends [completed], with its
    box, when the three steps of its own attempt succeed, and [failed],
    with the message of the failing step, otherwise: a failure touches no
    other item and the loop goes on. *)
Theorem generateDataset_completes (envs : nat -> ItemEnv) (st : State) :
  run_starts st ->
  (forall i, i < count (config st) -> attempt st (envs i) <> Pending) ->
  exists st' log,
    generateDataset envs st = Finished st' log /\
    isProcessing st' = false /\
    List.length (generatedItems st') = count (config st) /\
    progress st' = Some (count (config st), count (config st)) /\
    forall i, i < count (config st) ->
      exists item, nth_error (generatedItems st') i = Some item /\
                   (status item = completed \/ status item = failed) /\
                   item_settled st (envs i) item.
Proof.
  intros (Hi & Hk & Ha) Hs. unfold generateDataset.
  rewrite Hi, Hk. cbn [negb orb].
  destruct (selectedAngles st) as [|a angles] eqn:Ea; [contradiction|].
  cbn [List.length Nat.eqb].
  set (st1 := setProgress _ _).
  destruct (itemLoop_completes st envs (count (config st)) 0 st1 []) as
    (st' & log & E & Hproc & _ & _ & _ & Hlen & Hprog & Hitems).
  - unfold processed, st1. cbn. repeat split; try assumption. intros j Hj. lia.
  - intros j Hj. apply Hs. lia.
  - exists st', log. cbn [Nat.add] in *. change (config st1) with (config st).
    repeat split; try assumption.
    intros i Hlt. destruct (Hitems i Hlt) as (item & Hn & _ & Hset).
    exists item. repeat split; try assumption.
    unfold item_settled in Hset. destruct (attempt st (envs i)); intuition.
Qed.

Lemma generateDataset_completes_witness :
  exists st' log,
    generateDataset five_envs five_items = Finished st' log /\
    isProcessing st' = false /\
    List.length (generatedItems st') = 5 /\
    progress st' = Some (5, 5) /\
    forall i, i < 5 ->
      exists item, nth_error (generatedItems st') i = Some item /\
                   (status item = completed \/ status item = failed) /\
                   item_settled five_items (five_envs i) item.
Proof.
  apply (generateDataset_completes five_envs five_items).
  - repeat split; try reflexivity; discriminate.
  - intros i Hi.
    destruct i as [|[|[|[|[|i]]]]]; vm_compute; discriminate.
Defined.

Example generateDataset_one_failure :
  exists st' log,
    generateDataset five_envs five_items = Finished st' log /\
    map status (generatedItems st') = [completed; completed; failed; completed; completed] /\
    map error (generatedItems st') =
      [None; None; Some "No image data returned from model."; None; None] /\
    progress st' = Some (5, 5).
Proof. eexists. eexists. vm_compute. repeat split. Qed.

(** ** The camera angle of every item *)

Lemma sample_member {T} (arr : list T) (random : number) :
  arr <> [] -> (Z.of_nat (List.length arr) < 2 ^ 53)%Z ->
  (0 <=? random)%float = true -> (random <? 1)%float = true ->
  exists a, sample arr random = Some a /\ In a arr.
Proof.
  intros Hne Hlen H0 H1. unfold sample.
  destruct (floor_random_index arr random Hne Hlen H0 H1) as (q & -> & Hq).
  unfold array_get. destruct (Z.leb_spec 0 q) as [_|]; [|lia].
  destruct (nth_error arr (Z.to_nat q)) as [a|] eqn:E.
  - exists a. split; [reflexivity|]. eapply nth_error_In, E.
  - apply nth_error_None in E. lia.
Qed.

Lemma Forall_updateItem (Q : Metadata -> Prop) id' change items :
  (forall x, metadata (change x) = metadata x) ->
  Forall (fun x => Q (metadata x)) items ->
  Forall (fun x => Q (metadata x)) (updateItem id' change items).
Proof.
  intros Hm H. unfold updateItem. apply Forall_map.
  eapply Forall_impl; [|exact H]. cbn. intros x Hx.
  destruct (id x =? id'); [rewrite Hm|]; exact Hx.
Qed.

Ltac metadata_branch Hall :=
  unfold catchError;
  cbn [step_state selectedAngles config generatedItems setProgress setGeneratedItems];
  repeat split;
  repeat (apply Forall_updateItem; [intros; reflexivity|]);
  exact Hall.

Lemma processItem_metadata (Q : Metadata -> Prop) i env st log :
  Forall (fun x => Q (metadata x)) (generatedItems st) ->
  Q {| lighting := resolveAxis (cfg_lighting (config st)) LightingCondition (random_lighting env);
       background := resolveAxis (cfg_background (config st)) BackgroundType (random_background env);
       altitude := resolveAxis (cfg_altitude (config st)) ALTITUDE_OPTIONS (random_altitude env);
       angle := sample (selectedAngles st) (random_angle env);
       weather := resolveAxis (cfg_weather (config st)) WeatherCondition (random_weather env) |} ->
  let st' := step_state (processItem i env st log) in
  selectedAngles st' = selectedAngles st /\ config st' = config st /\
  Forall (fun x => Q (metadata x)) (generatedItems st').
Proof.
  intros Hitems Hnew. cbn zeta. unfold processItem.
  set (newItem := {| id := _; imageUrl := "" |}).
  assert (Hall : Forall (fun x => Q (metadata x)) (generatedItems st ++ [newItem])%list).
  { apply Forall_app. split; [exact Hitems|]. constructor; [exact Hnew | constructor]. }
  cbn [apiKey config setGeneratedItems].
  destruct (generateDroneView (apiKey st) (synthesis env)) as [[raw|m|] lines];
    [|metadata_branch Hall|metadata_branch Hall].
  destruct (resizeImage (browser env) raw _ _) as [img|m|];
    [|metadata_branch Hall|metadata_branch Hall].
  cbn [apiKey setGeneratedItems].
  destruct (detectObjectBBox (JSON_other env) (apiKey st) (detection env))
    as [[[ |box2d| ]|m|] lines'];
    metadata_branch Hall.
Qed.

Lemma itemLoop_metadata (Q : Metadata -> Prop) (angles : list string)
    (envs : nat -> ItemEnv) :
  (forall cfg i,
     Q {| lighting := resolveAxis (cfg_lighting cfg) LightingCondition (random_lighting (envs i));
          background := resolveAxis (cfg_background cfg) BackgroundType (random_background (envs i));
          altitude := resolveAxis (cfg_altitude cfg) ALTITUDE_OPTIONS (random_altitude (envs i));
          angle := sample angles (random_angle (envs i));
          weather := resolveAxis (cfg_weather cfg) WeatherCondition (random_weather (envs i)) |}) ->
  forall remaining i st log,
    selectedAngles st = angles ->
    Forall (fun x => Q (metadata x)) (generatedItems st) ->
    Forall (fun x => Q (metadata x))
           (generatedItems (final_state (itemLoop envs remaining i st log))).
Proof.
  intros Hnew. induction remaining as [|remaining IH]; intros i st log Ha Hitems.
  - exact Hitems.
  - cbn [itemLoop].
    destruct (processItem_metadata Q i (envs i) st log Hitems) as (Ha' & _ & Hitems').
    { rewrite Ha. apply Hnew. }
    destruct (processItem i (envs i) st log) as [st' log'|st' log']; cbn in *.
    + apply IH; congruence.
    + exact Hitems'.
Qed.

(** C9.  In a run that starts, every item that is created, whether the
    run finishes or stalls, records an angle that is a member of the
    selected set and differs from ["Random"], for all draws of
    [Math.random()] (values of [0, 1)). *)
Theorem generateDataset_angles (envs : nat -> ItemEnv) (st : State) :
  run_starts st ->
  ~ In "Random" (selectedAngles st) ->
  (Z.of_nat (List.length (selectedAngles st)) < 2 ^ 32)%Z ->
  (forall i, (0 <=? random_angle (envs i))%float = true /\
             (random_angle (envs i) <? 1)%float = true) ->
  Forall (fun item => angle_from (selectedAngles st) (metadata item))
         (generatedItems (final_state (generateDataset envs st))).
Proof.
  intros (Hi & Hk & Ha) Hr Hlen Hdraw. unfold generateDataset.
  rewrite Hi, Hk. cbn [negb orb].
  destruct (selectedAngles st) as [|a0 angles] eqn:Ea; [contradiction|].
  cbn [List.length Nat.eqb]. rewrite <- Ea in *.
  apply (itemLoop_metadata (angle_from (selectedAngles st)) (selectedAngles st)).
  - intros cfg i. destruct (Hdraw i) as [H0 H1].
    destruct (sample_member (selectedAngles st) (random_angle (envs i))) as (a & E & Hin);
      try assumption.
    + eapply Z.lt_trans; [exact Hlen | reflexivity].
    + exists a. cbn [angle]. repeat split; try assumption.
      intros ->. contradiction.
  - reflexivity.
  - constructor.
Qed.

Lemma generateDataset_angles_witness :
  Forall (fun item => angle_from (selectedAngles five_items) (metadata item))
         (generatedItems (final_state (generateDataset five_envs five_items))).
Proof.
  apply (generateDataset_angles five_envs five_items).
  - repeat split; try reflexivity; discriminate.
  - cbn. intros [H|[H|[]]]; discriminate.
  - reflexivity.
  - intros i. unfold five_envs. destruct (Nat.eqb i 2); split; reflexivity.
Defined.

(** The angle sets the interface can build are duplicate-free subsets of
    [ANGLE_OPTIONS]; none contains ["Random"], and none has more than six
    elements. *)
Lemma toggleAngle_keeps_options a st :
  In a ANGLE_OPTIONS ->
  incl (selectedAngles st) ANGLE_OPTIONS -> NoDup (selectedAngles st) ->
  incl (selectedAngles (toggleAngle a st)) ANGLE_OPTIONS /\
  NoDup (selectedAngles (toggleAngle a st)).
Proof.
  intros Ha Hincl Hnd. unfold toggleAngle. cbn [selectedAngles setSelectedAngles].
  unfold includes. destruct (existsb (String.eqb a) (selectedAngles st)) eqn:E.
  - split.
    + intros x Hx. apply filter_In in Hx as [Hx _]. apply Hincl, Hx.
    + apply NoDup_filter, Hnd.
  - split.
    + intros x Hx. apply in_app_or in Hx as [Hx|[<-|[]]]; auto.
    + apply NoDup_app; [exact Hnd | repeat constructor; intros [] |].
      * intros x Hx [Hax|[]]. subst x.
        assert (existsb (String.eqb a) (selectedAngles st) = true)
          by (apply existsb_exists; exists a; split; [exact Hx | apply String.eqb_refl]).
        congruence.
Qed.

Lemma options_exclude_Random angles :
  incl angles ANGLE_OPTIONS -> NoDup angles ->
  ~ In "Random" angles /\ List.length angles <= 6.
Proof.
  intros Hincl Hnd. split.
  - intros H. apply Hincl in H. cbn in H.
    repeat (destruct H as [H|H]; [discriminate|]). exact H.
  - apply (NoDup_incl_length Hnd Hincl).
Qed.

(* ================================================================== *)
(** * Part X. Further properties of the code                           *)
(* ================================================================== *)

(** Properties of the functions the specification does not single out:
    the helper of the service calls, the handlers and derived values of
    the interface, and what the pipeline and the export guarantee
    together. *)

(** ** [cleanBase64] and the data URLs of the service *)

Lemma strip_prefix_app p s : strip_prefix p (p ++ s) = Some s.
Proof.
  induction p as [|a p IH]; cbn; [reflexivity|]. rewrite Ascii.eqb_refl. exact IH.
Qed.

Lemma strip_prefix_spec p s d : strip_prefix p s = Some d -> s = p ++ d.
Proof.
  revert s. induction p as [|a p IH]; intros s H.
  - cbn in H. injection H as ->. reflexivity.
  - destruct s as [|b s]; [discriminate|]. cbn in H.
    destruct (Ascii.eqb_spec a b) as [->|]; [|discriminate].
    cbn. f_equal. apply IH, H.
Qed.

Lemma prefix_app p s : prefix p (p ++ s) = true.
Proof.
  induction p as [|a p IH]; cbn; [destruct s; reflexivity|].
  destruct (ascii_dec a a); [exact IH | contradiction].
Qed.

Lemma data_url_assoc t payload :
  data_url t payload = ("data:image/" ++ t ++ ";base64,") ++ payload.
Proof. unfold data_url. rewrite !append_assoc. reflexivity. Qed.

Lemma data_url_header t payload : data_url t payload = data_url t "" ++ payload.
Proof. rewrite !data_url_assoc, append_nil_r. reflexivity. Qed.

(** The result is the input, or the input without one known header. *)
Lemma cleanBase64_strips (b64 : string) :
  cleanBase64 b64 = b64 \/
  exists t, In t image_types /\ b64 = data_url t (cleanBase64 b64).
Proof.
  unfold cleanBase64.
  assert (G : forall types,
             replace_prefix types b64 = b64 \/
             exists t, In t types /\ b64 = data_url t (replace_prefix types b64)).
  { induction types as [|t types IH]; [left; reflexivity|].
    cbn [replace_prefix].
    destruct (strip_prefix ("data:image/" ++ t ++ ";base64,") b64) as [d|] eqn:E.
    - right. exists t. split; [left; reflexivity|].
      rewrite data_url_assoc. apply strip_prefix_spec, E.
    - destruct IH as [IH|(t' & Hin & IH)]; [left; exact IH|].
      right. exists t'. split; [right; exact Hin | exact IH]. }
  apply G.
Qed.

(** X1.  [cleanBase64] undoes the data-URL header of the four image types
    of its pattern: from the data URL of a payload, whatever the payload
    is, it returns exactly the payload (one header is removed, even when
    the payload itself starts with another one). *)
Theorem cleanBase64_data_url (t payload : string) :
  In t image_types -> cleanBase64 (data_url t payload) = payload.
Proof.
  intros Hin. rewrite data_url_assoc. unfold cleanBase64, image_types in *.
  cbn in Hin.
  destruct Hin as [<-|[<-|[<-|[<-|[]]]]]; cbn [replace_prefix].
  - rewrite strip_prefix_app. reflexivity.
  - change (strip_prefix ("data:image/" ++ "png" ++ ";base64,")
                         (("data:image/" ++ "jpeg" ++ ";base64,") ++ payload)) with (@None string).
    rewrite strip_prefix_app. reflexivity.
  - change (strip_prefix ("data:image/" ++ "png" ++ ";base64,")
                         (("data:image/" ++ "jpg" ++ ";base64,") ++ payload)) with (@None string).
    change (strip_prefix ("data:image/" ++ "jpeg" ++ ";base64,")
                         (("data:image/" ++ "jpg" ++ ";base64,") ++ payload)) with (@None string).
    rewrite strip_prefix_app. reflexivity.
  - change (strip_prefix ("data:image/" ++ "png" ++ ";base64,")
                         (("data:image/" ++ "webp" ++ ";base64,") ++ payload)) with (@None string).
    change (strip_prefix ("data:image/" ++ "jpeg" ++ ";base64,")
                         (("data:image/" ++ "webp" ++ ";base64,") ++ payload)) with (@None string).
    change (strip_prefix ("data:image/" ++ "jpg" ++ ";base64,")
                         (("data:image/" ++ "webp" ++ ";base64,") ++ payload)) with (@None string).
    rewrite strip_prefix_app. reflexivity.
Qed.

Lemma cleanBase64_data_url_witness :
  cleanBase64 (data_url "webp" "data:image/png;base64,UklGRg==") =
  "data:image/png;base64,UklGRg==".
Proof.
  apply (cleanBase64_data_url "webp" "data:image/png;base64,UklGRg==").
  right. right. right. left. reflexivity.
Defined.

(** X2.  A string that starts with none of the four headers is returned
    unchanged: the data URL of an image of another type (GIF, BMP, SVG)
    goes to the service with its header. *)
Theorem cleanBase64_other_input (b64 : string) :
  known_header b64 = false -> cleanBase64 b64 = b64.
Proof.
  intros H. destruct (cleanBase64_strips b64) as [E|(t & Hin & E)]; [exact E|].
  exfalso. assert (K : known_header b64 = true); [|congruence].
  unfold known_header. apply existsb_exists. exists t. split; [exact Hin|].
  rewrite E, (data_url_header t (cleanBase64 b64)). apply prefix_app.
Qed.

Lemma cleanBase64_other_input_witness :
  cleanBase64 "data:image/gif;base64,R0lGODlh" = "data:image/gif;base64,R0lGODlh".
Proof.
  apply (cleanBase64_other_input "data:image/gif;base64,R0lGODlh"). reflexivity.
Defined.

(** X3.  When [generateDroneView] resolves, the reply held a part with
    non-empty inline data and the result is the JPEG data URL of that
    data, whatever the type the service declared; [cleanBase64] gives the
    data back, and nothing was written to the console. *)
Theorem generateDroneView_result (apiKey : string) (reply : Settled (list Part))
    (url : string) :
  fst (generateDroneView apiKey reply) = Resolved url ->
  (exists parts part data,
     reply = Resolved parts /\ In part parts /\
     inlineData part = Some data /\ data <> "" /\
     url = data_url "jpeg" data /\ cleanBase64 url = data) /\
  snd (generateDroneView apiKey reply) = [].
Proof.
  unfold generateDroneView. destruct (negb (truthy apiKey)); [discriminate|].
  destruct reply as [parts|m|]; try discriminate.
  unfold first_image.
  destruct (find _ parts) as [part|] eqn:F; [|discriminate].
  apply find_some in F as [Hin Hd].
  destruct (inlineData part) as [data|] eqn:D; [|discriminate].
  cbn [fst snd]. intros H. injection H as <-.
  split; [|reflexivity].
  exists parts, part, data.
  split; [reflexivity|]. split; [exact Hin|]. split; [exact D|].
  split; [intros ->; discriminate|]. split; [reflexivity|].
  apply (cleanBase64_data_url "jpeg"). right. left. reflexivity.
Qed.

Lemma generateDroneView_result_witness :
  (exists parts part data,
     synthesis calm_env = Resolved parts /\ In part parts /\
     inlineData part = Some data /\ data <> "" /\
     "data:image/jpeg;base64,QUJD" = data_url "jpeg" data /\
     cleanBase64 "data:image/jpeg;base64,QUJD" = data) /\
  snd (generateDroneView "KEY" (synthesis calm_env)) = [].
Proof.
  apply (generateDroneView_result "KEY" (synthesis calm_env) "data:image/jpeg;base64,QUJD").
  reflexivity.
Defined.

(** ** [getGeminiAspectRatio] on arbitrary numbers *)

Lemma fold_left_choice {A} (f : A -> A -> A) :
  (forall x y, f x y = x \/ f x y = y) ->
  forall l a, In (fold_left f l a) (a :: l).
Proof.
  intros Hf. induction l as [|b l IH]; intros a; cbn [fold_left].
  - left. reflexivity.
  - destruct (IH (f a b)) as [E|Hin].
    + rewrite <- E. destruct (Hf a b) as [-> | ->]; [left | right; left]; reflexivity.
    + right. right. exact Hin.
Qed.

(** X4.  Whatever the two numbers are (zero, negative, infinite or NaN
    included) the result is one of the five tags. *)
Theorem getGeminiAspectRatio_total (width height : number) :
  In (getGeminiAspectRatio width height) ["1:1"; "3:4"; "4:3"; "9:16"; "16:9"].
Proof.
  unfold getGeminiAspectRatio, ratios, reduce.
  match goal with |- context [fold_left ?f ?l ?a] =>
    pose proof (fold_left_choice f
      ltac:(intros x y; unfold closer; destruct (_ <? _)%float; auto) l a) as H
  end.
  cbn [In] in H.
  repeat (destruct H as [<-|H]; [cbn; tauto|]). destruct H.
Qed.

Lemma SFsub_infinite x s :
  SF_is_finite x = true -> SFsub prec emax x (S754_infinity s) = S754_infinity (negb s).
Proof. destruct x; try discriminate; reflexivity. Qed.

(** With a target that is infinite or NaN no entry is closer than
    another. *)
Lemma distance_degenerate t r r' :
  finite t = false -> In r ratios -> In r' ratios ->
  (distance t r <? distance t r')%float = false.
Proof.
  intros Ht Hr Hr'. apply ratios_finite in Hr, Hr'. unfold finite in *.
  unfold distance, Math_abs.
  rewrite FloatAxioms.ltb_spec, !abs_spec, !sub_spec.
  destruct (Prim2SF t) as [s|s| |s m e]; try discriminate.
  - rewrite !SFsub_infinite by assumption. reflexivity.
  - destruct (Prim2SF (value r)); reflexivity.
Qed.

Lemma fold_left_stays {A} (f : A -> A -> A) (l : list A) (a : A) :
  (forall y, In y l -> f a y = a) -> fold_left f l a = a.
Proof.
  induction l as [|b l IH]; intros H; cbn [fold_left]; [reflexivity|].
  rewrite (H b) by (left; reflexivity). apply IH. intros y Hy. apply H. right. exact Hy.
Qed.

Lemma getGeminiAspectRatio_not_finite width height :
  finite (width / height)%float = false -> getGeminiAspectRatio width height = "1:1".
Proof.
  intros H. unfold getGeminiAspectRatio, ratios, reduce.
  rewrite fold_left_stays; [reflexivity|].
  intros y Hy. unfold closer. fold (distance (width / height)%float y).
  match goal with |- context [(_ <? ?d)%float] =>
    change d with (distance (width / height)%float {| key := "1:1"; value := 1.0 |}) end.
  rewrite distance_degenerate; [reflexivity | exact H | | ].
  - right. exact Hy.
  - left. reflexivity.
Qed.

Lemma eqb_zero_spec h : (h =? 0)%float = true -> exists s, Prim2SF h = S754_zero s.
Proof.
  rewrite FloatAxioms.eqb_spec. change (Prim2SF 0) with (S754_zero false).
  destruct (Prim2SF h) as [s|s| |s m e]; cbn; try discriminate; eauto.
  - destruct s; discriminate.
  - destruct s; discriminate.
Qed.

(** X5.  A height of zero, a height that is NaN (an emptied input field)
    or a width that is NaN or infinite make the target ratio infinite or
    NaN; no comparison of the reduction then succeeds and the result is
    the first entry, ["1:1"]. *)
Theorem getGeminiAspectRatio_degenerate (width height : number) :
  (height =? 0)%float = true \/ is_nan height = true \/ finite width = false ->
  getGeminiAspectRatio width height = "1:1".
Proof.
  intros H. apply getGeminiAspectRatio_not_finite. unfold finite in *.
  rewrite div_spec. rewrite is_nan_spec in H.
  destruct H as [H|[H|H]].
  - apply eqb_zero_spec in H as [s ->]. destruct (Prim2SF width); reflexivity.
  - destruct (Prim2SF height); try discriminate. destruct (Prim2SF width); reflexivity.
  - destruct (Prim2SF width); try discriminate;
      destruct (Prim2SF height) as [s'|s'| |s' m' e']; reflexivity.
Qed.

Lemma getGeminiAspectRatio_degenerate_witness : getGeminiAspectRatio 1920 0 = "1:1".
Proof.
  apply (getGeminiAspectRatio_degenerate 1920 0). left. reflexivity.
Defined.

Lemma getGeminiAspectRatio_one width height :
  (width / height)%float = 1%float -> getGeminiAspectRatio width height = "1:1".
Proof.
  intros H. unfold getGeminiAspectRatio. rewrite H. vm_compute. reflexivity.
Qed.

(** X6.  A square resolution, whatever its side (finite and not zero),
    resolves to ["1:1"]: the quotient of a number by itself is exactly 1,
    at distance zero from the first entry. *)
Theorem getGeminiAspectRatio_square (side : number) :
  finite side = true -> (side =? 0)%float = false ->
  getGeminiAspectRatio side side = "1:1".
Proof.
  intros F Z. apply getGeminiAspectRatio_one, div_self; assumption.
Qed.

Lemma getGeminiAspectRatio_square_witness : getGeminiAspectRatio 1000 1000 = "1:1".
Proof.
  apply (getGeminiAspectRatio_square 1000); reflexivity.
Defined.

(** ** [sample] *)

(** X7.  For a draw of [0, 1) and an array of fewer than 2^53 elements,
    [sample] returns an element of the array; it returns [undefined] only
    for the empty array.  The rounding of the product never pushes the
    index to the length of the array. *)
Theorem sample_in_range {T} (arr : list T) (random : number) :
  unit_draw random -> (Z.of_nat (List.length arr) < 2 ^ 53)%Z ->
  match sample arr random with
  | Some a => In a arr
  | None => arr = []
  end.
Proof.
  intros [H0 H1] Hlen. destruct arr as [|x arr].
  - unfold sample, array_get. destruct (Math_floor _) as [i|]; [|reflexivity].
    destruct (0 <=? i)%Z; [|reflexivity]. destruct (Z.to_nat i); reflexivity.
  - destruct (sample_member (x :: arr) random ltac:(discriminate) Hlen H0 H1)
      as (a & -> & Hin). exact Hin.
Qed.

Lemma sample_in_range_witness :
  match sample ANGLE_OPTIONS 0.9999999999999999 with
  | Some a => In a ANGLE_OPTIONS
  | None => ANGLE_OPTIONS = []
  end.
Proof.
  apply (sample_in_range ANGLE_OPTIONS 0.9999999999999999).
  - split; reflexivity.
  - reflexivity.
Defined.

(** ** The handlers of the interface *)

Lemma includes_In arr x : includes arr x = true <-> In x arr.
Proof.
  unfold includes. rewrite existsb_exists. split.
  - intros (y & Hy & E). apply String.eqb_eq in E. now subst y.
  - intros H. exists x. split; [exact H | apply String.eqb_refl].
Qed.

Lemma filter_other_In (angle b : string) l :
  In b (filter (fun a => negb (a =? angle)) l) <-> In b l /\ b <> angle.
Proof.
  rewrite filter_In. split; intros [H1 H2]; (split; [exact H1|]).
  - intros ->. rewrite String.eqb_refl in H2. discriminate.
  - destruct (String.eqb_spec b angle); [contradiction | reflexivity].
Qed.

Lemma filter_absent (angle : string) l :
  ~ In angle l -> filter (fun a => negb (a =? angle)) l = l.
Proof.
  intros H. induction l as [|x l IH]; [reflexivity|]. cbn [filter].
  destruct (String.eqb_spec x angle) as [->|_].
  - destruct H. left. reflexivity.
  - cbn [negb]. f_equal. apply IH. intros Hin. apply H. right. exact Hin.
Qed.

(** X8.  [toggleAngle] flips the membership of the angle it is given and
    of no other: the angle is selected afterwards exactly when it was not
    before, and every other angle is selected exactly when it was. *)
Theorem toggleAngle_flips (angle : string) (st : State) :
  (In angle (selectedAngles (toggleAngle angle st)) <-> ~ In angle (selectedAngles st)) /\
  (forall b, b <> angle ->
     (In b (selectedAngles (toggleAngle angle st)) <-> In b (selectedAngles st))).
Proof.
  unfold toggleAngle. cbn [selectedAngles setSelectedAngles].
  destruct (includes (selectedAngles st) angle) eqn:E.
  - apply includes_In in E. split.
    + rewrite filter_other_In. tauto.
    + intros b Hb. rewrite filter_other_In. tauto.
  - assert (N : ~ In angle (selectedAngles st)).
    { intros H. apply includes_In in H. congruence. }
    split.
    + rewrite in_app_iff. cbn. tauto.
    + intros b Hb. rewrite in_app_iff. cbn. split; [|tauto].
      intros [H|[H|[]]]; [exact H | congruence].
Qed.

(** X9.  Toggling the same angle twice restores the selection as a set.
    The list itself is restored when the angle was not selected; when it
    was, every occurrence of it is removed and one is put back at the
    end. *)
Theorem toggleAngle_twice (angle : string) (st : State) :
  let once := toggleAngle angle st in
  let twice := toggleAngle angle once in
  (~ In angle (selectedAngles st) -> selectedAngles twice = selectedAngles st) /\
  (In angle (selectedAngles st) ->
     selectedAngles twice =
     (filter (fun a => negb (a =? angle)) (selectedAngles st) ++ [angle])%list) /\
  (forall b, In b (selectedAngles twice) <-> In b (selectedAngles st)).
Proof.
  cbn zeta. unfold toggleAngle. cbn [selectedAngles setSelectedAngles].
  destruct (includes (selectedAngles st) angle) eqn:E.
  - pose proof E as Hin. apply includes_In in Hin.
    assert (E' : includes (filter (fun a => negb (a =? angle)) (selectedAngles st)) angle = false).
    { apply not_true_is_false. intros E'.
      apply includes_In, filter_other_In in E'. destruct E' as [_ E']. congruence. }
    rewrite E'. split; [contradiction|]. split; [reflexivity|].
    intros b. rewrite in_app_iff, filter_other_In. cbn.
    destruct (String.eqb_spec b angle) as [->|Hne]; [tauto|].
    split; [intros [[H _]|[H|[]]]; [exact H | congruence] | tauto].
  - assert (N : ~ In angle (selectedAngles st)).
    { intros H. apply includes_In in H. congruence. }
    assert (E' : includes (selectedAngles st ++ [angle]) angle = true).
    { apply includes_In, in_app_iff. right. left. reflexivity. }
    rewrite E'.
    assert (F : filter (fun a => negb (a =? angle)) (selectedAngles st ++ [angle]) =
                selectedAngles st).
    { rewrite filter_app, filter_absent by exact N. cbn. rewrite String.eqb_refl.
      cbn. apply app_nil_r. }
    rewrite F. split; [reflexivity|]. split; [contradiction | tauto].
Qed.

(** X10.  Whatever sequence of angle buttons is clicked on the freshly
    mounted component, the selection stays a duplicate-free list of
    [ANGLE_OPTIONS]: it never holds ["Random"] and never more than six
    angles. *)
Theorem clicks_keep_angles_valid (API_KEY : string) (angles : list string) :
  incl angles ANGLE_OPTIONS ->
  let selected := selectedAngles (clicks angles (initialState API_KEY)) in
  incl selected ANGLE_OPTIONS /\ NoDup selected /\
  ~ In "Random" selected /\ List.length selected <= 6.
Proof.
  intros Hincl. cbn zeta.
  assert (G : forall l st,
             incl l ANGLE_OPTIONS ->
             incl (selectedAngles st) ANGLE_OPTIONS -> NoDup (selectedAngles st) ->
             incl (selectedAngles (clicks l st)) ANGLE_OPTIONS /\
             NoDup (selectedAngles (clicks l st))).
  { induction l as [|a l IH]; intros st Hl Hi Hn; [split; assumption|].
    cbn [clicks fold_left]. fold (clicks l (toggleAngle a st)).
    destruct (toggleAngle_keeps_options a st) as [Hi' Hn']; try assumption.
    - apply Hl. left. reflexivity.
    - apply IH; try assumption. intros x Hx. apply Hl. right. exact Hx. }
  destruct (G angles (initialState API_KEY) Hincl) as [Hi Hn].
  - intros x [<-|[]]. cbn. tauto.
  - repeat constructor. intros [].
  - destruct (options_exclude_Random _ Hi Hn) as [Hr Hlen]. tauto.
Qed.

Lemma clicks_keep_angles_valid_witness :
  let selected :=
    selectedAngles (clicks ["Steep (75°)"; "Standard (45°)"; "Steep (75°)"; "Grazing (15°)"]
                           (initialState "KEY")) in
  incl selected ANGLE_OPTIONS /\ NoDup selected /\
  ~ In "Random" selected /\ List.length selected <= 6.
Proof.
  apply (clicks_keep_angles_valid "KEY"
           ["Steep (75°)"; "Standard (45°)"; "Steep (75°)"; "Grazing (15°)"]).
  intros a Ha. simpl in Ha. simpl.
  repeat (destruct Ha as [Ha|Ha]; [rewrite <- Ha; tauto|]). destruct Ha.
Defined.

(** X11.  An upload touches nothing but the reference image and the
    console.  When the first selected file is read, the reference image
    becomes what the reader returned and nothing is logged; when the
    read fails, the image that was there is kept and the console gets
    the one line ["Upload failed"] with the reader's error; with no file
    selected nothing happens.  Files after the first are ignored, and no
    alert is ever shown. *)
Theorem handleImageUpload_frame (files : option (list FileRead)) (st : State) :
  let st' := fst (handleImageUpload files st) in
  let log := snd (handleImageUpload files st) in
  (apiKey st' = apiKey st /\ objectLabel st' = objectLabel st /\
   classId st' = classId st /\ isProcessing st' = isProcessing st /\
   generatedItems st' = generatedItems st /\ progress st' = progress st /\
   selectedAngles st' = selectedAngles st /\ config st' = config st) /\
  match files with
  | Some (ReadDone url :: _) => referenceImg st' = Some url /\ log = []
  | Some (ReadError err :: _) =>
      referenceImg st' = referenceImg st /\ log = [ConsoleError "Upload failed" err]
  | Some [] | None => referenceImg st' = referenceImg st /\ log = []
  end.
Proof.
  cbn zeta. unfold handleImageUpload.
  destruct files as [[|[url|err] others]|]; cbn; repeat split; reflexivity.
Qed.

(** The class id the handler stores: the parsed number when it is
    positive, zero otherwise. *)
Lemma onClassIdChange_value (parsed : number) (st : State) :
  let c := classId (onClassIdChange parsed st) in
  is_nan c = false /\ (0 <=? c)%float = true /\
  ((0 <? parsed)%float = true -> c = parsed) /\
  ((0 <? parsed)%float = false -> c = 0%float).
Proof.
  cbn zeta. unfold onClassIdChange. cbn [classId setClassId].
  unfold number_or.
  destruct (is_nan parsed) eqn:N.
  - cbn [orb]. rewrite is_nan_spec in N.
    assert (L : (0 <? parsed)%float = false).
    { rewrite FloatAxioms.ltb_spec. destruct (Prim2SF parsed); try discriminate. reflexivity. }
    rewrite L. repeat split; try reflexivity. discriminate.
  - cbn [orb]. destruct (parsed =? 0)%float eqn:Z.
    + assert (L : (0 <? parsed)%float = false).
      { apply eqb_zero_spec in Z as [s Z]. rewrite FloatAxioms.ltb_spec, Z. reflexivity. }
      rewrite L. repeat split; try reflexivity. discriminate.
    + unfold Math_max. rewrite N. cbn [orb]. change (is_nan 0) with false. cbn [orb].
      destruct (0 <? parsed)%float eqn:L.
      * repeat split; try discriminate.
        -- exact N.
        -- apply ltb_leb, L.
      * assert (G : (parsed <? 0)%float = true).
        { rewrite FloatAxioms.ltb_spec in *. rewrite FloatAxioms.eqb_spec in Z.
          rewrite is_nan_spec in N. change (Prim2SF 0) with (S754_zero false) in *.
          destruct (Prim2SF parsed) as [s|s| |s m e]; try discriminate;
            destruct s; try discriminate; reflexivity. }
        rewrite G. repeat split; try reflexivity. discriminate.
Qed.

Lemma integer_of_sign x z :
  integer_of x = Some z -> ((0 <? x)%float = true <-> (0 < z)%Z).
Proof.
  unfold integer_of. rewrite FloatAxioms.ltb_spec. change (Prim2SF 0) with (S754_zero false).
  destruct (Prim2SF x) as [s|s| |s m e]; try discriminate.
  - intros H. injection H as <-. cbn. split; [discriminate | lia].
  - destruct (integer_value m e) as [n|] eqn:I; [|discriminate].
    intros H. assert (Hz : z = if s then (- n)%Z else n) by congruence. clear H.
    assert (Pn : (0 < n)%Z).
    { unfold integer_value in I. destruct (Z.leb_spec 0 e).
      - assert (n = Zpos m * 2 ^ e)%Z by congruence.
        assert (0 < 2 ^ e)%Z by (apply Z.pow_pos_nonneg; lia).
        subst n. apply Z.mul_pos_pos; lia.
      - destruct (Z.eqb_spec (Zpos m mod 2 ^ (- e)) 0) as [Z0|]; [|discriminate].
        assert (En : n = (Zpos m / 2 ^ (- e))%Z) by congruence.
        assert (Pe : (0 < 2 ^ (- e))%Z) by (apply Z.pow_pos_nonneg; lia).
        pose proof (Z.div_mod (Zpos m) (2 ^ (- e)) ltac:(lia)) as D.
        rewrite Z0, <- En in D.
        assert (0 <= n)%Z by (rewrite En; apply Z.div_pos; lia).
        destruct (Z.eq_dec n 0) as [Q|Q]; [rewrite Q in D; lia | lia]. }
    destruct s; cbn; split; intros H; first [discriminate | lia | reflexivity].
Qed.

(** X12.  Whatever [parseInt] returns, the class id stored by the field's
    handler is a number that is not negative: NaN (an emptied field),
    zeros and negative numbers give 0, a positive number is stored as it
    is.  When [parseInt] returns an integer [z] the class id is the
    integer [max 0 z]. *)
Theorem onClassIdChange_nonnegative (parsed : number) (st : State) :
  let c := classId (onClassIdChange parsed st) in
  is_nan c = false /\ (0 <=? c)%float = true /\
  (is_nan parsed = true -> c = 0%float) /\
  (forall z, integer_of parsed = Some z -> integer_of c = Some (Z.max 0 z)).
Proof.
  cbn zeta. destruct (onClassIdChange_value parsed st) as (Hn & H0 & Hpos & Hneg).
  split; [exact Hn|]. split; [exact H0|]. split.
  - intros N. apply Hneg. rewrite FloatAxioms.ltb_spec. rewrite is_nan_spec in N.
    destruct (Prim2SF parsed); try discriminate. reflexivity.
  - intros z Hz. pose proof (integer_of_sign parsed z Hz) as S.
    destruct (0 <? parsed)%float eqn:L.
    + rewrite (Hpos eq_refl), Hz. f_equal. destruct S as [S _]. specialize (S eq_refl). lia.
    + rewrite (Hneg eq_refl). change (integer_of 0) with (Some 0%Z). f_equal.
      destruct (Z_lt_le_dec 0 z) as [P|P]; [|lia].
      destruct S as [_ S]. specialize (S P). discriminate.
Qed.

(** ** The pipeline: what every run leaves *)

Ltac pass_branch Hfresh :=
  unfold catchError, setProgress, setGeneratedItems, failure_report;
  cbn [fst snd apiKey referenceImg objectLabel classId isProcessing config
       selectedAngles progress generatedItems];
  repeat rewrite updateItem_last by (first [exact Hfresh | reflexivity]);
  rewrite ?app_nil_r, <- ?app_assoc;
  reflexivity.

(** The three updates by identifier of a pass reach the item the pass
    created, and no other, as soon as no earlier item bears its id. *)
Lemma processItem_pass i env st log :
  (forall x, In x (generatedItems st) -> id x <> item_id (now env) i) ->
  processItem i env st log = pass i env st log.
Proof.
  intros Hfresh.
  unfold pass, outcome, attempt, processItem, newItem, reporting_service.
  fold (item_id (now env) i).
  cbn [apiKey config setGeneratedItems].
  unfold generateDroneView, detectObjectBBox, rethrow.
  destruct (negb (truthy (apiKey st))); [pass_branch Hfresh|].
  destruct (synthesis env) as [parts|m|]; [|pass_branch Hfresh|pass_branch Hfresh].
  destruct (first_image parts) as [data|]; [|pass_branch Hfresh].
  cbn [fst snd]. unfold resizeImage.
  destruct (image_load (browser env)); [|pass_branch Hfresh].
  destruct (context2d (browser env));
    (destruct (detection env) as [response|m|]; [|pass_branch Hfresh|pass_branch Hfresh]);
    (destruct (text response) as [t|]; [|pass_branch Hfresh]);
    (destruct (truthy t); [|pass_branch Hfresh]);
    (destruct (JSON_parse (JSON_other env) t) as [m|[ |box2d| ]]; pass_branch Hfresh).
Qed.

Lemma outcome_id st env i : id (outcome st env i) = item_id (now env) i.
Proof.
  unfold outcome.
  destruct (fst (generateDroneView _ _)) as [raw|m|]; try reflexivity.
  destruct (resizeImage _ _ _ _) as [img|m|]; try reflexivity.
  destruct (fst (detectObjectBBox _ _ _)) as [[ |box2d| ]|m|]; reflexivity.
Qed.

Lemma outcome_metadata st env i : metadata (outcome st env i) = metadata (newItem st env i).
Proof.
  unfold outcome.
  destruct (fst (generateDroneView _ _)) as [raw|m|]; try reflexivity.
  destruct (resizeImage _ _ _ _) as [img|m|]; try reflexivity.
  destruct (fst (detectObjectBBox _ _ _)) as [[ |box2d| ]|m|]; reflexivity.
Qed.

Lemma outcome_ext st st0 env i :
  apiKey st = apiKey st0 -> config st = config st0 ->
  selectedAngles st = selectedAngles st0 ->
  outcome st env i = outcome st0 env i.
Proof. unfold outcome, newItem. intros -> -> ->. reflexivity. Qed.

Lemma outcome_settled st env i :
  attempt st env <> Pending -> item_settled st env (outcome st env i).
Proof.
  unfold item_settled, attempt, outcome.
  destruct (fst (generateDroneView _ _)) as [raw|m|]; [|intros _; split; reflexivity|contradiction].
  destruct (resizeImage _ _ _ _) as [img|m|]; [|intros _; split; reflexivity|contradiction].
  destruct (fst (detectObjectBBox _ _ _)) as [[ |box2d| ]|m|]; try contradiction;
    intros _; repeat split; reflexivity.
Qed.

Lemma outcome_in_flight st env i :
  attempt st env = Pending -> in_flight (outcome st env i).
Proof.
  unfold in_flight, attempt, outcome.
  destruct (fst (generateDroneView _ _)) as [raw|m|]; try discriminate;
    [|intros _; repeat split; left; split; reflexivity].
  destruct (resizeImage _ _ _ _) as [img|m|]; try discriminate;
    [|intros _; repeat split; left; split; reflexivity].
  destruct (fst (detectObjectBBox _ _ _)) as [[ |box2d| ]|m|]; try discriminate.
  intros _. repeat split. right. reflexivity.
Qed.

Lemma outcome_shape st env i : item_shape (outcome st env i).
Proof.
  unfold item_shape, outcome.
  destruct (fst (generateDroneView _ _)) as [raw|m|]; cbn; try (repeat split; congruence).
  destruct (resizeImage _ _ _ _) as [img|m|]; cbn; try (repeat split; congruence).
  destruct (fst (detectObjectBBox _ _ _)) as [[ |box2d| ]|m|]; cbn; repeat split; congruence.
Qed.

Lemma outcomes_fresh st0 envs n t i :
  n <= i ->
  forall x, In x (map (fun j => outcome st0 (envs j) j) (seq 0 n)) ->
            id x <> item_id t i.
Proof.
  intros Hn x Hx E. apply in_map_iff in Hx as (j & <- & Hj).
  apply in_seq in Hj. rewrite outcome_id in E. apply item_id_index in E. lia.
Qed.

Lemma outcomes_shape st envs n :
  Forall item_shape (map (fun j => outcome st (envs j) j) (seq 0 n)).
Proof. apply Forall_map, Forall_forall. intros j _. apply outcome_shape. Qed.

Lemma seq_snoc n : seq 0 (S n) = (seq 0 n ++ [n])%list.
Proof. rewrite seq_S. reflexivity. Qed.

Lemma outcomes_ids_distinct st envs n :
  NoDup (map id (map (fun j => outcome st (envs j) j) (seq 0 n))).
Proof.
  rewrite map_map. induction n as [|n IH]; [constructor|].
  rewrite seq_snoc, map_app. cbn [map].
  apply NoDup_app; [exact IH | repeat constructor; intros [] |].
  intros x Hx [E|[]]. apply in_map_iff in Hx as (j & Ej & Hj).
  apply in_seq in Hj. rewrite <- Ej, !outcome_id in E.
  apply item_id_index in E. lia.
Qed.

Lemma nth_error_outcomes {A} (f : nat -> A) n j :
  j < n -> nth_error (map f (seq 0 n)) j = Some (f j).
Proof.
  intros H. rewrite nth_error_map, nth_error_seq.
  destruct (Nat.ltb_spec j n); [reflexivity | lia].
Qed.

Lemma reporting_service_ext st st0 env :
  apiKey st = apiKey st0 -> reporting_service st env = reporting_service st0 env.
Proof. unfold reporting_service. intros ->. reflexivity. Qed.

Lemma pass_after st0 envs i st log :
  after st0 envs i i st log ->
  match pass i (envs i) st log with
  | Continue st' log' =>
      attempt st0 (envs i) <> Pending /\ after st0 envs (S i) (S i) st' log' /\
      isProcessing st' = isProcessing st
  | Suspended st' log' =>
      attempt st0 (envs i) = Pending /\ after st0 envs (S i) i st' log' /\
      isProcessing st' = isProcessing st
  end.
Proof.
  intros (Hk & Hr & Ho & Hc & Ha & Hg & Hi & Hp & Hl). unfold pass.
  rewrite (attempt_ext st st0) by assumption.
  rewrite (outcome_ext st st0) by assumption.
  rewrite (reporting_service_ext st st0) by assumption.
  assert (Hitems : (generatedItems st ++ [outcome st0 (envs i) i])%list =
                   map (fun j => outcome st0 (envs j) j) (seq 0 (S i))).
  { rewrite seq_snoc, map_app, Hi. reflexivity. }
  assert (Hlog : forall extra, failure_log st0 envs i = extra ->
                 (log ++ extra)%list = flat_map (failure_log st0 envs) (seq 0 (S i))).
  { intros extra <-. rewrite seq_snoc, flat_map_app, Hl. cbn [flat_map].
    rewrite app_nil_r. reflexivity. }
  unfold failure_log in Hlog.
  destruct (attempt st0 (envs i)) as [b|m|] eqn:E.
  - split; [discriminate|]. split; [|reflexivity].
    unfold after. cbn [apiKey referenceImg objectLabel classId selectedAngles config
                       generatedItems progress setProgress setGeneratedItems].
    rewrite Hg, Nat.add_1_r, <- (app_nil_r log), (Hlog [] eq_refl).
    repeat split; assumption.
  - split; [discriminate|]. split; [|reflexivity].
    unfold after. cbn [apiKey referenceImg objectLabel classId selectedAngles config
                       generatedItems progress setProgress setGeneratedItems].
    rewrite Hg, Nat.add_1_r, (Hlog _ eq_refl).
    repeat split; assumption.
  - split; [reflexivity|]. split; [|reflexivity].
    unfold after. cbn [apiKey referenceImg objectLabel classId selectedAngles config
                       generatedItems progress setProgress setGeneratedItems].
    repeat split; assumption.
Qed.

(** What the loop leaves.  When it finishes, all the remaining items were
    created and counted and no attempt was left pending; when it stalls,
    it does so at the first pending attempt. *)
Lemma itemLoop_after st0 envs :
  forall remaining i st log,
    after st0 envs i i st log ->
    match itemLoop envs remaining i st log with
    | Finished st' log' =>
        after st0 envs (i + remaining) (i + remaining) st' log' /\
        isProcessing st' = false /\
        forall j, i <= j < i + remaining -> attempt st0 (envs j) <> Pending
    | Stalled st' log' =>
        exists k, i <= k < i + remaining /\
          attempt st0 (envs k) = Pending /\
          (forall j, i <= j < k -> attempt st0 (envs j) <> Pending) /\
          after st0 envs (S k) k st' log' /\
          isProcessing st' = isProcessing st
    end.
Proof.
  induction remaining as [|remaining IH]; intros i st log A.
  - cbn [itemLoop]. rewrite Nat.add_0_r. split; [exact A|]. split; [reflexivity|].
    intros j Hj. lia.
  - cbn [itemLoop]. rewrite processItem_pass.
    2:{ destruct A as (_ & _ & _ & _ & _ & _ & Hi & _). rewrite Hi.
        apply outcomes_fresh. lia. }
    pose proof (pass_after st0 envs i st log A) as P.
    destruct (pass i (envs i) st log) as [st1 log1|st1 log1].
    + destruct P as (Hs & A1 & Hproc).
      specialize (IH (S i) st1 log1 A1).
      destruct (itemLoop envs remaining (S i) st1 log1) as [st' log'|st' log'].
      * destruct IH as (A' & Hf & Hall).
        replace (i + S remaining) with (S i + remaining) by lia.
        split; [exact A'|]. split; [exact Hf|].
        intros j Hj. destruct (Nat.eq_dec j i) as [->|]; [exact Hs | apply Hall; lia].
      * destruct IH as (k & Hk & Hp & Hbefore & A' & Hproc').
        exists k. split; [lia|]. split; [exact Hp|]. split; [|split; [exact A' | congruence]].
        intros j Hj. destruct (Nat.eq_dec j i) as [->|]; [exact Hs | apply Hbefore; lia].
    + destruct P as (Hp & A1 & Hproc).
      exists i. split; [lia|]. split; [exact Hp|]. split; [|split; [exact A1 | exact Hproc]].
      intros j Hj. lia.
Qed.

(** The loop as [generateDataset] enters it. *)
Lemma generateDataset_enters envs st :
  run_starts st ->
  exists st1,
    generateDataset envs st = itemLoop envs (count (config st)) 0 st1 [] /\
    after st envs 0 0 st1 [] /\ isProcessing st1 = true.
Proof.
  intros (Hi & Hk & Ha). unfold generateDataset. rewrite Hi, Hk. cbn [negb orb].
  destruct (selectedAngles st) as [|a angles] eqn:Ea; [contradiction|].
  cbn [List.length Nat.eqb].
  eexists. split; [reflexivity|]. split; [|reflexivity].
  unfold after. cbn. rewrite Ea. repeat split; reflexivity.
Qed.

(** State and log of a run that starts, whether it finishes or stalls:
    [n] items, of which the last is not counted when the run stalled on
    it. *)
Lemma generateDataset_items envs st :
  run_starts st ->
  exists n p, p <= n <= S p /\
    after st envs n p (final_state (generateDataset envs st))
                      (run_log (generateDataset envs st)) /\
    (n = S p -> attempt st (envs p) = Pending) /\
    (forall j, j < p -> attempt st (envs j) <> Pending).
Proof.
  intros Hs.
  destruct (generateDataset_enters envs st Hs) as (st1 & -> & A & Hproc).
  pose proof (itemLoop_after st envs (count (config st)) 0 st1 [] A) as L.
  destruct (itemLoop envs (count (config st)) 0 st1 []) as [st' log|st' log].
  - destruct L as (A' & _ & Hall). cbn [Nat.add] in *.
    exists (count (config st)), (count (config st)).
    split; [lia|]. split; [exact A'|]. split; [lia|].
    intros j Hj. apply Hall. lia.
  - destruct L as (k & Hk & Hp & Hbefore & A' & _).
    exists (S k), k. split; [lia|]. split; [exact A'|]. split; [intros _; exact Hp|].
    intros j Hj. apply Hbefore. lia.
Qed.

Lemma five_items_start : run_starts five_items.
Proof. repeat split; try reflexivity; discriminate. Qed.

(** X13.  A run stalls at the first item one of whose awaited steps never
    settles (an image the browser cannot decode, for [resizeImage]).  The
    items before it are settled as in a run that finishes; the item
    itself stays [generating] or [detecting], without box or error; the
    progress counter stays at its index; no later item is created; and
    the processing flag stays set, so the Start button stays disabled. *)
Theorem generateDataset_stalls (envs : nat -> ItemEnv) (st : State) (k : nat) :
  run_starts st -> k < count (config st) -> first_pending st envs k ->
  exists st' log,
    generateDataset envs st = Stalled st' log /\
    isProcessing st' = true /\ startDisabled st' = true /\
    progress st' = Some (k, count (config st)) /\
    List.length (generatedItems st') = S k /\
    (forall j, j < k ->
       exists item, nth_error (generatedItems st') j = Some item /\
                    item_settled st (envs j) item) /\
    exists item, nth_error (generatedItems st') k = Some item /\ in_flight item.
Proof.
  intros Hs Hk [Hp Hbefore].
  destruct (generateDataset_enters envs st Hs) as (st1 & -> & A & Hproc).
  pose proof (itemLoop_after st envs (count (config st)) 0 st1 [] A) as L.
  destruct (itemLoop envs (count (config st)) 0 st1 []) as [st' log|st' log].
  - destruct L as (_ & _ & Hall). exfalso. apply (Hall k); [lia | exact Hp].
  - destruct L as (k' & Hk' & Hp' & Hbefore' & A' & Hproc').
    assert (k' = k).
    { destruct (Nat.lt_trichotomy k' k) as [Hlt|[E|Hgt]]; [|exact E|].
      - destruct (Hbefore k' Hlt Hp').
      - destruct (Hbefore' k ltac:(lia) Hp). }
    subst k'. destruct A' as (_ & _ & _ & _ & _ & _ & Hi & Hpr & _).
    exists st', log. split; [reflexivity|].
    assert (Ht : isProcessing st' = true) by congruence.
    split; [exact Ht|]. split; [unfold startDisabled; rewrite Ht; reflexivity|].
    split; [exact Hpr|]. rewrite Hi.
    split; [rewrite length_map, length_seq; reflexivity|]. split.
    + intros j Hj. exists (outcome st (envs j) j).
      split; [apply (nth_error_outcomes (fun j => outcome st (envs j) j)); lia|].
      apply outcome_settled, Hbefore, Hj.
    + exists (outcome st (envs k) k).
      split; [apply (nth_error_outcomes (fun j => outcome st (envs j) j)); lia|].
      apply outcome_in_flight, Hp.
Qed.

Lemma generateDataset_stalls_witness :
  exists st' log,
    generateDataset stalling_envs five_items = Stalled st' log /\
    isProcessing st' = true /\ startDisabled st' = true /\
    progress st' = Some (2, 5) /\
    List.length (generatedItems st') = 3 /\
    (forall j, j < 2 ->
       exists item, nth_error (generatedItems st') j = Some item /\
                    item_settled five_items (stalling_envs j) item) /\
    exists item, nth_error (generatedItems st') 2 = Some item /\ in_flight item.
Proof.
  apply (generateDataset_stalls stalling_envs five_items 2).
  - exact five_items_start.
  - simpl. lia.
  - split; [reflexivity|].
    intros j Hj. destruct j as [|[|j]]; [vm_compute; discriminate.. | lia].
Defined.

(** X14.  In the collection a run leaves, finished or stalled, no item is
    [pending]; a [completed] item carries a box and no error, a [failed]
    one an error and no box, one that is [generating] or [detecting]
    neither, and a [generating] one no image yet. *)
Theorem generateDataset_item_shape (envs : nat -> ItemEnv) (st : State) :
  run_starts st ->
  Forall item_shape (generatedItems (final_state (generateDataset envs st))).
Proof.
  intros Hs. destruct (generateDataset_items envs st Hs) as (n & p & _ & A & _).
  destruct A as (_ & _ & _ & _ & _ & _ & -> & _). apply outcomes_shape.
Qed.

Lemma generateDataset_item_shape_witness :
  Forall item_shape (generatedItems (final_state (generateDataset stalling_envs five_items))).
Proof.
  apply (generateDataset_item_shape stalling_envs five_items). exact five_items_start.
Defined.

(** X15.  The identifiers of the items of a run are pairwise distinct,
    also when the clock returns the same time for several items: the
    index suffix tells them apart. *)
Theorem generateDataset_ids_distinct (envs : nat -> ItemEnv) (st : State) :
  run_starts st ->
  NoDup (map id (generatedItems (final_state (generateDataset envs st)))).
Proof.
  intros Hs. destruct (generateDataset_items envs st Hs) as (n & p & _ & A & _).
  destruct A as (_ & _ & _ & _ & _ & _ & -> & _). apply outcomes_ids_distinct.
Qed.

Lemma generateDataset_ids_distinct_witness :
  NoDup (map id (generatedItems (final_state (generateDataset (fun _ => calm_env) five_items)))).
Proof.
  apply (generateDataset_ids_distinct (fun _ => calm_env) five_items). exact five_items_start.
Defined.

(** X16.  [generateDataset] writes the processing flag, the collection
    and the progress indicator only: credential, reference image, label,
    class id, angle selection and configuration are the same after any
    call, started or not, finished or stalled. *)
Theorem generateDataset_frame (envs : nat -> ItemEnv) (st : State) :
  let st' := final_state (generateDataset envs st) in
  apiKey st' = apiKey st /\ referenceImg st' = referenceImg st /\
  objectLabel st' = objectLabel st /\ classId st' = classId st /\
  selectedAngles st' = selectedAngles st /\ config st' = config st.
Proof.
  cbn zeta.
  destruct (falsy_image (referenceImg st) || negb (truthy (apiKey st)))%bool eqn:G.
  - unfold generateDataset. rewrite G. cbn. repeat split; reflexivity.
  - destruct (selectedAngles st) as [|a angles] eqn:Ea.
    + unfold generateDataset. rewrite G, Ea. cbn. rewrite Ea. repeat split; reflexivity.
    + apply orb_false_elim in G as [G1 G2]. apply negb_false_iff in G2.
      assert (Hs : run_starts st).
      { repeat split; try assumption. rewrite Ea. discriminate. }
      destruct (generateDataset_items envs st Hs) as (n & p & _ & A & _).
      rewrite <- Ea. destruct A as (A1 & A2 & A3 & A4 & A5 & A6 & _).
      repeat split; assumption.
Qed.

Lemma failure_line_outcome st envs j :
  match error (outcome st (envs j) j) with
  | Some message => failure_report (reporting_service st (envs j)) j message
  | None => []
  end = failure_log st envs j.
Proof.
  unfold failure_log, attempt, outcome.
  destruct (fst (generateDroneView _ _)) as [raw|m|]; try reflexivity.
  destruct (resizeImage _ _ _ _) as [img|m|]; try reflexivity.
  destruct (fst (detectObjectBBox _ _ _)) as [[ |box2d| ]|m|]; reflexivity.
Qed.

Lemma combine_map_self {A B} (f : A -> B) (l : list A) :
  combine l (map f l) = map (fun x => (x, f x)) l.
Proof. induction l as [|x l IH]; cbn; [reflexivity | now rewrite IH]. Qed.

Lemma flat_map_map {A B C} (f : A -> B) (g : B -> list C) (l : list A) :
  flat_map g (map f l) = flat_map (fun x => g (f x)) l.
Proof. induction l as [|x l IH]; cbn; [reflexivity | now rewrite IH]. Qed.

Lemma failure_lines_outcomes st envs n :
  failure_lines st envs (map (fun j => outcome st (envs j) j) (seq 0 n)) =
  flat_map (failure_log st envs) (seq 0 n).
Proof.
  unfold failure_lines. rewrite length_map, length_seq, combine_map_self, flat_map_map.
  apply flat_map_ext. intros j. apply failure_line_outcome.
Qed.

(** X17.  What a run that starts writes to the console is, for each
    failed item in the order of the items, the line of the service in
    which the error arose (["Generation failed:"] or ["Detection
    failed:"], with the error), when it arose in one, and then the line
    ["Failed to generate item j"] with the same error, which is the one
    the item records.  Nothing is logged for a completed item or for the
    item a run stalls on, and nothing is shown in an alert. *)
Theorem generateDataset_failures_logged (envs : nat -> ItemEnv) (st : State) :
  run_starts st ->
  run_log (generateDataset envs st) =
  failure_lines st envs (generatedItems (final_state (generateDataset envs st))) /\
  forall message, ~ In (Alert message) (run_log (generateDataset envs st)).
Proof.
  intros Hs. destruct (generateDataset_items envs st Hs) as (n & p & Hn & A & Hlast & _).
  destruct A as (_ & _ & _ & _ & _ & _ & -> & _ & ->).
  split.
  - rewrite failure_lines_outcomes.
    assert (C : n = p \/ n = S p) by lia. destruct C as [->| ->]; [reflexivity|].
    rewrite seq_snoc, flat_map_app. cbn [flat_map]. unfold failure_log at 3.
    rewrite (Hlast eq_refl), !app_nil_r. reflexivity.
  - intros message H. apply in_flat_map in H as (j & _ & H). unfold failure_log in H.
    destruct (attempt st (envs j)) as [b|m|]; try contradiction.
    unfold failure_report in H. apply in_app_or in H as [H|[H|[]]]; [|discriminate].
    destruct (reporting_service st (envs j)); [|contradiction].
    destruct H as [H|[]]. discriminate.
Qed.

Lemma generateDataset_failures_logged_witness :
  run_log (generateDataset failing_envs five_items) =
  failure_lines five_items failing_envs
    (generatedItems (final_state (generateDataset failing_envs five_items))) /\
  forall message, ~ In (Alert message) (run_log (generateDataset failing_envs five_items)).
Proof.
  apply (generateDataset_failures_logged failing_envs five_items). exact five_items_start.
Defined.

(** The console of a run of five items in which the synthesis of the
    first returns no image and the detection reply of the second is cut
    short. *)
Example generateDataset_console :
  run_log (generateDataset failing_envs five_items) =
  [ ConsoleError "Generation failed:" "No image data returned from model.";
    ConsoleError "Failed to generate item 0" "No image data returned from model.";
    ConsoleError "Detection failed:" "Unexpected token";
    ConsoleError "Failed to generate item 1" "Unexpected token" ].
Proof. vm_compute. reflexivity. Qed.

Lemma resolveAxis_resolved configured values random :
  values <> [] -> (Z.of_nat (List.length values) < 2 ^ 53)%Z ->
  ~ In "Random" values -> unit_draw random ->
  resolved_axis configured values (resolveAxis configured values random).
Proof.
  intros Hne Hlen Hr [H0 H1]. unfold resolved_axis, resolveAxis.
  destruct (String.eqb_spec configured "Random") as [E|E].
  - destruct (sample_member values random Hne Hlen H0 H1) as (a & -> & Hin).
    exists a. repeat split; [|exact Hin]. intros ->. contradiction.
  - exists configured. repeat split. exact E.
Qed.

(** X18.  For all draws of [Math.random()], every item of a run records,
    for lighting, background, altitude and weather, the configured value
    when the configuration names one and a value of the axis when it says
    ["Random"]: the sentinel itself, or [undefined], is never recorded. *)
Theorem generateDataset_axes (envs : nat -> ItemEnv) (st : State) :
  run_starts st ->
  (forall i, unit_draw (random_lighting (envs i)) /\
             unit_draw (random_background (envs i)) /\
             unit_draw (random_altitude (envs i)) /\
             unit_draw (random_weather (envs i))) ->
  Forall (fun item => axes_resolved (config st) (metadata item))
         (generatedItems (final_state (generateDataset envs st))).
Proof.
  intros Hs Hdraw. destruct (generateDataset_items envs st Hs) as (n & p & _ & A & _).
  destruct A as (_ & _ & _ & _ & _ & _ & -> & _).
  apply Forall_map, Forall_forall. intros j _. rewrite outcome_metadata.
  destruct (Hdraw j) as (D1 & D2 & D3 & D4).
  unfold axes_resolved, newItem. cbn [metadata lighting background altitude weather].
  repeat split; apply resolveAxis_resolved; try assumption;
    try discriminate; try reflexivity;
    cbn; intros H; repeat (destruct H as [H|H]; [discriminate|]); exact H.
Qed.

Lemma generateDataset_axes_witness :
  Forall (fun item => axes_resolved (config five_items) (metadata item))
         (generatedItems (final_state (generateDataset five_envs five_items))).
Proof.
  apply (generateDataset_axes five_envs five_items).
  - exact five_items_start.
  - intros i. unfold five_envs. destruct (Nat.eqb i 2); repeat split; reflexivity.
Defined.

Lemma no_alert_in_failures st envs l m :
  ~ In (Alert m) (flat_map (failure_log st envs) l).
Proof.
  intros H. apply in_flat_map in H as (j & _ & H). unfold failure_log in H.
  destruct (attempt st (envs j)) as [b|message|]; try contradiction.
  unfold failure_report in H. apply in_app_or in H as [H|[H|[]]]; [|discriminate].
  destruct (reporting_service st (envs j)); [|contradiction].
  destruct H as [H|[]]. discriminate.
Qed.

(** X19.  A click on the Start button while it is enabled never raises
    the alert of the empty angle selection.  Either the credential is
    missing, and the click does nothing at all, with no message, or the
    run starts. *)
Theorem start_button_never_alerts (envs : nat -> ItemEnv) (st : State) :
  startDisabled st = false ->
  (forall message, ~ In (Alert message) (run_log (generateDataset envs st))) /\
  (truthy (apiKey st) = false -> generateDataset envs st = Finished st []) /\
  (truthy (apiKey st) = true -> run_starts st).
Proof.
  unfold startDisabled. intros H.
  apply orb_false_elim in H as [H Ha]. apply orb_false_elim in H as [_ Hi].
  assert (Hne : selectedAngles st <> []).
  { intros E. rewrite E in Ha. discriminate. }
  split; [|split].
  - intros message. destruct (truthy (apiKey st)) eqn:Hk.
    + assert (Hs : run_starts st) by (repeat split; assumption).
      destruct (generateDataset_items envs st Hs) as (n & p & _ & A & _).
      destruct A as (_ & _ & _ & _ & _ & _ & _ & _ & ->).
      apply no_alert_in_failures.
    + unfold generateDataset. rewrite Hi, Hk. cbn. tauto.
  - intros Hk. unfold generateDataset. rewrite Hi, Hk. reflexivity.
  - intros Hk. repeat split; assumption.
Qed.

Lemma start_button_never_alerts_witness :
  (forall message, ~ In (Alert message) (run_log (generateDataset five_envs five_items))) /\
  (truthy (apiKey five_items) = false ->
   generateDataset five_envs five_items = Finished five_items []) /\
  (truthy (apiKey five_items) = true -> run_starts five_items).
Proof.
  apply (start_button_never_alerts five_envs five_items). reflexivity.
Defined.

(** ** The export *)

Lemma split_free sep s : free_of sep s = true -> split sep s = [s].
Proof.
  induction s as [|c s IH]; cbn; [reflexivity|].
  intros H. apply andb_prop in H as [H1 H2]. apply negb_true_iff in H1.
  rewrite H1, (IH H2). reflexivity.
Qed.

Lemma split_app sep a b :
  free_of sep a = true -> split sep (a ++ String sep "" ++ b) = a :: split sep b.
Proof.
  change (String sep "" ++ b) with (String sep b).
  induction a as [|c a IH]; cbn.
  - intros _. rewrite Ascii.eqb_refl. reflexivity.
  - intros H. apply andb_prop in H as [H1 H2]. apply negb_true_iff in H1.
    rewrite H1, (IH H2). reflexivity.
Qed.

Lemma free_of_app sep a b :
  free_of sep (a ++ b) = (free_of sep a && free_of sep b)%bool.
Proof.
  induction a as [|c a IH]; cbn; [reflexivity|]. rewrite IH. apply andb_assoc.
Qed.

Lemma digits_free sep s :
  is_digit sep = false -> all_digits s = true -> free_of sep s = true.
Proof.
  intros Hs. induction s as [|c s IH]; cbn; [reflexivity|].
  intros H. apply andb_prop in H as [H1 H2]. rewrite (IH H2), andb_true_r.
  apply negb_true_iff. destruct (Ascii.eqb_spec c sep) as [->|]; [congruence | reflexivity].
Qed.

Lemma fixed_width_digits f k : all_digits (fixed_width f k) = true.
Proof.
  revert k. induction f as [|f IH]; intros k; cbn [fixed_width]; [reflexivity|].
  rewrite all_digits_app, IH. cbn [all_digits andb].
  destruct (digit_spec (k mod 10)) as [D _]; [apply N.mod_lt; lia|].
  rewrite D. reflexivity.
Qed.

Lemma six_decimals_free n : free_of " " (six_decimals n) = true.
Proof.
  unfold six_decimals. rewrite !free_of_app.
  rewrite (digits_free " " (dec _)) by (reflexivity || apply dec_digits_only).
  rewrite (digits_free " " (fixed_width _ _)) by (reflexivity || apply fixed_width_digits).
  reflexivity.
Qed.

Lemma append_cancel_r (a b s : string) : a ++ s = b ++ s -> a = b.
Proof.
  revert b. induction a as [|c a IH]; intros [|c' b] H.
  - reflexivity.
  - apply (f_equal String.length) in H. cbn in H. rewrite length_append in H. lia.
  - apply (f_equal String.length) in H. cbn in H. rewrite length_append in H. lia.
  - cbn in H. injection H as -> H. f_equal. apply IH, H.
Qed.

Lemma image_path_inj a b : "images/" ++ a ++ ".jpg" = "images/" ++ b ++ ".jpg" -> a = b.
Proof. cbn. intros H. injection H as H. apply append_cancel_r in H. exact H. Qed.

Lemma label_path_inj a b : "labels/" ++ a ++ ".txt" = "labels/" ++ b ++ ".txt" -> a = b.
Proof. cbn. intros H. injection H as H. apply append_cancel_r in H. exact H. Qed.

Lemma item_paths_distinct items :
  NoDup (map id items) -> NoDup (flat_map item_paths items).
Proof.
  induction items as [|x items IH]; intros Hnd; [constructor|].
  cbn [map] in Hnd. apply NoDup_cons_iff in Hnd as [Hx Hnd].
  assert (Hfresh : forall y, In y items -> id y <> id x).
  { intros y Hy E. apply Hx. rewrite <- E. apply in_map, Hy. }
  cbn [flat_map item_paths app]. constructor; [|constructor; [|apply IH, Hnd]].
  - intros [H|H]; [discriminate|].
    apply in_flat_map in H as (y & Hy & [H|[H|[]]]); [|discriminate].
    apply image_path_inj in H. apply (Hfresh y Hy H).
  - intros H. apply in_flat_map in H as (y & Hy & [H|[H|[]]]); [discriminate|].
    apply label_path_inj in H. apply (Hfresh y Hy H).
Qed.

(** Filtering a collection keeps its identifiers distinct. *)
Lemma filter_ids_distinct (keep : GeneratedData -> bool) (items : list GeneratedData) :
  NoDup (map id items) -> NoDup (map id (filter keep items)).
Proof.
  induction items as [|x items IH]; intros H; [constructor|].
  cbn [map] in H. apply NoDup_cons_iff in H as [Hx H]. cbn [filter].
  destruct (keep x); [|apply IH, H]. cbn [map]. constructor; [|apply IH, H].
  intros Hin. apply Hx. apply in_map_iff in Hin as (y & E & Hy).
  apply filter_In in Hy as [Hy _]. rewrite <- E. apply in_map, Hy.
Qed.

Lemma filter_exportable_shape items :
  Forall item_shape items ->
  filter exportable items = filter (fun i => Status_eqb (status i) completed) items.
Proof.
  intros H. apply filter_ext_in. intros item Hin.
  rewrite Forall_forall in H. specialize (H item Hin).
  unfold exportable, item_shape in *.
  destruct (status item); cbn; try reflexivity.
  destruct (bbox item); [reflexivity | destruct H as [H _]; contradiction].
Qed.

(** A box an item carries comes from a detection reply whose text parsed
    to a value with readable fields. *)
Lemma detectObjectBBox_object other k reply box :
  fst (detectObjectBBox other k reply) = Resolved (JsonObject box) ->
  exists response t,
    reply = Resolved response /\ text response = Some t /\
    JSON_parse other t = Value (JsonObject box).
Proof.
  unfold detectObjectBBox. destruct (negb (truthy k)); [discriminate|].
  destruct reply as [response|m|]; try discriminate.
  destruct (text response) as [t|] eqn:T; [|discriminate].
  destruct (truthy t); [|discriminate].
  destruct (JSON_parse other t) as [m|json] eqn:P; [discriminate|].
  cbn [fst]. intros H. injection H as ->. eauto.
Qed.

Lemma outcome_bbox st env i b :
  bbox (outcome st env i) = Some b ->
  exists response t box,
    detection env = Resolved response /\ text response = Some t /\
    JSON_parse (JSON_other env) t = Value (JsonObject box) /\
    b = convertGeminiBoxToYolo box (cfg_width (config st)) (cfg_height (config st)).
Proof.
  unfold outcome.
  destruct (fst (generateDroneView _ _)) as [raw|m|]; try discriminate.
  destruct (resizeImage _ _ _ _) as [img|m|]; try discriminate.
  destruct (fst (detectObjectBBox _ _ _)) as [[ |box2d| ]|m|] eqn:D; try discriminate.
  cbn. intros H. injection H as <-.
  apply detectObjectBBox_object in D as (response & t & E & T & P).
  exists response, t, box2d. auto.
Qed.

Lemma convert_finite_in_unit box w h :
  finite_box box ->
  let r := convertGeminiBoxToYolo box w h in
  in_unit (x_center r) /\ in_unit (y_center r) /\ in_unit (width r) /\ in_unit (height r).
Proof.
  intros (F1 & F2 & F3 & F4). rewrite convert_unfold.
  destruct (1 <? ymax box)%float; cbn zeta.
  - apply centerBox_in_unit; apply div_1000_finite; assumption.
  - rewrite !div_one. apply centerBox_in_unit; assumption.
Qed.

Section ArchiveOfRun.
Variable shortest_repr : number -> string.

(** X20.  After a run, finished or stalled, the Download button is
    disabled exactly when [handleDownloadZip] would write nothing: the
    button counts the completed items, the handler those that also carry
    a box, and after a run every completed item does. *)
Theorem download_button_after_run (envs : nat -> ItemEnv) (st : State) :
  run_starts st ->
  let st' := final_state (generateDataset envs st) in
  downloadDisabled st' = true <-> handleDownloadZip shortest_repr st' = None.
Proof.
  intros Hs. cbn zeta. unfold downloadDisabled, handleDownloadZip.
  destruct (generateDataset_items envs st Hs) as (n & p & _ & A & _).
  destruct A as (_ & _ & _ & _ & _ & _ & -> & _).
  rewrite (filter_exportable_shape _ (outcomes_shape st envs n)).
  destruct (Nat.eqb _ 0); split; intros H; try reflexivity; discriminate.
Qed.

(** X21.  The files of the archive of a run have pairwise distinct
    paths: no image or label overwrites another one, or the manifest. *)
Theorem exported_paths_distinct (envs : nat -> ItemEnv) (st : State) :
  run_starts st ->
  NoDup (exported_paths shortest_repr (final_state (generateDataset envs st))).
Proof.
  intros Hs. unfold exported_paths, handleDownloadZip.
  destruct (generateDataset_items envs st Hs) as (n & p & _ & A & _).
  destruct A as (_ & _ & _ & _ & _ & _ & -> & _).
  set (items := map _ (seq 0 n)).
  destruct (Nat.eqb _ 0); [constructor|].
  cbn [entries]. change (file_paths (?a :: ?b :: File ?p ?c ?f :: ?r))
    with (p :: file_paths r).
  rewrite item_entries_paths
    by (apply Forall_forall; intros x Hx; apply filter_In in Hx; tauto).
  constructor.
  - intros H. apply in_flat_map in H as (y & _ & [H|[H|[]]]); discriminate.
  - apply item_paths_distinct, filter_ids_distinct, outcomes_ids_distinct.
Qed.

(** X22.  The image file of an exported item holds what follows the first
    comma of its URL: for a data URL whose header and payload hold no
    comma, exactly the payload. *)
Theorem itemEntries_image_payload (st : State) (item : GeneratedData)
    (header payload : string) :
  imageUrl item = header ++ "," ++ payload ->
  free_of "," header = true -> free_of "," payload = true ->
  nth_error (itemEntries shortest_repr st item) 0 =
  Some (File ("images/" ++ id item ++ ".jpg") (Some payload) true).
Proof.
  intros E Hh Hp. unfold itemEntries. cbn [nth_error]. rewrite E.
  rewrite (split_app "," header payload Hh), (split_free "," payload Hp). reflexivity.
Qed.

(** X23.  For a class id that is an integer [c] with [0 <= c < 2^53 - 1]
    the manifest declares [nc: c + 1] and names the class [c], both in
    decimal: the class of the label lines is below the declared number of
    classes. *)
Theorem dataYaml_class_count (st : State) (c : N) :
  integer_of (classId st) = Some (Z.of_N c) -> (Z.of_N c + 1 < 2 ^ 53)%Z ->
  dataYaml shortest_repr st =
  "
train: ../train/images
val: ../valid/images

nc: " ++ dec (c + 1) ++ "
names: {" ++ dec c ++ ": '" ++ objectLabel st ++ "'}
    ".
Proof.
  intros Hc Hlt. unfold dataYaml.
  rewrite (Number_toString_integer shortest_repr (classId st) c Hc).
  2:{ apply N2Z.inj_lt. rewrite N2Z.inj_pow. change (Z.of_N 2) with 2%Z.
      change (Z.of_N 53) with 53%Z. lia. }
  rewrite (Number_toString_integer shortest_repr (classId st + 1)%float (c + 1)).
  - reflexivity.
  - rewrite N2Z.inj_add. apply add_one_integer; [exact Hc | lia | exact Hlt].
  - apply N2Z.inj_lt. rewrite N2Z.inj_pow, N2Z.inj_add. change (Z.of_N 2) with 2%Z.
    change (Z.of_N 53) with 53%Z. change (Z.of_N 1) with 1%Z. lia.
Qed.

(** X24.  A label line splits at its spaces into exactly the five printed
    fields: for a class id that is an integer of [0, 2^53) and fields of
    [0, 1] no field holds a space, so a reader of the line gets back the
    class id and the four numbers as they were printed. *)
Theorem formatYoloLine_tokens (classId : number) (c : N) (bbox : BoundingBox) :
  integer_of classId = Some (Z.of_N c) -> (c < 2 ^ 53)%N ->
  in_unit (x_center bbox) -> in_unit (y_center bbox) ->
  in_unit (width bbox) -> in_unit (height bbox) ->
  split " " (formatYoloLine shortest_repr classId bbox) =
  [ Number_toString shortest_repr classId;
    toFixed shortest_repr (x_center bbox) 6; toFixed shortest_repr (y_center bbox) 6;
    toFixed shortest_repr (width bbox) 6; toFixed shortest_repr (height bbox) 6 ].
Proof.
  intros Hc Hlt H1 H2 H3 H4.
  destruct (toFixed_in_unit shortest_repr _ H1) as (xc & _ & _ & E1).
  destruct (toFixed_in_unit shortest_repr _ H2) as (yc & _ & _ & E2).
  destruct (toFixed_in_unit shortest_repr _ H3) as (w & _ & _ & E3).
  destruct (toFixed_in_unit shortest_repr _ H4) as (h & _ & _ & E4).
  unfold formatYoloLine.
  rewrite (Number_toString_integer shortest_repr classId c Hc Hlt), E1, E2, E3, E4.
  rewrite (split_app " " (dec c)) by (apply digits_free; [reflexivity | apply dec_digits_only]).
  rewrite !(split_app " " (six_decimals _)) by apply six_decimals_free.
  rewrite split_free by apply six_decimals_free. reflexivity.
Qed.

Lemma toFixed_nan v f : is_nan v = true -> toFixed shortest_repr v f = "NaN".
Proof.
  rewrite is_nan_spec. unfold toFixed. destruct (Prim2SF v); try discriminate. reflexivity.
Qed.

Lemma label_files_items st items :
  label_files (flat_map (itemEntries shortest_repr st) items) =
  flat_map (fun item => match bbox item with
                        | Some b => [("labels/" ++ id item ++ ".txt",
                                      Some (formatYoloLine shortest_repr (classId st) b))]
                        | None => []
                        end) items.
Proof.
  induction items as [|item items IH]; [reflexivity|].
  cbn [flat_map]. unfold label_files in *. rewrite flat_map_app, IH. f_equal.
  unfold itemEntries. destruct (bbox item); reflexivity.
Qed.

Lemma formatYoloLine_yolo_line classId c b :
  integer_of classId = Some (Z.of_N c) -> (c < 2 ^ 53)%N ->
  in_unit (x_center b) -> in_unit (y_center b) -> in_unit (width b) -> in_unit (height b) ->
  yolo_line c (formatYoloLine shortest_repr classId b).
Proof.
  intros Hc Hlt H1 H2 H3 H4.
  destruct (toFixed_in_unit shortest_repr _ H1) as (xc & B1 & _ & E1).
  destruct (toFixed_in_unit shortest_repr _ H2) as (yc & B2 & _ & E2).
  destruct (toFixed_in_unit shortest_repr _ H3) as (w & B3 & _ & E3).
  destruct (toFixed_in_unit shortest_repr _ H4) as (h & B4 & _ & E4).
  exists xc, yc, w, h. split; [auto|].
  unfold formatYoloLine.
  rewrite (Number_toString_integer shortest_repr classId c Hc Hlt), E1, E2, E3, E4. reflexivity.
Qed.

(** X25.  End to end: when the detection replies that parse carry finite
    numbers and the class id is an integer of [0, 2^53), every label file
    of the archive of a run holds one well-formed line, the class id
    followed by four values of [0, 1] with six decimals. *)
Theorem exported_labels_valid (envs : nat -> ItemEnv) (st : State) (c : N) :
  run_starts st -> finite_detections envs ->
  integer_of (classId st) = Some (Z.of_N c) -> (c < 2 ^ 53)%N ->
  Forall (fun file => exists line, snd file = Some line /\ yolo_line c line)
         (exported_labels shortest_repr (final_state (generateDataset envs st))).
Proof.
  intros Hs Hfin Hc Hlt. unfold exported_labels, handleDownloadZip.
  destruct (generateDataset_items envs st Hs) as (n & p & _ & A & _).
  destruct A as (_ & _ & _ & Hclass & _ & Hcfg & -> & _).
  destruct (Nat.eqb _ 0); [constructor|]. cbn [entries].
  change (label_files (?a :: ?b :: ?y :: ?r)) with (label_files r).
  rewrite label_files_items. apply Forall_forall. intros file Hin.
  apply in_flat_map in Hin as (item & Hitem & Hin).
  apply filter_In in Hitem as [Hitem _].
  apply in_map_iff in Hitem as (j & <- & _).
  destruct (bbox (outcome st (envs j) j)) as [b|] eqn:B; [|destruct Hin].
  destruct Hin as [<-|[]]. cbn [snd].
  apply outcome_bbox in B as (response & t & box & D & T & P & ->).
  eexists. split; [reflexivity|]. rewrite Hclass.
  destruct (convert_finite_in_unit box (cfg_width (config st)) (cfg_height (config st))
              (Hfin j response t box D T P)) as (H1 & H2 & H3 & H4).
  apply formatYoloLine_yolo_line; assumption.
Qed.

End ArchiveOfRun.

Lemma download_button_after_run_witness :
  let st' := final_state (generateDataset stalling_envs five_items) in
  downloadDisabled st' = true <-> handleDownloadZip (fun _ => "") st' = None.
Proof.
  apply (download_button_after_run (fun _ => "") stalling_envs five_items).
  exact five_items_start.
Defined.

Lemma exported_paths_distinct_witness :
  NoDup (exported_paths (fun _ => "") (final_state (generateDataset five_envs five_items))).
Proof.
  apply (exported_paths_distinct (fun _ => "") five_envs five_items).
  exact five_items_start.
Defined.

Lemma itemEntries_image_payload_witness :
  nth_error (itemEntries (fun _ => "") five_items first_item) 0 =
  Some (File ("images/" ++ id first_item ++ ".jpg") (Some "UkVTSVpFRA==") true).
Proof.
  apply (itemEntries_image_payload (fun _ => "") five_items first_item
           "data:image/jpeg;base64" "UkVTSVpFRA=="); reflexivity.
Defined.

Lemma dataYaml_class_count_witness :
  dataYaml (fun _ => "") five_items =
  "
train: ../train/images
val: ../valid/images

nc: " ++ dec 1 ++ "
names: {" ++ dec 0 ++ ": '" ++ objectLabel five_items ++ "'}
    ".
Proof.
  apply (dataYaml_class_count (fun _ => "") five_items 0); reflexivity.
Defined.

Lemma formatYoloLine_tokens_witness :
  split " " (formatYoloLine (fun _ => "") 2
               {| x_center := 0.5; y_center := 0.5; width := 0.25; height := 0.5 |}) =
  [ Number_toString (fun _ => "") 2;
    toFixed (fun _ => "") 0.5 6; toFixed (fun _ => "") 0.5 6;
    toFixed (fun _ => "") 0.25 6; toFixed (fun _ => "") 0.5 6 ].
Proof.
  apply (formatYoloLine_tokens (fun _ => "") 2 2
           {| x_center := 0.5; y_center := 0.5; width := 0.25; height := 0.5 |});
    (reflexivity || (split; reflexivity)).
Defined.

Lemma five_envs_finite : finite_detections five_envs.
Proof.
  intros i response t box D T P.
  assert (E : detection (five_envs i) = detection calm_env /\
              JSON_other (five_envs i) = no_other_json).
  { unfold five_envs. destruct (Nat.eqb i 2); split; reflexivity. }
  destruct E as [E1 E2]. rewrite E1 in D. rewrite E2 in P.
  unfold calm_env in D. cbn [detection] in D. injection D as <-.
  cbn [text] in T. injection T as <-.
  vm_compute in P. injection P as <-. repeat split; reflexivity.
Qed.

Lemma exported_labels_valid_witness :
  Forall (fun file => exists line, snd file = Some line /\ yolo_line 0 line)
         (exported_labels (fun _ => "") (final_state (generateDataset five_envs five_items))).
Proof.
  apply (exported_labels_valid (fun _ => "") five_envs five_items 0).
  - exact five_items_start.
  - exact five_envs_finite.
  - reflexivity.
  - reflexivity.
Defined.

(** ** Degenerate detections *)

Lemma div_nan a b : is_nan a = true -> is_nan (a / b)%float = true.
Proof.
  rewrite !is_nan_spec, div_spec. destruct (Prim2SF a); try discriminate. reflexivity.
Qed.

Lemma sub_nan a b :
  is_nan a = true \/ is_nan b = true -> is_nan (a - b)%float = true.
Proof.
  rewrite !is_nan_spec, sub_spec.
  destruct (Prim2SF a), (Prim2SF b); intros [H|H]; try discriminate; reflexivity.
Qed.

Lemma add_nan a b :
  is_nan a = true \/ is_nan b = true -> is_nan (a + b)%float = true.
Proof.
  rewrite !is_nan_spec, add_spec.
  destruct (Prim2SF a), (Prim2SF b); intros [H|H]; try discriminate; reflexivity.
Qed.

Lemma clamp01_nan v : is_nan v = true -> is_nan (clamp01 v) = true.
Proof.
  intros H. unfold clamp01.
  assert (E : Math_min 1 v = nan) by (unfold Math_min; rewrite H, orb_true_r; reflexivity).
  rewrite E. reflexivity.
Qed.

Lemma centerBox_nan_x ymin xmin ymax xmax :
  is_nan xmin = true \/ is_nan xmax = true ->
  is_nan (x_center (centerBox ymin xmin ymax xmax)) = true /\
  is_nan (width (centerBox ymin xmin ymax xmax)) = true.
Proof.
  intros H. unfold centerBox. cbn [x_center width].
  assert (W : is_nan (xmax - xmin)%float = true) by (apply sub_nan; tauto).
  split; apply clamp01_nan; [|exact W].
  apply add_nan. right. apply div_nan, W.
Qed.

Lemma centerBox_nan_y ymin xmin ymax xmax :
  is_nan ymin = true \/ is_nan ymax = true ->
  is_nan (y_center (centerBox ymin xmin ymax xmax)) = true /\
  is_nan (height (centerBox ymin xmin ymax xmax)) = true.
Proof.
  intros H. unfold centerBox. cbn [y_center height].
  assert (W : is_nan (ymax - ymin)%float = true) by (apply sub_nan; tauto).
  split; apply clamp01_nan; [|exact W].
  apply add_nan. right. apply div_nan, W.
Qed.

(** X26.  The clamp does not remove NaN.  A detection in which [xmin] or
    [xmax] is NaN (a field missing from the reply) gives a NaN centre and
    a NaN width, which the label line prints as the text [NaN]; likewise
    for [ymin], [ymax] and the vertical fields. *)
Theorem convert_propagates_nan (shortest_repr : number -> string)
    (box : Box2D) (imgWidth imgHeight : number) :
  let r := convertGeminiBoxToYolo box imgWidth imgHeight in
  (is_nan (xmin box) = true \/ is_nan (xmax box) = true ->
   is_nan (x_center r) = true /\ is_nan (width r) = true /\
   toFixed shortest_repr (x_center r) 6 = "NaN" /\
   toFixed shortest_repr (width r) 6 = "NaN") /\
  (is_nan (ymin box) = true \/ is_nan (ymax box) = true ->
   is_nan (y_center r) = true /\ is_nan (height r) = true /\
   toFixed shortest_repr (y_center r) 6 = "NaN" /\
   toFixed shortest_repr (height r) 6 = "NaN").
Proof.
  cbn zeta. rewrite convert_unfold. cbn zeta.
  set (scale := if (1 <? ymax box)%float then 1000%float else 1%float).
  split; intros H.
  - destruct (centerBox_nan_x (ymin box / scale) (xmin box / scale)
                              (ymax box / scale) (xmax box / scale)) as [A B].
    { destruct H as [H|H]; [left | right]; apply div_nan, H. }
    auto using toFixed_nan.
  - destruct (centerBox_nan_y (ymin box / scale) (xmin box / scale)
                              (ymax box / scale) (xmax box / scale)) as [A B].
    { destruct H as [H|H]; [left | right]; apply div_nan, H. }
    auto using toFixed_nan.
Qed.

Lemma clamp01_nonpos v : (v <=? 0)%float = true -> clamp01 v = 0%float.
Proof.
  intros L. destruct (leb_not_nan _ _ L) as [N _].
  assert (L1 : (v <=? 1)%float = true) by (apply (leb_trans v 0 1); [exact L | reflexivity]).
  unfold clamp01.
  assert (E : Math_min 1 v = v).
  { unfold Math_min. rewrite N. change (is_nan 1) with false. cbn [orb].
    rewrite (leb_ltb_false _ _ L1). change (get_sign 1) with false.
    destruct (v <? 1)%float; reflexivity. }
  rewrite E. unfold Math_max. rewrite N. change (is_nan 0) with false. cbn [orb].
  rewrite (leb_ltb_false _ _ L). change (get_sign 0) with false.
  destruct (v <? 0)%float; reflexivity.
Qed.

Lemma scaled_finite box field :
  finite field = true -> finite (field / scale_of box)%float = true.
Proof.
  intros F. unfold scale_of. destruct (1 <? ymax box)%float.
  - apply div_1000_finite, F.
  - rewrite div_one. exact F.
Qed.

(** X27.  An inverted or empty box gets a size of exactly zero, never a
    negative one: when, after scaling, [xmax] is not above [xmin] the
    width is 0, and when [ymax] is not above [ymin] the height is 0.  On
    the 0-1 scale, where scaling changes nothing, the comparison is the
    one of the numbers of the detection. *)
Theorem convert_inverted_box (box : Box2D) (imgWidth imgHeight : number) :
  finite_box box ->
  let r := convertGeminiBoxToYolo box imgWidth imgHeight in
  ((xmax box / scale_of box <=? xmin box / scale_of box)%float = true ->
   width r = 0%float) /\
  ((ymax box / scale_of box <=? ymin box / scale_of box)%float = true ->
   height r = 0%float) /\
  ((ymax box <=? 1)%float = true ->
   ((xmax box <=? xmin box)%float = true -> width r = 0%float) /\
   ((ymax box <=? ymin box)%float = true -> height r = 0%float)).
Proof.
  intros (F1 & F2 & F3 & F4). cbn zeta. rewrite convert_unfold. fold (scale_of box).
  cbn zeta. unfold centerBox. cbn [width height].
  fold (clamp01 (xmax box / scale_of box - xmin box / scale_of box)).
  fold (clamp01 (ymax box / scale_of box - ymin box / scale_of box)).
  split; [|split].
  - intros L. apply clamp01_nonpos, sub_nonpos; auto using scaled_finite.
  - intros L. apply clamp01_nonpos, sub_nonpos; auto using scaled_finite.
  - intros Hy. unfold scale_of. rewrite (leb_ltb_false _ _ Hy), !div_one.
    split; intros L; apply clamp01_nonpos, sub_nonpos; assumption.
Qed.

Lemma convert_inverted_box_witness :
  let r := convertGeminiBoxToYolo malformed_box 640 640 in
  ((xmax malformed_box / scale_of malformed_box <=?
    xmin malformed_box / scale_of malformed_box)%float = true ->
   width r = 0%float) /\
  ((ymax malformed_box / scale_of malformed_box <=?
    ymin malformed_box / scale_of malformed_box)%float = true ->
   height r = 0%float) /\
  ((ymax malformed_box <=? 1)%float = true ->
   ((xmax malformed_box <=? xmin malformed_box)%float = true -> width r = 0%float) /\
   ((ymax malformed_box <=? ymin malformed_box)%float = true -> height r = 0%float)).
Proof.
  apply (convert_inverted_box malformed_box 640 640). repeat split; reflexivity.
Defined.

(** ** The reply of the detection request *)

(** What [JSON_parse] reads by itself: [null] and an object of number
    members, with the white space and the number grammar of JSON; a text
    with unquoted keys, a number with a leading zero or a trailing comma
    is not one of them. *)
Example flat_json_texts :
  flat_json " null " = Some JsonNull /\
  flat_json (box_text "0.25" " -1e2" "1E+2 " "0.5e-1") =
    Some (JsonObject {| ymin := 0.25; xmin := -100; ymax := 100; xmax := 0.05 |}) /\
  flat_json ("{" ++ field "ymin" "7" ++ "}") =
    Some (JsonObject {| ymin := 7; xmin := nan; ymax := nan; xmax := nan |}) /\
  flat_json "{ymin:100,xmin:200,ymax:500,xmax:600}" = None /\
  flat_json ("{" ++ field "ymin" "01" ++ "}") = None /\
  flat_json ("{" ++ field "ymin" "1" ++ ",}") = None /\
  flat_json "[100,200,500,600]" = None.
Proof. vm_compute. repeat split; reflexivity. Qed.

Lemma digits_app s c rest acc k :
  all_digits s = true -> is_digit c = false ->
  digits (s ++ String c rest) acc k =
  (decimal_value acc s, k + String.length s, String c rest).
Proof.
  revert acc k. induction s as [|x s IH]; intros acc k Hs Hc.
  - cbn [append digits decimal_value String.length]. rewrite Hc, Nat.add_0_r. reflexivity.
  - cbn [all_digits] in Hs. apply andb_prop in Hs as [Hx Hs].
    cbn [append digits decimal_value String.length]. rewrite Hx, IH by assumption.
    replace (S k + String.length s) with (k + S (String.length s)) by lia. reflexivity.
Qed.

Lemma digit_not_zero d : (0 < d < 10)%N -> Ascii.eqb (digit d) "0" = false.
Proof.
  intros H.
  assert (C : (d = 1 \/ d = 2 \/ d = 3 \/ d = 4 \/ d = 5 \/ d = 6 \/ d = 7 \/
               d = 8 \/ d = 9)%N) by lia.
  repeat (destruct C as [->|C]; [reflexivity|]). subst d. reflexivity.
Qed.

(** The decimal rendering of a positive integer starts with a digit that
    is not 0. *)
Lemma dec_head n :
  n <> 0%N -> exists d s, (0 < d < 10)%N /\ dec n = String (digit d) s.
Proof.
  induction n as [n IH] using (well_founded_induction N.lt_wf_0). intros Hn.
  destruct (N.lt_ge_cases n 10) as [S|L].
  - exists n, "". split; [lia | apply dec_small, S].
  - destruct (IH (n / 10)%N) as (d & s & Hd & E).
    + apply N.div_lt; lia.
    + intros Z. apply N.div_small_iff in Z; lia.
    + exists d, (s ++ String (digit (n mod 10)) ""). split; [exact Hd|].
      rewrite (dec_large n L), E. reflexivity.
Qed.

Lemma is_digit_cases c :
  is_digit c = true -> Ascii.eqb c "-" = false /\ is_space c = false.
Proof.
  unfold is_digit, is_space. intros H. apply andb_prop in H as [A B].
  apply Nat.leb_le in A, B. split.
  - destruct (Ascii.eqb_spec c "-") as [->|]; [cbn in A; lia | reflexivity].
  - repeat (apply orb_false_intro); apply Nat.eqb_neq; lia.
Qed.

Lemma dec_first n : exists c s, dec n = String c s /\ is_digit c = true.
Proof.
  pose proof (proj1 (dec_digits_only n)) as A. pose proof (length_dec_pos n) as L.
  destruct (dec n) as [|c s]; [cbn in L; lia|].
  cbn [all_digits] in A. apply andb_prop in A as [A _]. eauto.
Qed.

Lemma skip_spaces_keep c r : is_space c = false -> skip_spaces (String c r) = String c r.
Proof. intros H. cbn [skip_spaces]. rewrite H. reflexivity. Qed.

Lemma skip_spaces_dec n r : skip_spaces (dec n ++ r) = dec n ++ r.
Proof.
  destruct (dec_first n) as (c & s & -> & D). cbn [append].
  apply skip_spaces_keep, is_digit_cases, D.
Qed.

Lemma json_sign_dec n r : json_sign (dec n ++ r) = (false, dec n ++ r).
Proof.
  destruct (dec_first n) as (c & s & -> & D). cbn [append json_sign].
  destruct (is_digit_cases c D) as [-> _]. reflexivity.
Qed.

Lemma json_int_dec n c rest :
  is_digit c = false -> json_int (dec n ++ String c rest) = Some (n, String c rest).
Proof.
  intros Hc. destruct (N.eq_dec n 0) as [->|Hn]; [reflexivity|].
  pose proof (digits_app (dec n) c rest 0 0 (proj1 (dec_digits_only n)) Hc) as D.
  rewrite (proj2 (dec_digits_only n)) in D.
  destruct (dec_head n Hn) as (d & s & Hd & E). rewrite E in *.
  cbn [append] in *. unfold json_int. rewrite (digit_not_zero d Hd).
  destruct (digit_spec d) as [Hdig _]; [lia|]. rewrite Hdig, D. reflexivity.
Qed.

Lemma json_number_dec n c rest :
  (n < 10 ^ 20)%N -> ends_number c = true ->
  json_number (dec n ++ String c rest) = Some (integer_literal n, String c rest).
Proof.
  intros Hn Hc. unfold ends_number in Hc.
  apply andb_prop in Hc as [Hc HE]. apply andb_prop in Hc as [Hc He].
  apply andb_prop in Hc as [Hd Hp]. apply negb_true_iff in Hd, Hp, He, HE.
  unfold json_number. rewrite json_sign_dec, (json_int_dec n c rest Hd).
  unfold json_frac. rewrite Hp. unfold json_exp. rewrite He, HE. cbn [orb].
  apply N.ltb_lt in Hn. rewrite Hn. reflexivity.
Qed.

Lemma json_key_plain k r :
  plain_key k = true -> json_key (k ++ String quote r) = Some (k, r).
Proof.
  induction k as [|c k IH]; intros H.
  - cbn [append json_key]. rewrite Ascii.eqb_refl. reflexivity.
  - cbn [plain_key] in H. apply andb_prop in H as [H Hk]. apply andb_prop in H as [H1 H2].
    apply negb_true_iff in H1, H2. cbn [append json_key]. rewrite H1, H2, (IH Hk). reflexivity.
Qed.

Lemma field_append k v rest :
  field k v ++ rest = String quote (k ++ String quote (String ":" (v ++ rest))).
Proof. unfold field. cbn [append]. rewrite append_assoc. reflexivity. Qed.

Lemma json_members_comma fuel k n more seen :
  plain_key k = true -> (n < 10 ^ 20)%N ->
  json_members (S fuel) (field k (dec n) ++ String "," more) seen =
  json_members fuel more ((k, integer_literal n) :: seen).
Proof.
  intros Hk Hn. rewrite field_append. cbn [json_members].
  rewrite (skip_spaces_keep quote) by reflexivity.
  rewrite Ascii.eqb_refl, (json_key_plain k _ Hk).
  rewrite (skip_spaces_keep ":") by reflexivity. cbv beta iota.
  rewrite skip_spaces_dec, (json_number_dec n "," more Hn eq_refl).
  rewrite (skip_spaces_keep ",") by reflexivity. reflexivity.
Qed.

Lemma json_members_brace fuel k n more seen :
  plain_key k = true -> (n < 10 ^ 20)%N ->
  json_members (S fuel) (field k (dec n) ++ String "}" more) seen =
  Some ((k, integer_literal n) :: seen, more).
Proof.
  intros Hk Hn. rewrite field_append. cbn [json_members].
  rewrite (skip_spaces_keep quote) by reflexivity.
  rewrite Ascii.eqb_refl, (json_key_plain k _ Hk).
  rewrite (skip_spaces_keep ":") by reflexivity. cbv beta iota.
  rewrite skip_spaces_dec, (json_number_dec n "}" more Hn eq_refl).
  rewrite (skip_spaces_keep "}") by reflexivity. reflexivity.
Qed.

Lemma length_field k v rest :
  String.length (field k v ++ rest) =
  S (String.length k + S (S (String.length v + String.length rest))).
Proof.
  rewrite field_append. cbn [String.length]. rewrite length_append.
  cbn [String.length]. rewrite length_append. reflexivity.
Qed.

Lemma flat_json_object r members :
  json_members (S (String.length r)) (String quote r) [] = Some (members, "") ->
  flat_json (String "{" (String quote r)) =
  Some (JsonObject {| ymin := member members "ymin"; xmin := member members "xmin";
                      ymax := member members "ymax"; xmax := member members "xmax" |}).
Proof.
  intros M. unfold flat_json.
  rewrite (skip_spaces_keep "{") by reflexivity. cbv beta iota.
  rewrite (skip_spaces_keep quote) by reflexivity. cbv beta iota zeta.
  cbn [String.length]. rewrite M. reflexivity.
Qed.

Lemma flat_json_box a b c d :
  (a < 10 ^ 20)%N -> (b < 10 ^ 20)%N -> (c < 10 ^ 20)%N -> (d < 10 ^ 20)%N ->
  flat_json (box_text (dec a) (dec b) (dec c) (dec d)) =
  Some (JsonObject {| ymin := integer_literal a; xmin := integer_literal b;
                      ymax := integer_literal c; xmax := integer_literal d |}).
Proof.
  intros Ha Hb Hc Hd. unfold box_text.
  change ("{" ++ ?x) with (String "{" x).
  repeat change ("," ++ ?x) with (String "," x).
  change ("}" ++ "") with "}".
  set (rest := field "ymin" (dec a) ++ _).
  assert (Q : exists r, rest = String quote r) by (eexists; apply field_append).
  destruct Q as [r Q].
  assert (M : json_members (String.length rest) rest [] =
              Some ([("xmax", integer_literal d); ("ymax", integer_literal c);
                     ("xmin", integer_literal b); ("ymin", integer_literal a)], "")).
  { subst rest. rewrite length_field. cbn [String.length Nat.add].
    rewrite json_members_comma by (reflexivity || assumption).
    rewrite json_members_comma by (reflexivity || assumption).
    rewrite json_members_comma by (reflexivity || assumption).
    rewrite json_members_brace by (reflexivity || assumption).
    reflexivity. }
  rewrite Q in *. apply (flat_json_object r _ M).
Qed.

Lemma literal_integer n : (n < 2 ^ 53)%N -> integer_of (integer_literal n) = Some (Z.of_N n).
Proof.
  intros Hn. destruct n as [|p]; [reflexivity|].
  assert (Hp : (Zpos p < 2 ^ 53)%Z).
  { change (Zpos p) with (Z.of_N (Npos p)). change (2 ^ 53)%Z with (Z.of_N (2 ^ 53)). lia. }
  unfold integer_literal, decimal_SF. cbn [Z.leb Z.compare cond_Zopp Z.of_N].
  change (10 ^ 0)%Z with 1%Z. rewrite Z.mul_1_r.
  destruct (binary_normalize_integer p Hp) as (mn & en & E & He & Hm & B).
  rewrite E. unfold integer_of. rewrite Prim2SF_SF2Prim.
  - apply (integer_of_fields mn en p He Hm).
  - cbn [valid_binary]. unfold bounded, canonical_mantissa. apply andb_true_intro. split.
    + apply Z.eqb_eq. rewrite fexp_unfold.
      change (Zpos (digits2_pos mn)) with (Zdigits2 (Zpos mn)).
      assert (D : Zdigits2 (Zpos mn) = 53%Z).
      { apply Z.le_antisymm; [apply Zdigits2_le; lia|].
        apply (Zdigits2_ge (Zpos mn) 52); lia. }
      rewrite D. lia.
    + apply Z.leb_le. unfold emax, prec. lia.
Qed.

Lemma below_2_53 n : (n < 2 ^ 53)%N -> (n < 10 ^ 20)%N.
Proof. intros H. eapply N.lt_trans; [exact H | reflexivity]. Qed.

(** X28.  A detection reply whose text is the object of the response schema,
    with the four fields written as integers below 2^53, is read as the box
    of those integers, whatever the engine makes of other texts, and
    nothing is written to the console. *)
Theorem detectObjectBBox_reads_box other k (a b c d : N) :
  truthy k = true ->
  (a < 2 ^ 53)%N -> (b < 2 ^ 53)%N -> (c < 2 ^ 53)%N -> (d < 2 ^ 53)%N ->
  exists box,
    detectObjectBBox other k
      (Resolved {| text := Some (box_text (dec a) (dec b) (dec c) (dec d)) |}) =
    (Resolved (JsonObject box), []) /\
    integer_of (ymin box) = Some (Z.of_N a) /\
    integer_of (xmin box) = Some (Z.of_N b) /\
    integer_of (ymax box) = Some (Z.of_N c) /\
    integer_of (xmax box) = Some (Z.of_N d).
Proof.
  intros Hk Ha Hb Hc Hd.
  exists {| ymin := integer_literal a; xmin := integer_literal b;
            ymax := integer_literal c; xmax := integer_literal d |}.
  split; [|cbn [ymin xmin ymax xmax]; auto using literal_integer].
  unfold detectObjectBBox, JSON_parse. rewrite Hk. cbn [negb text].
  rewrite (flat_json_box a b c d) by auto using below_2_53.
  reflexivity.
Qed.

Lemma detectObjectBBox_reads_box_witness :
  exists box,
    detectObjectBBox no_other_json "key"
      (Resolved {| text := Some (box_text (dec 100) (dec 200) (dec 500) (dec 600)) |}) =
    (Resolved (JsonObject box), []) /\
    integer_of (ymin box) = Some 100%Z /\
    integer_of (xmin box) = Some 200%Z /\
    integer_of (ymax box) = Some 500%Z /\
    integer_of (xmax box) = Some 600%Z.
Proof.
  apply (detectObjectBBox_reads_box no_other_json "key" 100 200 500 600); reflexivity.
Defined.
